(** * Student Performance Dashboard: a shallow embedding of [script.js]

    The dashboard keeps a roster of students in memory, derives averages,
    grades, ranks and insights from it, and keeps a table, an insight panel
    and two charts in step with the roster and with the selection made by
    the user.

    Conventions of the embedding.
    - A JavaScript number is a [number]: [NaN] or a finite rational [Fin q].
      The arithmetic of the program is carried out exactly on [Q].  For
      marks that are integers from 0 to 100, the range the edit path
      enforces, the averages are tenths of integers and the doubles the
      program computes are the doubles nearest to them: this is checked on
      primitive floats ([rounded_tenths_binary64_exact],
      [tenths_binary64_bounds]).  A statement that would depend on the
      rounding outside that range carries the range as a hypothesis.
    - Student ids are integers ([Z]); they are only ever compared, maximised
      and incremented.
    - A string is represented by its UTF-8 encoding, a [string] of bytes.
      [trim] and [parseInt] know the white space of ECMAScript in this
      encoding.  [toLowerCase] and [localeCompare] depend on the case
      tables and the collation of the host; they are the two fields of a
      [Host], a parameter of the development.
    - The module-level variables of the script ([students],
      [selectedStudents], [selectedStudentForRadar]) and the parts of the
      document the handlers read or write form one explicit [State] that is
      passed through every function.  Purely presentational output (CSS
      classes, canvas geometry, button captions) is not recorded. *)

From Stdlib Require Import ZArith QArith Qround Lqa Lia.
From Stdlib Require Import Uint63 PrimFloat FloatOps SpecFloat.
From Stdlib Require Import List String Ascii Bool Permutation Sorted.
Import ListNotations.

Local Open Scope string_scope.
Local Open Scope Z_scope.

(** ** JavaScript numbers *)

Inductive number : Type :=
| NaN
| Fin (q : Q).

Definition num (z : Z) : number := Fin (inject_Z z).

Definition isNaN (a : number) : bool :=
  match a with NaN => true | Fin _ => false end.

Definition num_add (a b : number) : number :=
  match a, b with
  | Fin x, Fin y => Fin (x + y)
  | _, _ => NaN
  end.

Definition num_sub (a b : number) : number :=
  match a, b with
  | Fin x, Fin y => Fin (x - y)
  | _, _ => NaN
  end.

Definition num_mul (a b : number) : number :=
  match a, b with
  | Fin x, Fin y => Fin (x * y)
  | _, _ => NaN
  end.

(** The program divides by [values.length] (always 5) and by the literal 10
    only; a zero divisor never occurs and is mapped to [NaN] here. *)
Definition num_div (a b : number) : number :=
  match a, b with
  | Fin x, Fin y => if Qeq_bool y 0 then NaN else Fin (x / y)
  | _, _ => NaN
  end.

(** [Math.round]: the nearest integer, ties towards plus infinity. *)
Definition Math_round (a : number) : number :=
  match a with
  | NaN => NaN
  | Fin q => num (Qfloor (q + (1 # 2)))
  end.

(** [a < b], [a > b], [a >= b]: every comparison with [NaN] is false. *)
Definition num_lt (a b : number) : bool :=
  match a, b with
  | Fin x, Fin y => match Qcompare x y with Lt => true | _ => false end
  | _, _ => false
  end.

Definition num_gt (a b : number) : bool := num_lt b a.

Definition num_ge (a b : number) : bool :=
  match a, b with
  | Fin x, Fin y => match Qcompare x y with Lt => false | _ => true end
  | _, _ => false
  end.

(** ** Strings

    The white space that [trim] removes and [parseInt] skips is the
    [WhiteSpace] and [LineTerminator] of ECMAScript: U+0009 to U+000D,
    U+0020, U+00A0, U+1680, U+2000 to U+200A, U+2028, U+2029, U+202F,
    U+205F, U+3000 and U+FEFF.  In UTF-8 these are the single bytes 9 to 13
    and 32, the pair C2 A0, and the triples listed in [whiteSpace3]. *)

Definition whiteSpace1 (c : ascii) : bool :=
  let n := nat_of_ascii c in
  ((Nat.leb 9 n && Nat.leb n 13) || Nat.eqb n 32)%bool.

Definition whiteSpace2 (c c1 : ascii) : bool :=
  (Nat.eqb (nat_of_ascii c) 194 && Nat.eqb (nat_of_ascii c1) 160)%bool.

Definition whiteSpace3 (c c1 c2 : ascii) : bool :=
  let n := nat_of_ascii c in
  let n1 := nat_of_ascii c1 in
  let n2 := nat_of_ascii c2 in
  ((Nat.eqb n 225 && Nat.eqb n1 154 && Nat.eqb n2 128)
   || (Nat.eqb n 226 && Nat.eqb n1 128
       && ((Nat.leb 128 n2 && Nat.leb n2 138)
           || Nat.eqb n2 168 || Nat.eqb n2 169 || Nat.eqb n2 175))
   || (Nat.eqb n 226 && Nat.eqb n1 129 && Nat.eqb n2 159)
   || (Nat.eqb n 227 && Nat.eqb n1 128 && Nat.eqb n2 128)
   || (Nat.eqb n 239 && Nat.eqb n1 187 && Nat.eqb n2 191))%bool.

Fixpoint trimStart (s : string) : string :=
  match s with
  | EmptyString => EmptyString
  | String c r =>
      if whiteSpace1 c then trimStart r
      else
        match r with
        | EmptyString => s
        | String c1 r1 =>
            if whiteSpace2 c c1 then trimStart r1
            else
              match r1 with
              | EmptyString => s
              | String c2 r2 => if whiteSpace3 c c1 c2 then trimStart r2 else s
              end
        end
  end.

(** The string consists of white space only. *)
Fixpoint allWhiteSpace (s : string) : bool :=
  match s with
  | EmptyString => true
  | String c r =>
      if whiteSpace1 c then allWhiteSpace r
      else
        match r with
        | EmptyString => false
        | String c1 r1 =>
            if whiteSpace2 c c1 then allWhiteSpace r1
            else
              match r1 with
              | EmptyString => false
              | String c2 r2 => if whiteSpace3 c c1 c2 then allWhiteSpace r2 else false
              end
        end
  end.

Fixpoint trimEnd (s : string) : string :=
  match s with
  | EmptyString => EmptyString
  | String c r => if allWhiteSpace s then EmptyString else String c (trimEnd r)
  end.

Definition trim (s : string) : string := trimEnd (trimStart s).

(** [s.includes(t)]: on well-formed strings a run of UTF-16 code units
    occurs in another exactly when its UTF-8 bytes occur in the other's. *)
Fixpoint includes (s t : string) : bool :=
  if String.prefix t s then true
  else match s with
       | EmptyString => false
       | String _ r => includes r t
       end.

(** A string is truthy when it is not empty. *)
Definition truthy_string (s : string) : bool :=
  match s with EmptyString => false | _ => true end.

(** *** [parseInt] with no radix argument

    Leading white space is skipped, one sign is accepted, a [0x] or [0X]
    prefix switches to radix 16, and the longest run of digits that follows
    is the value; text after the digits is ignored, and [NaN] is returned
    when there is no digit at all.  The value here is the integer the
    digits denote; the host returns the double nearest to it, which is the
    same number up to 2^53 and lies on the same side of every smaller
    integer beyond. *)

Definition digit_value (radix : Z) (c : ascii) : option Z :=
  let n := Z.of_nat (nat_of_ascii c) in
  let d :=
    if (48 <=? n) && (n <=? 57) then Some (n - 48)
    else if (97 <=? n) && (n <=? 122) then Some (n - 87)
    else if (65 <=? n) && (n <=? 90) then Some (n - 55)
    else None in
  match d with
  | Some v => if v <? radix then Some v else None
  | None => None
  end.

Fixpoint parse_digits (radix : Z) (s : string) (acc : option Z) : option Z :=
  match s with
  | EmptyString => acc
  | String c r =>
      match digit_value radix c with
      | Some d =>
          parse_digits radix r
            (Some (match acc with Some a => a * radix + d | None => d end))
      | None => acc
      end
  end.

Definition strip_sign (s : string) : Z * string :=
  match s with
  | String "-" r => (-1, r)
  | String "+" r => (1, r)
  | _ => (1, s)
  end.

Definition strip_hex_prefix (s : string) : Z * string :=
  match s with
  | String "0" (String "x" r) => (16, r)
  | String "0" (String "X" r) => (16, r)
  | _ => (10, s)
  end.

Definition parseInt (s : string) : number :=
  let (sign, s1) := strip_sign (trimStart s) in
  let (radix, s2) := strip_hex_prefix s1 in
  match parse_digits radix s2 None with
  | None => NaN
  | Some v => num (sign * v)
  end.

(** ** Student data *)

Inductive Subject : Type := math | science | english | history | computer.

Definition SUBJECTS : list Subject := [math; science; english; history; computer].

Definition SUBJECT_LABELS (s : Subject) : string :=
  match s with
  | math => "Math"
  | science => "Science"
  | english => "English"
  | history => "History"
  | computer => "Computer"
  end.

(** The [marks] object: one number under each of the five subject keys, in
    this insertion order. *)
Record Marks : Type := mkMarks {
  on_math : number;
  on_science : number;
  on_english : number;
  on_history : number;
  on_computer : number
}.

Definition get_mark (m : Marks) (s : Subject) : number :=
  match s with
  | math => on_math m
  | science => on_science m
  | english => on_english m
  | history => on_history m
  | computer => on_computer m
  end.

Definition set_mark (m : Marks) (s : Subject) (v : number) : Marks :=
  match s with
  | math => mkMarks v (on_science m) (on_english m) (on_history m) (on_computer m)
  | science => mkMarks (on_math m) v (on_english m) (on_history m) (on_computer m)
  | english => mkMarks (on_math m) (on_science m) v (on_history m) (on_computer m)
  | history => mkMarks (on_math m) (on_science m) (on_english m) v (on_computer m)
  | computer => mkMarks (on_math m) (on_science m) (on_english m) (on_history m) v
  end.

Definition Object_values (m : Marks) : list number :=
  [on_math m; on_science m; on_english m; on_history m; on_computer m].

Definition Object_entries (m : Marks) : list (Subject * number) :=
  map (fun s => (s, get_mark m s)) SUBJECTS.

Record Student : Type := mkStudent {
  id : Z;
  rollNo : string;
  name : string;
  marks : Marks
}.

Definition marks_of (a b c d e : Z) : Marks :=
  mkMarks (num a) (num b) (num c) (num d) (num e).

Definition studentsData : list Student :=
  [ mkStudent 104 "104" "Ananya Singh" (marks_of 95 92 88 90 98);
    mkStudent 101 "101" "Aarav Sharma" (marks_of 92 88 76 85 95);
    mkStudent 103 "103" "Rohan Kumar" (marks_of 65 58 70 62 68);
    mkStudent 102 "102" "Priya Patel" (marks_of 55 52 58 54 56);
    mkStudent 105 "105" "Vikram Reddy" (marks_of 45 52 48 40 55) ].

(** ** Utility functions *)

Definition calculateAverage (m : Marks) : number :=
  let values := Object_values m in
  let sum := fold_left (fun acc val => num_add acc val) values (num 0) in
  num_div
    (Math_round (num_mul (num_div sum (num (Z.of_nat (List.length values)))) (num 10)))
    (num 10).

Definition getGrade (average : number) : string :=
  if num_ge average (num 90) then "A+"
  else if num_ge average (num 75) then "A"
  else if num_ge average (num 60) then "B"
  else if num_ge average (num 50) then "C"
  else "Fail".

Definition getPerformanceClass (mark : number) : string :=
  if num_ge mark (num 75) then "mark-excellent"
  else if num_ge mark (num 50) then "mark-average"
  else "mark-needs-improvement".

(** ** [Array.prototype.sort]

    The sort is stable: [compareFn a b > 0] moves [a] behind [b], any other
    result (negative, zero or [NaN]) keeps the two in their order.  For a
    consistent comparator every stable sort returns this list.  For an
    inconsistent one (a [NaN] average makes [byAverageDesc] inconsistent)
    the order is left to the host, which returns some permutation: a
    statement that depends on the order either excludes this case by a
    hypothesis or is proved for every order. *)

Section ArraySort.
Context {A : Type} (compareFn : A -> A -> number).

Definition sorts_after (a b : A) : bool := num_gt (compareFn a b) (num 0).

Fixpoint sort_insert (a : A) (l : list A) : list A :=
  match l with
  | [] => [a]
  | b :: r => if sorts_after a b then b :: sort_insert a r else a :: l
  end.

Fixpoint Array_sort (l : list A) : list A :=
  match l with
  | [] => []
  | a :: r => sort_insert a (Array_sort r)
  end.
End ArraySort.

Definition Array_includes (l : list Z) (x : Z) : bool := existsb (Z.eqb x) l.

(** [students.find(s => s.id === studentId)] *)
Definition find_student (l : list Student) (studentId : Z) : option Student :=
  find (fun s => id s =? studentId) l.

(** ** Ranking *)

(** A student with the computed [average] and the assigned [rank]. *)
Record RankedStudent : Type := mkRanked {
  student : Student;
  average : number;
  rank : Z
}.

Definition byAverageDesc (a b : Student * number) : number :=
  num_sub (snd b) (snd a).

(** The ranking loop: [i] is the index of the head of [l], [prev] the average
    at index [i - 1] (absent exactly when [i = 0]) and [currentRank] the rank
    variable on entry to the iteration. *)
Fixpoint assignRanks (i : nat) (prev : option number) (currentRank : Z)
    (l : list (Student * number)) : list RankedStudent :=
  match l with
  | [] => []
  | (s, avg) :: rest =>
      let currentRank' :=
        if (Nat.ltb 0 i
            && match prev with Some p => num_lt avg p | None => false end)%bool
        then Z.of_nat i + 1
        else currentRank in
      mkRanked s avg currentRank' :: assignRanks (S i) (Some avg) currentRank' rest
  end.

Definition calculateRanks (students : list Student) : list RankedStudent :=
  let studentsWithAvg := map (fun s => (s, calculateAverage (marks s))) students in
  let studentsWithAvg := Array_sort byAverageDesc studentsWithAvg in
  assignRanks 0 None 1 studentsWithAvg.

(** ** Insight *)

Record Insight : Type := mkInsight {
  status : string;
  statusClass : string;
  strengths : list string;
  weaknesses : list string;
  insight_average : number
}.

Definition getInsight (s : Student) : Insight :=
  let average := calculateAverage (marks s) in
  let '(status, statusClass) :=
    if num_ge average (num 75) then ("Excellent", "insight-excellent")
    else if num_ge average (num 50) then ("Average", "insight-average")
    else ("Needs Improvement", "insight-needs-improvement") in
  let '(strengths, weaknesses) :=
    fold_left
      (fun (acc : list string * list string) '(subject, mark) =>
         if num_ge mark (num 75)
         then (fst acc ++ [SUBJECT_LABELS subject], snd acc)%list
         else if num_lt mark (num 50)
         then (fst acc, snd acc ++ [SUBJECT_LABELS subject])%list
         else acc)
      (Object_entries (marks s)) ([], []) in
  mkInsight status statusClass strengths weaknesses average.

(** ** Application state *)

(** One table row: the ranked student it was rendered from (its
    [data-id] is that student's [id]) and the state of its checkbox. *)
Record Row : Type := mkRow {
  row_student : RankedStudent;
  checked : bool
}.

Definition row_id (r : Row) : Z := id (student (row_student r)).

Inductive Panel : Type :=
| Placeholder (text : string)
| InsightContent (studentName : string) (insight : Insight).

Definition multiplePlaceholder : Panel :=
  Placeholder "Multiple students selected. Analysis hidden.".

Definition defaultPlaceholder : Panel :=
  Placeholder "Hover over or click a student row to see detailed insights.".

Inductive Radar : Type :=
| EmptyRadar
| RadarOf (s : Student).

(** What [drawComparisonChart] leaves on the page: the two names, the
    winner markers as (subject, bar index) and the legend as
    (subject label, winner name). *)
Record Comparison : Type := mkComparison {
  comparisonNames : string * string;
  winnerMarkers : list (Subject * Z);
  comparisonLegend : list (string * string)
}.

Record State : Type := mkState {
  students : list Student;
  selectedStudents : list Z;
  selectedStudentForRadar : option Z;
  searchInput : string;
  filterSelect : string;
  sortSelect : string;
  tableBody : list Row;
  insightPanel : Panel;
  radarChart : Radar;
  comparisonModal : bool;
  comparisonChart : option Comparison;
  alerts : list string
}.

Definition set_students (st : State) (v : list Student) : State :=
  mkState v (selectedStudents st) (selectedStudentForRadar st) (searchInput st)
    (filterSelect st) (sortSelect st) (tableBody st) (insightPanel st)
    (radarChart st) (comparisonModal st) (comparisonChart st) (alerts st).

Definition set_selectedStudents (st : State) (v : list Z) : State :=
  mkState (students st) v (selectedStudentForRadar st) (searchInput st)
    (filterSelect st) (sortSelect st) (tableBody st) (insightPanel st)
    (radarChart st) (comparisonModal st) (comparisonChart st) (alerts st).

Definition set_selectedStudentForRadar (st : State) (v : option Z) : State :=
  mkState (students st) (selectedStudents st) v (searchInput st)
    (filterSelect st) (sortSelect st) (tableBody st) (insightPanel st)
    (radarChart st) (comparisonModal st) (comparisonChart st) (alerts st).

Definition set_searchInput (st : State) (v : string) : State :=
  mkState (students st) (selectedStudents st) (selectedStudentForRadar st) v
    (filterSelect st) (sortSelect st) (tableBody st) (insightPanel st)
    (radarChart st) (comparisonModal st) (comparisonChart st) (alerts st).

Definition set_filterSelect (st : State) (v : string) : State :=
  mkState (students st) (selectedStudents st) (selectedStudentForRadar st)
    (searchInput st) v (sortSelect st) (tableBody st) (insightPanel st)
    (radarChart st) (comparisonModal st) (comparisonChart st) (alerts st).

Definition set_sortSelect (st : State) (v : string) : State :=
  mkState (students st) (selectedStudents st) (selectedStudentForRadar st)
    (searchInput st) (filterSelect st) v (tableBody st) (insightPanel st)
    (radarChart st) (comparisonModal st) (comparisonChart st) (alerts st).

Definition set_tableBody (st : State) (v : list Row) : State :=
  mkState (students st) (selectedStudents st) (selectedStudentForRadar st)
    (searchInput st) (filterSelect st) (sortSelect st) v (insightPanel st)
    (radarChart st) (comparisonModal st) (comparisonChart st) (alerts st).

Definition set_insightPanel (st : State) (v : Panel) : State :=
  mkState (students st) (selectedStudents st) (selectedStudentForRadar st)
    (searchInput st) (filterSelect st) (sortSelect st) (tableBody st) v
    (radarChart st) (comparisonModal st) (comparisonChart st) (alerts st).

Definition set_radarChart (st : State) (v : Radar) : State :=
  mkState (students st) (selectedStudents st) (selectedStudentForRadar st)
    (searchInput st) (filterSelect st) (sortSelect st) (tableBody st)
    (insightPanel st) v (comparisonModal st) (comparisonChart st) (alerts st).

Definition set_comparisonModal (st : State) (v : bool) : State :=
  mkState (students st) (selectedStudents st) (selectedStudentForRadar st)
    (searchInput st) (filterSelect st) (sortSelect st) (tableBody st)
    (insightPanel st) (radarChart st) v (comparisonChart st) (alerts st).

Definition set_comparisonChart (st : State) (v : option Comparison) : State :=
  mkState (students st) (selectedStudents st) (selectedStudentForRadar st)
    (searchInput st) (filterSelect st) (sortSelect st) (tableBody st)
    (insightPanel st) (radarChart st) (comparisonModal st) v (alerts st).

Definition alert (st : State) (message : string) : State :=
  mkState (students st) (selectedStudents st) (selectedStudentForRadar st)
    (searchInput st) (filterSelect st) (sortSelect st) (tableBody st)
    (insightPanel st) (radarChart st) (comparisonModal st) (comparisonChart st)
    (alerts st ++ [message])%list.

(** ** Insight panel *)

Definition showInsight (st : State) (studentId : Z) : State :=
  match find_student (students st) studentId with
  | None => st
  | Some s => set_insightPanel st (InsightContent (name s) (getInsight s))
  end.

(** A number used as a condition is true unless it is zero. *)
Definition truthy_id (i : Z) : bool := negb (i =? 0).

Definition restoreInsightState (st : State) : State :=
  if (1 <? List.length (selectedStudents st))%nat then
    set_insightPanel st multiplePlaceholder
  else if (List.length (selectedStudents st) =? 1)%nat then
    match nth_error (selectedStudents st) 0 with
    | Some i => showInsight st i
    | None => st
    end
  else
    match selectedStudentForRadar st with
    | Some i =>
        if truthy_id i then showInsight st i
        else set_insightPanel st defaultPlaceholder
    | None => set_insightPanel st defaultPlaceholder
    end.

Definition drawRadarChart (st : State) (s : Student) : State :=
  set_radarChart st (RadarOf s).

Definition drawEmptyRadarChart (st : State) : State :=
  set_radarChart st EmptyRadar.

Definition selectStudentForRadar (st : State) (studentId : Z) : State :=
  let st := set_selectedStudentForRadar st (Some studentId) in
  match find_student (students st) studentId with
  | Some s => drawRadarChart st s
  | None => st
  end.

(** ** Comparison chart *)

(** Index of the bar that wins a subject, or -1. *)
Definition winnerIndex (mark0 mark1 : number) : Z :=
  if num_gt mark0 mark1 then 0 else if num_gt mark1 mark0 then 1 else -1.

(** One round of the [subjects.forEach] loop: the markers drawn over the two
    bars and the legend entry pushed for [subject]. *)
Definition compareSubject (student1 student2 : Student)
    (acc : list (Subject * Z) * list (string * string)) (subject : Subject)
    : list (Subject * Z) * list (string * string) :=
  let mark0 := get_mark (marks student1) subject in
  let mark1 := get_mark (marks student2) subject in
  let winner := winnerIndex mark0 mark1 in
  let markers :=
    map (fun barIndex => (subject, barIndex))
        (filter (fun barIndex => winner =? barIndex) [0; 1]) in
  let legendItems :=
    if 0 <=? winner
    then [(SUBJECT_LABELS subject,
           if winner =? 0 then name student1 else name student2)]
    else [] in
  (fst acc ++ markers, snd acc ++ legendItems)%list.

Definition drawComparisonChart (st : State) : State :=
  if negb (List.length (selectedStudents st) =? 2)%nat then st
  else
    match nth_error (selectedStudents st) 0, nth_error (selectedStudents st) 1 with
    | Some id1, Some id2 =>
        match find_student (students st) id1, find_student (students st) id2 with
        | Some student1, Some student2 =>
            let '(markers, legendItems) :=
              fold_left (compareSubject student1 student2) SUBJECTS ([], []) in
            set_comparisonChart st
              (Some (mkComparison (name student1, name student2) markers legendItems))
        | _, _ => st
        end
    | _, _ => st
    end.

Definition openComparisonModal (st : State) : State :=
  if negb (List.length (selectedStudents st) =? 2)%nat then st
  else drawComparisonChart (set_comparisonModal st true).

Definition closeComparisonModal (st : State) : State :=
  set_comparisonModal st false.

(** ** Add-student form *)

(** The values of the form fields, as typed. *)
Record AddForm : Type := mkAddForm {
  studentName : string;
  rollNoField : string;
  markMath : string;
  markScience : string;
  markEnglish : string;
  markHistory : string;
  markComputer : string
}.

(** The [studentData] object handed to [addStudent]. *)
Record StudentData : Type := mkStudentData {
  data_name : string;
  data_rollNo : string;
  data_marks : Marks
}.

(** [Math.max(...l)] of a non-empty list; the script never calls it on an
    empty one. *)
Definition Math_max (l : list Z) : Z :=
  match l with
  | [] => 0
  | x :: r => fold_left Z.max r x
  end.

(** Outcome of an event handler that may raise. *)
Inductive Completion : Type :=
| Returned (st : State)
| Reverted (st : State) (cellText : number)
| Thrown (error : string).

(** ** The host

    [a.localeCompare(b)] is negative, zero or positive as the collation of
    the host decides, and [s.toLowerCase()] follows the case tables of the
    Unicode version the host implements.  Neither is part of the script;
    the dashboard is embedded for an arbitrary host. *)
Record Host : Type := mkHost {
  localeCompare : string -> string -> Z;
  toLowerCase : string -> string
}.

Section Dashboard.

Variable host : Host.

(** ** The query pipeline of [renderTable] *)

Definition renderTable_view (students : list Student)
    (searchValue filter sort : string) : list RankedStudent :=
  let searchTerm := trim (toLowerCase host searchValue) in
  let rankedStudents := calculateRanks students in
  let rankedStudents :=
    if truthy_string searchTerm then
      List.filter
        (fun s =>
           includes (toLowerCase host (name (student s))) searchTerm
           || includes (toLowerCase host (rollNo (student s))) searchTerm)
        rankedStudents
    else rankedStudents in
  let rankedStudents :=
    if (filter =? "top")%string then
      List.filter (fun s => num_ge (average s) (num 75)) rankedStudents
    else if (filter =? "below")%string then
      List.filter (fun s => num_lt (average s) (num 50)) rankedStudents
    else rankedStudents in
  if (sort =? "name")%string then
    Array_sort
      (fun a b => num (localeCompare host (name (student a)) (name (student b))))
      rankedStudents
  else if (sort =? "roll")%string then
    Array_sort
      (fun a b =>
         num (localeCompare host (rollNo (student a)) (rollNo (student b))))
      rankedStudents
  else rankedStudents.

Definition renderTable (st : State) : State :=
  let rankedStudents :=
    renderTable_view (students st) (searchInput st) (filterSelect st)
      (sortSelect st) in
  set_tableBody st
    (map (fun s =>
            mkRow s (Array_includes (selectedStudents st) (id (student s))))
         rankedStudents).

(** ** Live updates *)

Definition updateAllVisuals (st : State) : State :=
  let st := renderTable st in
  match selectedStudentForRadar st with
  | Some i =>
      if truthy_id i then
        match find_student (students st) i with
        | Some s => showInsight (drawRadarChart st s) i
        | None =>
            set_selectedStudentForRadar
              (set_insightPanel (drawEmptyRadarChart st) defaultPlaceholder)
              None
        end
      else st
  | None => st
  end.

(** ** Data management *)

Definition addStudent (st : State) (studentData : StudentData) : State :=
  let newId :=
    if (0 <? List.length (students st))%nat
    then Math_max (map id (students st)) + 1
    else 1 in
  let newStudent :=
    mkStudent newId (data_rollNo studentData) (data_name studentData)
      (data_marks studentData) in
  updateAllVisuals (set_students st (students st ++ [newStudent])%list).

Definition deleteStudent (st : State) (i : Z) : State :=
  let st := set_students st (List.filter (fun s => negb (id s =? i)) (students st)) in
  let st :=
    if Array_includes (selectedStudents st) i then
      let st :=
        set_selectedStudents st
          (List.filter (fun sId => negb (sId =? i)) (selectedStudents st)) in
      if comparisonModal st then
        let st := drawComparisonChart st in
        if (List.length (selectedStudents st) <? 2)%nat
        then closeComparisonModal st
        else st
      else st
    else st in
  updateAllVisuals st.

(** The submit handler of the add-student form. *)
Definition addStudentForm_submit (st : State) (form : AddForm) : State :=
  let rollNo' := trim (rollNoField form) in
  if existsb (fun s => (rollNo s =? rollNo')%string) (students st) then
    alert st "Roll Number already exists!"
  else
    let studentData :=
      mkStudentData (trim (studentName form)) rollNo'
        (mkMarks (parseInt (markMath form)) (parseInt (markScience form))
           (parseInt (markEnglish form)) (parseInt (markHistory form))
           (parseInt (markComputer form))) in
    addStudent st studentData.

(** ** Inline editing *)

(** [student.marks[subject] = newValue] on the student [find] returned:
    the first one with that id. *)
Fixpoint assign_mark (l : list Student) (studentId : Z) (subject : Subject)
    (newValue : number) : list Student :=
  match l with
  | [] => []
  | s :: r =>
      if id s =? studentId
      then mkStudent (id s) (rollNo s) (name s)
             (set_mark (marks s) subject newValue) :: r
      else s :: assign_mark r studentId subject newValue
  end.

(** The blur handler of a mark cell whose [data-id], [data-subject] and
    text are the arguments.  Reading [student.marks] of a student that
    [find] did not return raises a [TypeError]. *)
Definition handleMarkEdit (st : State) (studentId : Z) (subject : Subject)
    (textContent : string) : Completion :=
  let newValue := parseInt (trim textContent) in
  match find_student (students st) studentId with
  | None => Thrown "TypeError"
  | Some s =>
      if isNaN newValue || num_lt newValue (num 0) || num_gt newValue (num 100)
      then Reverted st (get_mark (marks s) subject)
      else
        Returned
          (updateAllVisuals
             (set_students st
                (assign_mark (students st) studentId subject newValue)))
  end.

(** ** Selection *)

Fixpoint set_checked (rows : list Row) (i : nat) (b : bool) : list Row :=
  match rows, i with
  | [], _ => []
  | r :: rest, O => mkRow (row_student r) b :: rest
  | r :: rest, S i' => r :: set_checked rest i' b
  end.

(** The change handler of the checkbox of row [i]; [checkbox.checked] is
    read from the row. *)
Definition checkbox_change (st : State) (i : nat) : State :=
  match nth_error (tableBody st) i with
  | None => st
  | Some r =>
      let studentId := row_id r in
      if checked r then
        if (List.length (selectedStudents st) <? 2)%nat then
          restoreInsightState
            (set_selectedStudents st (selectedStudents st ++ [studentId])%list)
        else set_tableBody st (set_checked (tableBody st) i false)
      else
        restoreInsightState
          (set_selectedStudents st
             (List.filter (fun i' => negb (i' =? studentId)) (selectedStudents st)))
  end.

Definition handlePrint (st : State) : State :=
  if (List.length (selectedStudents st) =? 1)%nat then
    match nth_error (selectedStudents st) 0 with
    | Some studentId =>
        match find_student (students st) studentId with
        | Some s => showInsight (drawRadarChart st s) studentId
        | None => st
        end
    | None => st
    end
  else st.

(** ** Events *)

Inductive Event : Type :=
| SearchTyped (value : string)
| SearchDebounced
| FilterChanged (value : string)
| SortChanged (value : string)
| CheckboxClicked (row : nat)
| RowMouseEnter (row : nat)
| RowMouseLeave (row : nat)
| RowClicked (row : nat)
| MarkCellBlur (row : nat) (subject : Subject) (textContent : string)
| DeleteClicked (row : nat) (confirmed : bool)
| CompareClicked
| ComparisonClosed
| AddFormSubmitted (form : AddForm)
| PrintClicked.

(** An event on a row exists only while the row does. *)
Definition on_row (st : State) (i : nat) (k : Row -> State) : State :=
  match nth_error (tableBody st) i with
  | Some r => k r
  | None => st
  end.

(** One event, run to completion.  Typing in the search box only changes
    its value; the debounced [renderTable] is an event of its own.  A
    click on a checkbox toggles it before the change handler runs.  A
    handler that raises leaves the state as it was when it raised. *)
Definition dispatch (st : State) (ev : Event) : State :=
  match ev with
  | SearchTyped v => set_searchInput st v
  | SearchDebounced => renderTable st
  | FilterChanged v => renderTable (set_filterSelect st v)
  | SortChanged v => renderTable (set_sortSelect st v)
  | CheckboxClicked i =>
      on_row st i (fun r =>
        checkbox_change
          (set_tableBody st (set_checked (tableBody st) i (negb (checked r)))) i)
  | RowMouseEnter i => on_row st i (fun r => showInsight st (row_id r))
  | RowMouseLeave i => on_row st i (fun _ => restoreInsightState st)
  | RowClicked i =>
      on_row st i (fun r =>
        showInsight (selectStudentForRadar st (row_id r)) (row_id r))
  | MarkCellBlur i subject text =>
      on_row st i (fun r =>
        match handleMarkEdit st (row_id r) subject text with
        | Returned st' => st'
        | Reverted st' _ => st'
        | Thrown _ => st
        end)
  | DeleteClicked i confirmed =>
      on_row st i (fun r => if confirmed then deleteStudent st (row_id r) else st)
  | CompareClicked => openComparisonModal st
  | ComparisonClosed => closeComparisonModal st
  | AddFormSubmitted form => addStudentForm_submit st form
  | PrintClicked => handlePrint st
  end.

(** The state after [init]: the script's variables at their initial
    values, the table rendered and the radar chart empty; what else the
    served [page] holds (input values, panel text) is left as it is. *)
Definition init (page : State) : State :=
  drawEmptyRadarChart
    (renderTable
       (set_selectedStudentForRadar
          (set_selectedStudents (set_students page studentsData) []) None)).

Inductive reachable : State -> Prop :=
| reach_init : forall page, reachable (init page)
| reach_step : forall st ev, reachable st -> reachable (dispatch st ev).

End Dashboard.

(** * Vocabulary of the statements *)

Local Open Scope list_scope.

Definition finite (a : number) : Prop := isNaN a = false.

(** Equality of numbers as values. *)
Definition num_eq (a b : number) : Prop :=
  match a, b with
  | NaN, NaN => True
  | Fin x, Fin y => (x == y)%Q
  | _, _ => False
  end.



Definition desc (a b : Student * number) : Prop := num_ge (snd a) (snd b) = true.

Definition finite_avg (p : Student * number) : Prop := finite (snd p).


Definition numeric_marks (m : Marks) : Prop := Forall finite (Object_values m).

Definition sample_tie : list Student :=
  [ mkStudent 1 "201" "Low" (marks_of 60 60 60 60 60);
    mkStudent 2 "202" "First" (marks_of 70 70 70 70 70);
    mkStudent 3 "203" "Second" (marks_of 80 60 70 75 65) ].



(** The arithmetic mean of five integer marks. *)
Definition spec_mean (a b c d e : Z) : Q := inject_Z (a + b + c + d + e) / 5.

(** Rounding to one decimal place, a half at the tenths digit going away
    from zero. *)
Definition spec_round_tenths (q : Q) : Q :=
  if Qle_bool 0 q
  then inject_Z (Qfloor (q * 10 + (1 # 2))) / 10
  else - (inject_Z (Qfloor (- q * 10 + (1 # 2))) / 10).

Definition in_range (z : Z) : Prop := 0 <= z <= 100.

(** A host for the examples, whose texts are ASCII: strings are compared
    byte by byte, and the letters A to Z are lower-cased, as every host
    lower-cases ASCII text. *)
Definition codeUnitCompare (a b : string) : Z :=
  match String.compare a b with
  | Lt => -1
  | Eq => 0
  | Gt => 1
  end.

Definition lower_ascii (c : ascii) : ascii :=
  let n := nat_of_ascii c in
  if (Nat.leb 65 n && Nat.leb n 90)%bool then ascii_of_nat (n + 32) else c.

Fixpoint ascii_toLowerCase (s : string) : string :=
  match s with
  | EmptyString => EmptyString
  | String c r => String (lower_ascii c) (ascii_toLowerCase r)
  end.

Definition asciiHost : Host := mkHost codeUnitCompare ascii_toLowerCase.

(** Lower-casing changes letters only: the empty text stays empty, and the
    white space at the two ends of a text stays where it is. *)
Definition case_keeps_white_space (host : Host) : Prop :=
  toLowerCase host EmptyString = EmptyString
  /\ forall s, trim (toLowerCase host s) = toLowerCase host (trim s).

(** The search step of [renderTable] as a test on one student: with the
    search box holding [searchValue], is the student kept? *)
Definition searched (host : Host) (searchValue : string) (s : RankedStudent) : bool :=
  let searchTerm := trim (toLowerCase host searchValue) in
  if truthy_string searchTerm
  then includes (toLowerCase host (name (student s))) searchTerm
       || includes (toLowerCase host (rollNo (student s))) searchTerm
  else true.

(** Case-insensitive substring search of [term] in the name or the roll
    number; the empty term matches every student. *)
Definition search_keeps (host : Host) (term : string) (s : RankedStudent) : bool :=
  match term with
  | EmptyString => true
  | _ =>
      includes (toLowerCase host (name (student s))) (toLowerCase host term)
      || includes (toLowerCase host (rollNo (student s))) (toLowerCase host term)
  end.

(** The category filter: ['top'], ['below'], and any other value for all. *)
Definition category_keeps (filter : string) (s : RankedStudent) : bool :=
  if (filter =? "top")%string then num_ge (average s) (num 75)
  else if (filter =? "below")%string then num_lt (average s) (num 50)
  else true.

Definition byName (host : Host) (a b : RankedStudent) : number :=
  num (localeCompare host (name (student a)) (name (student b))).

Definition byRoll (host : Host) (a b : RankedStudent) : number :=
  num (localeCompare host (rollNo (student a)) (rollNo (student b))).

(** The pipeline keeps exactly the students that the search on the term as
    typed and the category filter both keep. *)
Definition keeps_exactly_untrimmed (host : Host)
    (roster : list Student) (term filter sort : string) : Prop :=
  forall s,
    In s (renderTable_view host roster term filter sort)
    <-> In s (calculateRanks roster)
        /\ search_keeps host term s = true /\ category_keeps filter s = true.

Definition bob : Student := mkStudent 1 "7" "Bob" (marks_of 80 80 80 80 80).

(** A collation that orders strings as a total preorder. *)
Definition consistent_collation (host : Host) : Prop :=
  (forall a b, 0 < localeCompare host a b -> localeCompare host b a <= 0)
  /\ (forall a b c,
        localeCompare host a b <= 0 -> localeCompare host b c <= 0 ->
        localeCompare host a c <= 0).

(** ** Selection state *)

Definition ids (l : list Student) : list Z := map id l.

(** [i] is the id of a student of the roster. *)
Definition present (st : State) (i : Z) : Prop := In i (ids (students st)).

(** What every handler re-establishes before it calls [updateAllVisuals]:
    ids are positive and distinct, at most two students are selected, and
    they are students of the roster. *)
Record roster_ok (st : State) : Prop := {
  ids_positive : Forall (fun i => 0 < i) (ids (students st));
  ids_nodup : NoDup (ids (students st));
  selection_small : (List.length (selectedStudents st) <= 2)%nat;
  selection_present : incl (selectedStudents st) (ids (students st));
  focus_truthy : selectedStudentForRadar st <> Some 0
}.

(** What holds between two events: the roster and the selection are in
    order, the focused student exists, and the table shows students of the
    roster, each once, with the checkbox of a row telling whether its
    student is selected. *)
Record consistent (st : State) : Prop := {
  roster_in_order : roster_ok st;
  focus_present : forall i, selectedStudentForRadar st = Some i -> present st i;
  rows_present : incl (map row_id (tableBody st)) (ids (students st));
  rows_nodup : NoDup (map row_id (tableBody st));
  rows_checked :
    forall r, In r (tableBody st) ->
      checked r = Array_includes (selectedStudents st) (row_id r)
}.

(** [st'] differs from [st] at most in what is displayed beside the table. *)
Definition only_display_changed (st st' : State) : Prop :=
  students st' = students st
  /\ selectedStudents st' = selectedStudents st
  /\ selectedStudentForRadar st' = selectedStudentForRadar st
  /\ tableBody st' = tableBody st.


(** The page before the script runs, for the examples. *)
Definition blank_page : State :=
  mkState [] [] None "" "all" "rank" [] defaultPlaceholder EmptyRadar false None [].

(** The dashboard after load, and after the first two rows were checked. *)
Definition loaded : State := init asciiHost blank_page.

Definition two_checked : State :=
  dispatch asciiHost
    (dispatch asciiHost loaded (CheckboxClicked 0%nat))
    (CheckboxClicked 1%nat).

(** One box checked (Ananya Singh) while another row (Rohan Kumar) has been
    clicked. *)
Definition one_checked_one_focused : State :=
  dispatch asciiHost
    (dispatch asciiHost loaded (RowClicked 2%nat))
    (CheckboxClicked 0%nat).

(** ** Adding and editing *)

(** Some student of the roster has the roll number [r], compared as exact
    strings. *)
Definition duplicate_rollNo (st : State) (r : string) : Prop :=
  exists s, In s (students st) /\ rollNo s = r.

(** [m] is the greatest element of [l]. *)
Definition is_max (m : Z) (l : list Z) : Prop :=
  In m l /\ Forall (fun i => i <= m) l.

(** The id given to the next student: 1 on an empty roster, else the
    greatest id plus 1. *)
Definition next_id (l : list Student) : Z :=
  match l with
  | [] => 1
  | _ => Math_max (ids l) + 1
  end.

Definition duplicateMessage : string := "Roll Number already exists!".

Definition oddForm : AddForm := mkAddForm " Zed " "900" "150" "-7" "abc" "" "50".


(** ** Comparison chart *)

(** The winner of a subject: the student with the strictly higher mark, if
    there is one. *)
Definition subject_winner (student1 student2 : Student) (subject : Subject)
    : option Student :=
  if num_gt (get_mark (marks student1) subject) (get_mark (marks student2) subject)
  then Some student1
  else if num_gt (get_mark (marks student2) subject) (get_mark (marks student1) subject)
       then Some student2
       else None.

(** The markers and the legend entry that one round of the loop adds. *)
Definition subject_markers (student1 student2 : Student) (subject : Subject)
    : list (Subject * Z) :=
  fst (compareSubject student1 student2 ([], []) subject).

Definition subject_legend (student1 student2 : Student) (subject : Subject)
    : list (string * string) :=
  snd (compareSubject student1 student2 ([], []) subject).

(** Ananya Singh and Aarav Sharma checked, with Aarav's computer mark
    raised to Ananya's 98. *)
Definition tied_on_computer : State :=
  dispatch asciiHost two_checked (MarkCellBlur 1%nat computer "98").

(** ** White space at the start of a text *)

(** The text starts with a white space character. *)
Definition startsWhite (s : string) : bool :=
  match s with
  | EmptyString => false
  | String c r =>
      whiteSpace1 c
      || match r with
         | EmptyString => false
         | String c1 r1 =>
             whiteSpace2 c c1
             || match r1 with
                | EmptyString => false
                | String c2 _ => whiteSpace3 c c1 c2
                end
         end
  end.

(** The text without the white space character it starts with. *)
Definition dropWhite (s : string) : string :=
  match s with
  | EmptyString => s
  | String c r =>
      if whiteSpace1 c then r
      else
        match r with
        | EmptyString => s
        | String c1 r1 =>
            if whiteSpace2 c c1 then r1
            else
              match r1 with
              | EmptyString => s
              | String c2 r2 => if whiteSpace3 c c1 c2 then r2 else s
              end
        end
  end.

(** A byte that can start a white space character. *)
Definition whiteLead (c : ascii) : bool :=
  let n := nat_of_ascii c in
  (whiteSpace1 c || Nat.eqb n 194 || Nat.eqb n 225 || Nat.eqb n 226
   || Nat.eqb n 227 || Nat.eqb n 239)%bool.

(** What follows a text once its end is trimmed: nothing, or white space,
    which starts with a byte that is no digit, no sign and no letter. *)
Definition white_tail (w : string) : Prop :=
  w = EmptyString \/ exists b w', w = String b w' /\ whiteLead b = true.

(** U+00A0, the no-break space, in UTF-8. *)
Definition no_break_space : string :=
  String (ascii_of_nat 194) (String (ascii_of_nat 160) EmptyString).

(** ** Text of a mark *)

Definition is_digit (c : ascii) : bool :=
  let n := nat_of_ascii c in (Nat.leb 48 n && Nat.leb n 57)%bool.

Fixpoint all_digits (s : string) : bool :=
  match s with
  | EmptyString => true
  | String c r => is_digit c && all_digits r
  end.

(** A valid integer: decimal digits, at least one, after an optional sign,
    with white space allowed around the whole. *)
Definition spec_valid_integer (raw : string) : bool :=
  match trim raw with
  | EmptyString => false
  | String c r =>
      if ((c =? "+")%char || (c =? "-")%char)%bool
      then truthy_string r && all_digits r
      else all_digits (String c r)
  end.

Fixpoint decimal_value (s : string) (acc : Z) : Z :=
  match s with
  | EmptyString => acc
  | String c r => decimal_value r (acc * 10 + (Z.of_nat (nat_of_ascii c) - 48))
  end.

(** The integer that a valid integer text denotes. *)
Definition spec_integer_value (raw : string) : Z :=
  match trim raw with
  | String c r =>
      if (c =? "-")%char then - decimal_value r 0
      else if (c =? "+")%char then decimal_value r 0
      else decimal_value (String c r) 0
  | EmptyString => 0
  end.

(** *** The reading of a mark text

    The white space at the start of the text is skipped and one sign is
    taken if there is one; the digits that follow, up to the first
    character that is no digit, are read as a number (hexadecimal after
    [0x] or [0X], decimal otherwise), and whatever comes after them is
    ignored.  A text with no digit in that place has no reading. *)

(** The values of the digits in the longest run of digits at the start. *)
Fixpoint digit_run (radix : Z) (s : string) : list Z :=
  match s with
  | EmptyString => []
  | String c r =>
      match digit_value radix c with
      | Some d => d :: digit_run radix r
      | None => []
      end
  end.

(** The number that digits write, the most significant first. *)
Fixpoint positional (radix : Z) (digits : list Z) : Z :=
  match digits with
  | [] => 0
  | d :: r => d * radix ^ Z.of_nat (List.length r) + positional radix r
  end.

Definition leading_integer (raw : string) : option Z :=
  let (sign, unsigned) := strip_sign (trimStart raw) in
  let (radix, body) := strip_hex_prefix unsigned in
  match digit_run radix body with
  | [] => None
  | digits => Some (sign * positional radix digits)
  end.

(** The edit is refused: the state is as before and the cell shows a mark
    of the roster again. *)
Definition rejects_edit (host : Host) (st : State)
    (i : Z) (subject : Subject) (raw : string) : Prop :=
  exists v, handleMarkEdit host st i subject raw = Reverted st v.


(** ** The average on binary64 numbers

    [calculateAverage] evaluated with IEEE doubles on the sum of five
    integer marks, for comparison with the exact model. *)

Definition float_of_Z (z : Z) : float := PrimFloat.of_uint63 (Uint63.of_Z z).

(** The rational that a finite double denotes. *)
Definition float_value (f : float) : option Q :=
  match Prim2SF f with
  | S754_zero _ => Some 0%Q
  | S754_finite s m e =>
      let v := if 0 <=? e then inject_Z (Z.pos m * 2 ^ e)
               else Qmake (Z.pos m) (Pos.pow 2 (Z.to_pos (- e))) in
      Some (if s then Qopp v else v)
  | _ => None
  end.

(** [Math.round((sum / 5) * 10)] with every operation rounded to binary64. *)
Definition rounded_tenths_binary64 (sum : Z) : option Z :=
  match
    float_value
      (PrimFloat.mul (PrimFloat.div (float_of_Z sum) (float_of_Z 5)) (float_of_Z 10))
  with
  | Some q => Some (Qfloor (q + (1 # 2)))
  | None => None
  end.

(** The double [k / 10]. *)
Definition tenths_binary64 (k : Z) : float :=
  PrimFloat.div (float_of_Z k) (float_of_Z 10).

(** * Further vocabulary *)

(** The two averages are the same value: the comparator of the ranking sort
    returns zero on them. *)
Definition same_average (v a : number) : bool :=
  match v, a with
  | NaN, NaN => true
  | Fin x, Fin y => Qeq_bool x y
  | _, _ => false
  end.

(** The smallest and the greatest of five marks. *)
Definition min5 (a b c d e : Z) : Z := Z.min a (Z.min b (Z.min c (Z.min d e))).
Definition max5 (a b c d e : Z) : Z := Z.max a (Z.max b (Z.max c (Z.max d e))).

(** A student with one mark that is not a number. *)
Definition absentee : Student :=
  mkStudent 7 "107" "Meera Nair" (mkMarks (num 80) (num 90) NaN (num 85) (num 95)).

(** The subjects of [m] whose mark satisfies [test], as labels in subject
    order. *)
Definition labels_where (test : number -> bool) (m : Marks) : list string :=
  map SUBJECT_LABELS (filter (fun subject => test (get_mark m subject)) SUBJECTS).

Definition all_labels : list string := map SUBJECT_LABELS SUBJECTS.

(** * Further embedding: CSV export

    The [headers] and [rows] arrays that [exportToCSV] builds from the
    whole ranked roster; joining them into text and handing the text to the
    browser is left out.  A field is a number or a string, as in the
    arrays. *)

Inductive CsvField : Type :=
| NumberField (n : number)
| TextField (s : string).

Definition exportToCSV_headers : list string :=
  ["Rank"; "Roll No"; "Name"] ++ map SUBJECT_LABELS SUBJECTS ++ ["Average"; "Grade"].

Definition exportToCSV_rows (students : list Student) : list (list CsvField) :=
  map (fun s =>
         [NumberField (num (rank s)); TextField (rollNo (student s));
          TextField (name (student s))]
         ++ map (fun sub => NumberField (get_mark (marks (student s)) sub)) SUBJECTS
         ++ [NumberField (average s); TextField (getGrade (average s))])
      (calculateRanks students).

(** * Further vocabulary: the state machine *)

(** Every row of the table is an entry of the ranking of the roster as it
    is now: it carries the current marks, average and rank. *)
Definition rows_current (st : State) : Prop :=
  incl (map row_student (tableBody st)) (calculateRanks (students st)).

(** * Further embedding: the bars of the comparison chart

    The rectangles that [drawComparisonChart] fills, one per subject and
    student, for a canvas of the given width and height (the [width] and
    [height] attributes of the canvas are integers). *)

Definition num_neg (a : number) : number :=
  match a with
  | NaN => NaN
  | Fin x => Fin (- x)
  end.

Record Rect : Type := mkRect {
  rectX : number;
  rectY : number;
  rectWidth : number;
  rectHeight : number
}.

Definition padding_top : number := num 30.
Definition padding_right : number := num 30.
Definition padding_bottom : number := num 50.
Definition padding_left : number := num 50.

Definition comparisonBars (width height : Z) (student1 student2 : Student)
    : list (Subject * Z * Rect) :=
  let chartWidth := num_sub (num_sub (num width) padding_left) padding_right in
  let chartHeight := num_sub (num_sub (num height) padding_top) padding_bottom in
  let subjects := SUBJECTS in
  let numBars := num (Z.of_nat (List.length subjects)) in
  let groupWidth := num_div chartWidth numBars in
  let barWidth := num_mul groupWidth (Fin 0.35) in
  let barGap := num_mul groupWidth (Fin 0.1) in
  flat_map
    (fun '(subject, index) =>
       let groupX :=
         num_add (num_add padding_left (num_mul (num index) groupWidth))
           (num_div groupWidth (num 2)) in
       let marks :=
         [get_mark (marks student1) subject; get_mark (marks student2) subject] in
       map (fun '(mark, barIndex) =>
              let barHeight := num_mul (num_div mark (num 100)) chartHeight in
              let barX :=
                num_add groupX
                  (if barIndex =? 0
                   then num_sub (num_neg barWidth) (num_div barGap (num 2))
                   else num_div barGap (num 2)) in
              let barY := num_sub (num_add padding_top chartHeight) barHeight in
              (subject, barIndex, mkRect barX barY barWidth barHeight))
           (combine marks [0; 1]))
    (combine subjects (map Z.of_nat (seq 0 (List.length subjects)))).

(** All five marks are integers from 0 to 100. *)
Definition marks_in_range (m : Marks) : Prop :=
  forall subject, exists z, get_mark m subject = num z /\ in_range z.

(** The rectangle lies in the plot area of a [width] by [height] canvas,
    stands on its base line, and stays inside the slot of subject number
    [index]: the left half for bar 0, the right half for bar 1. *)
Definition bar_in_slot (width height index barIndex : Z) (r : Rect) : Prop :=
  match rectX r, rectY r, rectWidth r, rectHeight r with
  | Fin x, Fin y, Fin w, Fin h =>
      let W := inject_Z width in
      let H := inject_Z height in
      let slot := ((W - 80) / 5)%Q in
      let centre := (50 + inject_Z index * slot + slot / 2)%Q in
      (0 < w /\ 0 <= h
       /\ 50 + inject_Z index * slot <= x
       /\ x + w <= 50 + (inject_Z index + 1) * slot
       /\ (barIndex = 0%Z -> x + w < centre)
       /\ (barIndex = 1%Z -> centre < x)
       /\ 50 <= x /\ x + w <= W - 30
       /\ 30 <= y /\ y + h == H - 50)%Q
  | _, _, _, _ => False
  end.

(** Position of a subject in [SUBJECTS], the [index] of the [forEach]. *)
Definition subject_index (subject : Subject) : Z :=
  match subject with
  | math => 0 | science => 1 | english => 2 | history => 3 | computer => 4
  end.

(** ** [debounce]

    [debounce(func, wait)] returns [executedFunction], a closure over one
    private variable [timeout].  A call clears the timer held in [timeout]
    and sets a new one of [wait] ms whose callback [later] runs [func] with
    the arguments of that call.  The only timer that can be pending is the
    one in [timeout], so the timer queue of the page is modelled by that one
    slot: the ms left and the arguments [later] captured.  [func] acts on a
    store of its own ([renderTable] on the page). *)

Section Debounce.

Variables Args Store : Type.
Variable func : Args -> Store -> Store.
Variable wait : nat.

Record Timeout : Type := mkTimeout { delay : nat; later : Args }.

Definition Debounced : Type := (option Timeout * Store)%type.

(** [clearTimeout(timeout); timeout = setTimeout(later, wait)] *)
Definition executedFunction (args : Args) (d : Debounced) : Debounced :=
  (Some (mkTimeout wait args), snd d).

(** [ms] milliseconds pass with no call: a pending timer that is due runs
    [later], that is [func(...args)], and is gone; one that is not due has
    [ms] less to wait. *)
Definition elapse (ms : nat) (d : Debounced) : Debounced :=
  match fst d with
  | Some t =>
      if (delay t <=? ms)%nat
      then (None, func (later t) (snd d))
      else (Some (mkTimeout (delay t - ms) (later t)), snd d)
  | None => d
  end.

Inductive Tick : Type :=
| Call (args : Args)
| Wait (ms : nat).

Definition tick (d : Debounced) (t : Tick) : Debounced :=
  match t with
  | Call args => executedFunction args d
  | Wait ms => elapse ms d
  end.

Definition run (ticks : list Tick) (d : Debounced) : Debounced :=
  fold_left tick ticks d.

(** A burst: each call is followed by a pause. *)
Definition burst_ticks (burst : list (Args * nat)) : list Tick :=
  flat_map (fun call => [Call (fst call); Wait (snd call)]) burst.

End Debounce.

Arguments mkTimeout {Args} _ _.
Arguments Call {Args} _.
Arguments Wait {Args} _.
Arguments executedFunction {Args Store} _ _ _.
Arguments elapse {Args Store} _ _ _.
Arguments tick {Args Store} _ _ _ _.
Arguments run {Args Store} _ _ _ _.
Arguments burst_ticks {Args} _.

(** * Properties *)

(** ** Numbers *)

Lemma num_lt_Fin (x y : Q) : num_lt (Fin x) (Fin y) = true <-> (x < y)%Q.
Proof.
  unfold num_lt. rewrite Qlt_alt.
  destruct (x ?= y)%Q; split; intros H; congruence.
Qed.

Lemma num_ge_Fin (x y : Q) : num_ge (Fin x) (Fin y) = true <-> (y <= x)%Q.
Proof.
  unfold num_ge. rewrite Qle_alt, <- Qgt_alt, Qlt_alt.
  destruct (x ?= y)%Q; split; intros H; congruence.
Qed.

Lemma num_gt_Fin (x y : Q) : num_gt (Fin x) (Fin y) = true <-> (y < x)%Q.
Proof. unfold num_gt. apply num_lt_Fin. Qed.


(** ** Sorting *)

Section ArraySortFacts.
Context {A : Type} (compareFn : A -> A -> number).

Lemma sort_insert_perm (a : A) (l : list A) :
  Permutation (sort_insert compareFn a l) (a :: l).
Proof.
  induction l as [|b r IH]; simpl.
  - apply Permutation_refl.
  - destruct (sorts_after compareFn a b).
    + eapply perm_trans; [apply perm_skip, IH | apply perm_swap].
    + apply Permutation_refl.
Qed.

Lemma Array_sort_perm (l : list A) : Permutation (Array_sort compareFn l) l.
Proof.
  induction l as [|a r IH]; simpl.
  - apply perm_nil.
  - eapply perm_trans; [apply sort_insert_perm | apply perm_skip, IH].
Qed.

(** With an order [le] that the comparator decides on the elements
    satisfying [P], the result is sorted. *)
Variable P : A -> Prop.
Variable le : A -> A -> Prop.
Hypothesis le_trans : forall a b c, le a b -> le b c -> le a c.
Hypothesis after_le :
  forall a b, P a -> P b -> sorts_after compareFn a b = true -> le b a.
Hypothesis keep_le :
  forall a b, P a -> P b -> sorts_after compareFn a b = false -> le a b.

Lemma sort_insert_sorted (a : A) (l : list A) :
  P a -> Forall P l ->
  StronglySorted le l -> StronglySorted le (sort_insert compareFn a l).
Proof.
  intros Pa Pl. induction 1 as [|b r Hr IH Hb]; simpl.
  - constructor; constructor.
  - inversion Pl as [|? ? Pb Pr]; subst.
    destruct (sorts_after compareFn a b) eqn:E.
    + constructor; [exact (IH Pr)|].
      eapply Permutation_Forall.
      * apply Permutation_sym, sort_insert_perm.
      * constructor; [apply after_le; assumption | exact Hb].
    + apply keep_le in E; [|assumption..].
      constructor; [constructor; assumption|].
      constructor; [exact E|].
      eapply Forall_impl; [|exact Hb]. intros c Hc. eapply le_trans; eauto.
Qed.

Lemma Array_sort_sorted (l : list A) :
  Forall P l -> StronglySorted le (Array_sort compareFn l).
Proof.
  induction 1 as [|a r Pa Pr IH]; simpl.
  - constructor.
  - apply sort_insert_sorted; [exact Pa| |exact IH].
    eapply Permutation_Forall; [apply Permutation_sym, Array_sort_perm | exact Pr].
Qed.

End ArraySortFacts.



(** ** Ranking *)






Lemma num_ge_trans a b c :
  num_ge a b = true -> num_ge b c = true -> num_ge a c = true.
Proof.
  destruct a as [|x], b as [|y], c as [|z]; try (intros; discriminate).
  rewrite !num_ge_Fin. intros H1 H2. eapply Qle_trans; eauto.
Qed.

Lemma desc_trans a b c : desc a b -> desc b c -> desc a c.
Proof. apply num_ge_trans. Qed.

Lemma sorts_after_byAverageDesc x y s t :
  sorts_after byAverageDesc (s, Fin x) (t, Fin y) = true <-> (x < y)%Q.
Proof.
  unfold sorts_after, byAverageDesc, num. cbn [snd num_sub]. rewrite num_gt_Fin.
  unfold inject_Z. split; intros H; lra.
Qed.

Lemma byAverageDesc_after a b :
  finite_avg a -> finite_avg b ->
  sorts_after byAverageDesc a b = true -> desc b a.
Proof.
  unfold desc, finite_avg, finite.
  destruct a as [? [|x]], b as [? [|y]]; try (intros; discriminate).
  intros _ _ H. apply sorts_after_byAverageDesc in H. apply num_ge_Fin.
  now apply Qlt_le_weak.
Qed.

Lemma byAverageDesc_keep a b :
  finite_avg a -> finite_avg b ->
  sorts_after byAverageDesc a b = false -> desc a b.
Proof.
  unfold desc, finite_avg, finite.
  destruct a as [? [|x]], b as [? [|y]]; try (intros; discriminate).
  intros _ _ H. apply num_ge_Fin. apply Qnot_lt_le. intros C.
  apply sorts_after_byAverageDesc with (s := s) (t := s0) in C. congruence.
Qed.

Lemma sorted_byAverageDesc (l : list (Student * number)) :
  Forall finite_avg l -> StronglySorted desc (Array_sort byAverageDesc l).
Proof.
  apply Array_sort_sorted.
  - exact desc_trans.
  - exact byAverageDesc_after.
  - exact byAverageDesc_keep.
Qed.


Lemma assignRanks_entries (l : list (Student * number)) i prev currentRank :
  map (fun x => (student x, average x)) (assignRanks i prev currentRank l) = l.
Proof.
  revert i prev currentRank.
  induction l as [|[s avg] rest IH]; intros; cbn [assignRanks map]; [reflexivity|].
  cbn [student average]. now rewrite IH.
Qed.

Lemma sorted_map {A B : Type} (f : A -> B) (R : B -> B -> Prop) (l : list A) :
  StronglySorted R (map f l) -> StronglySorted (fun a b => R (f a) (f b)) l.
Proof.
  induction l as [|a l IH]; cbn [map]; intros H; [constructor|].
  apply StronglySorted_inv in H. destruct H as [H Ha].
  constructor; [exact (IH H)|].
  rewrite Forall_map in Ha. exact Ha.
Qed.


Lemma calculateAverage_Fin (a b c d e : Q) :
  calculateAverage (mkMarks (Fin a) (Fin b) (Fin c) (Fin d) (Fin e))
  = Fin (inject_Z (Qfloor ((0 + a + b + c + d + e) / 5 * 10 + (1 # 2))) / 10).
Proof. reflexivity. Qed.

Lemma calculateAverage_finite (m : Marks) :
  numeric_marks m -> finite (calculateAverage m).
Proof.
  destruct m as [a b c d e]. unfold numeric_marks, Object_values. cbn.
  intros H. repeat (apply Forall_cons_iff in H; destruct H as [? H]).
  destruct a, b, c, d, e; try discriminate.
  rewrite calculateAverage_Fin. reflexivity.
Qed.

(** C1, amended.  On a roster whose marks are all numbers,
    [calculateRanks] returns the students with their averages, ordered by
    average descending, and gives every student the rank 1 + the number of
    students with a strictly higher average; students with equal averages
    therefore share a rank, and averages 70.0, 70.0 and 60.0 are ranked 1,
    1 and 3. *)






(** ** Average *)

Lemma sum_inject (a b c d e : Z) :
  (0 + inject_Z a + inject_Z b + inject_Z c + inject_Z d + inject_Z e
   == inject_Z (a + b + c + d + e))%Q.
Proof. rewrite !inject_Z_plus. ring. Qed.

Lemma Qfloor_half (z : Z) : Qfloor (inject_Z z + (1 # 2)) = z.
Proof.
  unfold Qfloor, inject_Z, Qplus. cbn [Qnum Qden].
  change (Z.pos (1 * 2)) with 2. rewrite Z.mul_1_l.
  rewrite Z.add_comm, Z.div_add by lia. reflexivity.
Qed.

(** The mean of five integers has one decimal at most: the rounding of
    [calculateAverage] returns it unchanged. *)
Lemma calculateAverage_exact_mean (a b c d e : Z) :
  num_eq (calculateAverage (marks_of a b c d e)) (Fin (spec_mean a b c d e)).
Proof.
  unfold marks_of, num. rewrite calculateAverage_Fin. unfold num_eq, spec_mean.
  rewrite sum_inject.
  set (s := a + b + c + d + e).
  assert (E : (inject_Z s / 5 * 10 + (1 # 2) == inject_Z (2 * s) + (1 # 2))%Q).
  { rewrite inject_Z_mult. field. }
  rewrite (Qfloor_comp _ _ E), Qfloor_half, inject_Z_mult. field.
Qed.

(** C8.  For integer marks between 0 and 100 the value of
    [calculateAverage] is the arithmetic mean of the five marks rounded to
    one decimal place, halves away from zero; five marks of 90 average to
    90.0, and 95, 92, 88, 90, 98 to 92.6. *)
Theorem calculateAverage_rounded_mean (a b c d e : Z) :
  in_range a -> in_range b -> in_range c -> in_range d -> in_range e ->
  num_eq (calculateAverage (marks_of a b c d e))
         (Fin (spec_round_tenths (spec_mean a b c d e)))
  /\ num_eq (calculateAverage (marks_of 90 90 90 90 90)) (Fin 90.0)
  /\ num_eq (calculateAverage (marks_of 95 92 88 90 98)) (Fin 92.6).
Proof.
  unfold in_range. intros Ha Hb Hc Hd He. split; [|split; reflexivity].
  unfold marks_of, num. rewrite calculateAverage_Fin.
  unfold num_eq, spec_round_tenths, spec_mean.
  assert (Hpos : Qle_bool 0 (inject_Z (a + b + c + d + e) / 5) = true).
  { apply Qle_bool_iff. apply Qle_shift_div_l; [reflexivity|].
    rewrite Qmult_0_l. change 0%Q with (inject_Z 0). rewrite <- Zle_Qle. lia. }
  rewrite Hpos.
  assert (E : ((0 + inject_Z a + inject_Z b + inject_Z c + inject_Z d + inject_Z e)
               / 5 * 10 + (1 # 2)
               == inject_Z (a + b + c + d + e) / 5 * 10 + (1 # 2))%Q).
  { rewrite sum_inject. reflexivity. }
  rewrite (Qfloor_comp _ _ E). reflexivity.
Qed.

Lemma calculateAverage_rounded_mean_witness :
  (in_range 95 /\ in_range 92 /\ in_range 88 /\ in_range 90 /\ in_range 98)
  /\ num_eq (calculateAverage (marks_of 95 92 88 90 98))
            (Fin (spec_round_tenths (spec_mean 95 92 88 90 98))).
Proof.
  assert (H95 : in_range 95) by (unfold in_range; lia).
  assert (H92 : in_range 92) by (unfold in_range; lia).
  assert (H88 : in_range 88) by (unfold in_range; lia).
  assert (H90 : in_range 90) by (unfold in_range; lia).
  assert (H98 : in_range 98) by (unfold in_range; lia).
  split; [exact (conj H95 (conj H92 (conj H88 (conj H90 H98))))|].
  exact (proj1 (calculateAverage_rounded_mean 95 92 88 90 98 H95 H92 H88 H90 H98)).
Defined.

(** ** White space *)

Lemma string_length_ind (P : string -> Prop) :
  (forall s, (forall t, (String.length t < String.length s)%nat -> P t) -> P s) ->
  forall s, P s.
Proof.
  intros H s. remember (String.length s) as n eqn:E. revert s E.
  induction n as [n IH] using lt_wf_ind. intros s ->.
  apply H. intros t Ht. exact (IH _ Ht t eq_refl).
Qed.

Ltac split_bools :=
  repeat match goal with
    | H : (_ || _)%bool = true |- _ => apply orb_true_iff in H; destruct H as [H | H]
    | H : (_ && _)%bool = true |- _ => apply andb_true_iff in H; destruct H
    end.

Lemma trimStart_step (s : string) :
  trimStart s = if startsWhite s then trimStart (dropWhite s) else s.
Proof.
  destruct s as [|c [|c1 [|c2 r2]]]; cbn [trimStart startsWhite dropWhite];
    try reflexivity;
    destruct (whiteSpace1 c); cbn [orb]; try reflexivity;
    destruct (whiteSpace2 c c1); cbn [orb]; try reflexivity.
  destruct (whiteSpace3 c c1 c2); reflexivity.
Qed.

Lemma allWhiteSpace_step (s : string) :
  allWhiteSpace s
  = match s with
    | EmptyString => true
    | _ => startsWhite s && allWhiteSpace (dropWhite s)
    end.
Proof.
  destruct s as [|c [|c1 [|c2 r2]]]; cbn [allWhiteSpace startsWhite dropWhite];
    try reflexivity;
    destruct (whiteSpace1 c); cbn [orb andb]; try reflexivity;
    destruct (whiteSpace2 c c1); cbn [orb andb]; try reflexivity.
  destruct (whiteSpace3 c c1 c2); reflexivity.
Qed.

Lemma dropWhite_suffix (s : string) :
  startsWhite s = true ->
  exists p, s = (p ++ dropWhite s)%string
            /\ (String.length (dropWhite s) < String.length s)%nat.
Proof.
  destruct s as [|c [|c1 [|c2 r2]]]; cbn [startsWhite dropWhite]; try discriminate;
    destruct (whiteSpace1 c); cbn [orb];
    try (intros _; exists (String c EmptyString); split; [reflexivity|cbn; lia]);
    try discriminate;
    destruct (whiteSpace2 c c1); cbn [orb];
    try (intros _; exists (String c (String c1 EmptyString));
         split; [reflexivity|cbn; lia]);
    try discriminate.
  destruct (whiteSpace3 c c1 c2); [|discriminate].
  intros _. exists (String c (String c1 (String c2 EmptyString))).
  split; [reflexivity|cbn; lia].
Qed.

Lemma trimStart_fixed (s : string) : startsWhite s = false -> trimStart s = s.
Proof. intros H. now rewrite trimStart_step, H. Qed.

Lemma trimStart_not_white (s : string) : startsWhite (trimStart s) = false.
Proof.
  induction s as [s IH] using string_length_ind.
  rewrite trimStart_step. destruct (startsWhite s) eqn:E; [|exact E].
  destruct (dropWhite_suffix s E) as (_ & _ & Hlen). now apply IH.
Qed.

Lemma trimStart_idem (s : string) : trimStart (trimStart s) = trimStart s.
Proof. apply trimStart_fixed, trimStart_not_white. Qed.

Lemma trimEnd_split (s : string) :
  exists w, s = (trimEnd s ++ w)%string /\ allWhiteSpace w = true.
Proof.
  induction s as [|c r IH]; [now exists EmptyString|].
  cbn [trimEnd]. destruct (allWhiteSpace (String c r)) eqn:E.
  - now exists (String c r).
  - destruct IH as (w & Hw & Hall). exists w. split; [|exact Hall].
    cbn [append]. now rewrite <- Hw.
Qed.

Lemma prefix_cons (c : ascii) (s t : string) :
  String.prefix (String c s) (String c t) = String.prefix s t.
Proof. cbn [String.prefix]. now destruct (ascii_dec c c). Qed.

Lemma prefix_empty (s : string) : String.prefix EmptyString s = true.
Proof. now destruct s. Qed.

Lemma trimEnd_prefix (u : string) : String.prefix (trimEnd u) u = true.
Proof.
  induction u as [|c r IH]; [reflexivity|]. cbn [trimEnd].
  destruct (allWhiteSpace (String c r)); [reflexivity|]. now rewrite prefix_cons.
Qed.

Lemma includes_prefix (s t : string) : String.prefix t s = true -> includes s t = true.
Proof. intros H. destruct s; cbn [includes]; now rewrite H. Qed.

Lemma includes_app_left (p s t : string) :
  includes s t = true -> includes (p ++ s) t = true.
Proof.
  intros H. induction p as [|c p IH]; [exact H|].
  cbn [append includes]. rewrite IH. now destruct (String.prefix _ _).
Qed.

(** The trimmed text occurs in the text. *)
Lemma includes_trim (s : string) : includes s (trim s) = true.
Proof.
  unfold trim. induction s as [s IH] using string_length_ind.
  rewrite trimStart_step. destruct (startsWhite s) eqn:E.
  - destruct (dropWhite_suffix s E) as (p & Hp & Hlen).
    rewrite Hp at 1. apply includes_app_left, IH, Hlen.
  - apply includes_prefix, trimEnd_prefix.
Qed.

Lemma startsWhite_app (p w : string) :
  startsWhite p = true -> startsWhite (p ++ w) = true.
Proof.
  destruct p as [|c [|c1 [|c2 r2]]]; cbn [startsWhite append]; try discriminate.
  - rewrite orb_false_r. intros ->. reflexivity.
  - rewrite orb_false_r. intros H. apply orb_true_iff in H.
    destruct H as [-> | H]; [reflexivity|]. rewrite H.
    destruct w; cbn [orb]; now rewrite orb_true_r.
  - auto.
Qed.

Lemma whiteSpace1_lead (c : ascii) : whiteSpace1 c = true -> whiteLead c = true.
Proof. unfold whiteLead. now intros ->. Qed.

Lemma whiteSpace2_lead (c c1 : ascii) : whiteSpace2 c c1 = true -> whiteLead c = true.
Proof.
  unfold whiteSpace2, whiteLead. intros H. split_bools.
  rewrite H. now rewrite !orb_true_r.
Qed.

Lemma whiteSpace3_lead (c c1 c2 : ascii) :
  whiteSpace3 c c1 c2 = true -> whiteLead c = true.
Proof.
  unfold whiteSpace3, whiteLead. cbv zeta. intros H. split_bools;
    match goal with
    | E : Nat.eqb (nat_of_ascii c) _ = true |- _ => rewrite E
    end; now rewrite ?orb_true_r.
Qed.

Lemma startsWhite_lead (c : ascii) (r : string) :
  startsWhite (String c r) = true -> whiteLead c = true.
Proof.
  cbn [startsWhite]. intros H. apply orb_true_iff in H.
  destruct H as [H | H]; [now apply whiteSpace1_lead|].
  destruct r as [|c1 r1]; [discriminate|]. apply orb_true_iff in H.
  destruct H as [H | H]; [now apply whiteSpace2_lead in H|].
  destruct r1 as [|c2 r2]; [discriminate|]. now apply whiteSpace3_lead in H.
Qed.

Lemma allWhiteSpace_tail (w : string) : allWhiteSpace w = true -> white_tail w.
Proof.
  intros H. destruct w as [|b w']; [now left|]. right. exists b, w'.
  split; [reflexivity|]. rewrite allWhiteSpace_step in H.
  apply andb_true_iff in H. now apply startsWhite_lead with (r := w').
Qed.

Lemma allWhiteSpace_starts (w : string) :
  allWhiteSpace w = true -> w <> EmptyString -> startsWhite w = true.
Proof.
  intros H Hne. rewrite allWhiteSpace_step in H.
  destruct w; [contradiction|]. now apply andb_true_iff in H.
Qed.

Lemma whiteLead_no_digit (radix : Z) (b : ascii) :
  whiteLead b = true -> digit_value radix b = None.
Proof.
  destruct b as [[] [] [] [] [] [] [] []]; intros H; try discriminate H; reflexivity.
Qed.

Lemma whiteLead_no_sign (b : ascii) (r : string) :
  whiteLead b = true -> strip_sign (String b r) = (1, String b r).
Proof.
  destruct b as [[] [] [] [] [] [] [] []]; intros H; try discriminate H; reflexivity.
Qed.

Lemma whiteLead_no_hex (b : ascii) (r : string) :
  whiteLead b = true ->
  strip_hex_prefix (String b r) = (10, String b r)
  /\ strip_hex_prefix (String "0" (String b r)) = (10, String "0" (String b r)).
Proof.
  destruct b as [[] [] [] [] [] [] [] []]; intros H; try discriminate H;
    split; reflexivity.
Qed.

Lemma append_empty_r (s : string) : (s ++ "")%string = s.
Proof. induction s as [|c r IH]; [reflexivity|]. cbn [append]. now rewrite IH. Qed.

Lemma parse_digits_app (radix : Z) (q w : string) (acc : option Z) :
  white_tail w -> parse_digits radix (q ++ w) acc = parse_digits radix q acc.
Proof.
  intros [-> | (b & w' & -> & Hb)]; [now rewrite append_empty_r|].
  revert acc. induction q as [|c r IH]; intros acc; cbn [append parse_digits].
  - now rewrite (whiteLead_no_digit radix b Hb).
  - destruct (digit_value radix c); [apply IH|reflexivity].
Qed.

Lemma strip_hex_prefix_app (q w : string) :
  white_tail w ->
  strip_hex_prefix (q ++ w)
  = (fst (strip_hex_prefix q), (snd (strip_hex_prefix q) ++ w)%string).
Proof.
  intros [-> | (b & w' & -> & Hb)].
  { rewrite !append_empty_r. now destruct (strip_hex_prefix q). }
  destruct q as [|c [|c1 r]].
  - cbn [append]. now rewrite (proj1 (whiteLead_no_hex b w' Hb)).
  - cbn [append].
    destruct (ascii_dec c "0") as [-> | Hc].
    + now rewrite (proj2 (whiteLead_no_hex b w' Hb)).
    + destruct c as [[] [] [] [] [] [] [] []]; try reflexivity. now contradiction Hc.
  - cbn [append].
    destruct c as [[] [] [] [] [] [] [] []]; try reflexivity;
      destruct c1 as [[] [] [] [] [] [] [] []]; reflexivity.
Qed.

Lemma strip_sign_app (q w : string) :
  white_tail w ->
  strip_sign (q ++ w) = (fst (strip_sign q), (snd (strip_sign q) ++ w)%string).
Proof.
  intros Hw. destruct q as [|c r].
  - cbn [append fst snd strip_sign].
    destruct Hw as [-> | (b & w' & -> & Hb)]; [reflexivity|].
    now rewrite (whiteLead_no_sign b w' Hb).
  - cbn [append]. destruct c as [[] [] [] [] [] [] [] []]; reflexivity.
Qed.

Lemma parseInt_trimStart (s : string) : parseInt (trimStart s) = parseInt s.
Proof. unfold parseInt. now rewrite trimStart_idem. Qed.

Lemma parseInt_app_white (p w : string) :
  white_tail w -> startsWhite (p ++ w) = false ->
  parseInt (p ++ w) = parseInt p.
Proof.
  intros Hw Hs.
  assert (Hp : startsWhite p = false).
  { destruct (startsWhite p) eqn:E; [|reflexivity].
    now rewrite (startsWhite_app p w E) in Hs. }
  unfold parseInt. rewrite (trimStart_fixed _ Hs), (trimStart_fixed _ Hp).
  rewrite (strip_sign_app p w Hw).
  destruct (strip_sign p) as [sign s1]. cbn [fst snd].
  rewrite (strip_hex_prefix_app s1 w Hw).
  destruct (strip_hex_prefix s1) as [radix s2]. cbn [fst snd].
  now rewrite (parse_digits_app radix s2 w None Hw).
Qed.

(** Trimming a text before [parseInt] changes nothing: the white space at
    its start is skipped and whatever follows the digits is ignored. *)
Lemma parseInt_trim (s : string) : parseInt (trim s) = parseInt s.
Proof.
  unfold trim. rewrite <- (parseInt_trimStart s).
  destruct (trimEnd_split (trimStart s)) as (w & Hw & Hall).
  rewrite Hw at 2. symmetry. apply parseInt_app_white.
  - now apply allWhiteSpace_tail.
  - rewrite <- Hw. apply trimStart_not_white.
Qed.

(** ** Lower-casing of ASCII text *)

Ltac nat_tests :=
  repeat match goal with
    | E : Nat.eqb _ _ = true |- _ => apply Nat.eqb_eq in E
    | E : Nat.leb _ _ = true |- _ => apply Nat.leb_le in E
    end.

Lemma lower_ascii_high (c : ascii) :
  Nat.leb 128 (nat_of_ascii c) = true
  \/ Nat.leb 128 (nat_of_ascii (lower_ascii c)) = true ->
  lower_ascii c = c.
Proof.
  destruct c as [[] [] [] [] [] [] [] []]; intros [H | H];
    try reflexivity; vm_compute in H; discriminate H.
Qed.

Lemma whiteSpace1_lower (c : ascii) : whiteSpace1 (lower_ascii c) = whiteSpace1 c.
Proof. destruct c as [[] [] [] [] [] [] [] []]; reflexivity. Qed.

Lemma whiteSpace2_high (c c1 : ascii) :
  whiteSpace2 c c1 = true ->
  (128 <= nat_of_ascii c /\ 128 <= nat_of_ascii c1)%nat.
Proof. unfold whiteSpace2. intros H. split_bools. nat_tests. lia. Qed.

Lemma whiteSpace3_high (c c1 c2 : ascii) :
  whiteSpace3 c c1 c2 = true ->
  (128 <= nat_of_ascii c /\ 128 <= nat_of_ascii c1 /\ 128 <= nat_of_ascii c2)%nat.
Proof.
  unfold whiteSpace3. cbv zeta. intros H. split_bools; nat_tests; lia.
Qed.

Lemma lower_ascii_le (c : ascii) :
  (128 <= nat_of_ascii c)%nat \/ (128 <= nat_of_ascii (lower_ascii c))%nat ->
  lower_ascii c = c.
Proof.
  intros H. apply lower_ascii_high.
  destruct H as [H | H]; [left|right]; now apply Nat.leb_le.
Qed.

Lemma whiteSpace2_lower (c c1 : ascii) :
  whiteSpace2 (lower_ascii c) (lower_ascii c1) = whiteSpace2 c c1.
Proof.
  destruct (whiteSpace2 c c1) eqn:E.
  - destruct (whiteSpace2_high _ _ E) as [H H1].
    now rewrite (lower_ascii_le c (or_introl H)), (lower_ascii_le c1 (or_introl H1)).
  - destruct (whiteSpace2 (lower_ascii c) (lower_ascii c1)) eqn:E'; [|reflexivity].
    destruct (whiteSpace2_high _ _ E') as [H H1].
    rewrite (lower_ascii_le c (or_intror H)), (lower_ascii_le c1 (or_intror H1)) in E'.
    congruence.
Qed.

Lemma whiteSpace3_lower (c c1 c2 : ascii) :
  whiteSpace3 (lower_ascii c) (lower_ascii c1) (lower_ascii c2) = whiteSpace3 c c1 c2.
Proof.
  destruct (whiteSpace3 c c1 c2) eqn:E.
  - destruct (whiteSpace3_high _ _ _ E) as (H & H1 & H2).
    now rewrite (lower_ascii_le c (or_introl H)), (lower_ascii_le c1 (or_introl H1)),
      (lower_ascii_le c2 (or_introl H2)).
  - destruct (whiteSpace3 (lower_ascii c) (lower_ascii c1) (lower_ascii c2)) eqn:E';
      [|reflexivity].
    destruct (whiteSpace3_high _ _ _ E') as (H & H1 & H2).
    rewrite (lower_ascii_le c (or_intror H)), (lower_ascii_le c1 (or_intror H1)),
      (lower_ascii_le c2 (or_intror H2)) in E'.
    congruence.
Qed.

Lemma startsWhite_lower (s : string) :
  startsWhite (ascii_toLowerCase s) = startsWhite s.
Proof.
  destruct s as [|c [|c1 [|c2 r2]]]; cbn [ascii_toLowerCase startsWhite];
    rewrite ?whiteSpace1_lower, ?whiteSpace2_lower, ?whiteSpace3_lower; reflexivity.
Qed.

Lemma dropWhite_lower (s : string) :
  dropWhite (ascii_toLowerCase s) = ascii_toLowerCase (dropWhite s).
Proof.
  destruct s as [|c [|c1 [|c2 r2]]]; cbn [ascii_toLowerCase dropWhite];
    rewrite ?whiteSpace1_lower, ?whiteSpace2_lower, ?whiteSpace3_lower;
    try reflexivity;
    destruct (whiteSpace1 c); try reflexivity;
    destruct (whiteSpace2 c c1); try reflexivity.
  destruct (whiteSpace3 c c1 c2); reflexivity.
Qed.

Lemma trimStart_lower (s : string) :
  trimStart (ascii_toLowerCase s) = ascii_toLowerCase (trimStart s).
Proof.
  induction s as [s IH] using string_length_ind.
  rewrite (trimStart_step s), (trimStart_step (ascii_toLowerCase s)).
  rewrite startsWhite_lower, dropWhite_lower.
  destruct (startsWhite s) eqn:E; [|reflexivity].
  destruct (dropWhite_suffix s E) as (_ & _ & Hlen). now apply IH.
Qed.

Lemma allWhiteSpace_lower (s : string) :
  allWhiteSpace (ascii_toLowerCase s) = allWhiteSpace s.
Proof.
  induction s as [s IH] using string_length_ind.
  rewrite (allWhiteSpace_step s), (allWhiteSpace_step (ascii_toLowerCase s)).
  rewrite startsWhite_lower, dropWhite_lower.
  destruct s as [|c r]; [reflexivity|]. cbn [ascii_toLowerCase].
  destruct (startsWhite (String c r)) eqn:E; [|reflexivity]. cbn [andb].
  destruct (dropWhite_suffix _ E) as (_ & _ & Hlen). now apply IH.
Qed.

Lemma trimEnd_lower (s : string) :
  trimEnd (ascii_toLowerCase s) = ascii_toLowerCase (trimEnd s).
Proof.
  induction s as [|c r IH]; [reflexivity|].
  change (ascii_toLowerCase (String c r))
    with (String (lower_ascii c) (ascii_toLowerCase r)).
  cbn [trimEnd].
  change (String (lower_ascii c) (ascii_toLowerCase r))
    with (ascii_toLowerCase (String c r)).
  rewrite allWhiteSpace_lower.
  destruct (allWhiteSpace (String c r)); [reflexivity|].
  cbn [ascii_toLowerCase]. now rewrite IH.
Qed.

(** The host of the examples keeps the white space of a text in place. *)
Lemma asciiHost_keeps_white_space : case_keeps_white_space asciiHost.
Proof.
  split; [reflexivity|].
  intros s. cbn [toLowerCase asciiHost]. unfold trim.
  now rewrite trimStart_lower, trimEnd_lower.
Qed.

(** ** Query pipeline *)

Lemma filter_filter {A : Type} (f g : A -> bool) (l : list A) :
  filter g (filter f l) = filter (fun x => f x && g x) l.
Proof.
  induction l as [|a l IH]; cbn [filter]; [reflexivity|].
  destruct (f a); cbn [filter andb]; [|exact IH].
  destruct (g a); now rewrite IH.
Qed.

Lemma filter_true {A : Type} (l : list A) : filter (fun _ => true) l = l.
Proof. induction l as [|a l IH]; cbn [filter]; [reflexivity|now rewrite IH]. Qed.

(** The list produced by the two filtering steps of [renderTable]. *)
Lemma renderTable_view_filtered (host : Host)
    (roster : list Student) (searchValue filter sort : string) :
  let kept :=
    List.filter
      (fun s => searched host searchValue s && category_keeps filter s)
      (calculateRanks roster) in
  renderTable_view host roster searchValue filter sort
  = if (sort =? "name")%string then Array_sort (byName host) kept
    else if (sort =? "roll")%string then Array_sort (byRoll host) kept
    else kept.
Proof.
  intros kept. unfold renderTable_view.
  set (searchedList :=
         if truthy_string (trim (toLowerCase host searchValue)) then List.filter _ _
         else calculateRanks roster).
  assert (Hs : searchedList
               = List.filter (searched host searchValue) (calculateRanks roster)).
  { subst searchedList. unfold searched.
    destruct (truthy_string (trim (toLowerCase host searchValue)));
      [reflexivity|now rewrite filter_true]. }
  set (categorised :=
         if (filter =? "top")%string then List.filter _ searchedList
         else if (filter =? "below")%string then List.filter _ searchedList
         else searchedList).
  assert (Hc : categorised = kept).
  { subst categorised kept. rewrite Hs.
    rewrite <- (filter_filter (searched host searchValue) (category_keeps filter)).
    unfold category_keeps.
    destruct (filter =? "top")%string; [reflexivity|].
    destruct (filter =? "below")%string; [reflexivity|].
    now rewrite filter_true. }
  rewrite Hc. reflexivity.
Qed.

(** On a host whose lower-casing keeps the white space of a text in place,
    the search step is the case-insensitive search of the trimmed term. *)
Lemma searched_search_keeps (host : Host) (searchValue : string) (s : RankedStudent) :
  case_keeps_white_space host ->
  searched host searchValue s = search_keeps host (trim searchValue) s.
Proof.
  intros [Hempty Hcase]. unfold searched, search_keeps. cbv zeta. rewrite Hcase.
  destruct (trim searchValue) as [|c r].
  - now rewrite Hempty.
  - destruct (toLowerCase host (String c r)) as [|d t] eqn:E; [|reflexivity].
    cbn [truthy_string]. symmetry. apply orb_true_iff. left.
    apply includes_prefix, prefix_empty.
Qed.

(** C2, amended.  The search term is lower-cased and trimmed of surrounding
    white space before it is used.  On a host whose lower-casing changes
    letters only, the pipeline keeps exactly the ranked students matched by
    the case-insensitive substring search of the trimmed term (on name or
    roll number, the empty term matching all) and by the category filter,
    and orders them with the stable sort for the sort key ([name], [roll],
    or the incoming rank order); every row is one of the ranked students
    with its rank field as computed on the whole roster.  [renderTable]
    reads only the roster and the three criteria and leaves the roster as
    it is. *)
Theorem renderTable_pipeline (host : Host)
    (roster : list Student) (searchValue filter sort : string) :
  case_keeps_white_space host ->
  let ranked := calculateRanks roster in
  let kept :=
    List.filter
      (fun s => search_keeps host (trim searchValue) s && category_keeps filter s)
      ranked in
  let view := renderTable_view host roster searchValue filter sort in
  Permutation view kept
  /\ (forall s, In s view
        <-> In s ranked
            /\ search_keeps host (trim searchValue) s = true
            /\ category_keeps filter s = true)
  /\ view = (if (sort =? "name")%string then Array_sort (byName host) kept
             else if (sort =? "roll")%string then Array_sort (byRoll host) kept
             else kept)
  /\ (forall st : State,
        map row_student (tableBody (renderTable host st))
        = renderTable_view host (students st) (searchInput st)
            (filterSelect st) (sortSelect st)
        /\ students (renderTable host st) = students st).
Proof.
  intros Hcase ranked kept view.
  assert (Hkept : kept
                  = List.filter
                      (fun s => searched host searchValue s && category_keeps filter s)
                      ranked).
  { subst kept. apply filter_ext. intros s.
    now rewrite (searched_search_keeps host searchValue s Hcase). }
  assert (Hview : view = (if (sort =? "name")%string
                          then Array_sort (byName host) kept
                          else if (sort =? "roll")%string
                               then Array_sort (byRoll host) kept
                               else kept)).
  { rewrite Hkept. apply renderTable_view_filtered. }
  assert (Hperm : Permutation view kept).
  { rewrite Hview.
    destruct (sort =? "name")%string; [apply Array_sort_perm|].
    destruct (sort =? "roll")%string; [apply Array_sort_perm|].
    apply Permutation_refl. }
  split; [exact Hperm|]. split; [|split; [exact Hview|]].
  - intros s. split.
    + intros Hs. apply (Permutation_in _ Hperm) in Hs.
      apply filter_In in Hs. destruct Hs as [Hin Hk].
      apply andb_true_iff in Hk. tauto.
    + intros (Hin & H1 & H2). apply (Permutation_in _ (Permutation_sym Hperm)).
      apply filter_In. split; [exact Hin|]. now rewrite H1, H2.
  - intros st. split; [|reflexivity].
    unfold renderTable. cbn [tableBody set_tableBody].
    rewrite map_map. cbn [row_student]. apply map_id.
Qed.

Lemma renderTable_pipeline_witness :
  case_keeps_white_space asciiHost
  /\ map (fun x => name (student x))
       (renderTable_view asciiHost studentsData "  SHARMA " "top" "name")
     = ["Aarav Sharma"]
  /\ forall s,
       In s (renderTable_view asciiHost studentsData "  SHARMA " "top" "name")
       <-> In s (calculateRanks studentsData)
           /\ search_keeps asciiHost (trim "  SHARMA ") s = true
           /\ category_keeps "top" s = true.
Proof.
  split; [exact asciiHost_keeps_white_space|]. split; [vm_compute; reflexivity|].
  exact (proj1 (proj2 (renderTable_pipeline asciiHost studentsData "  SHARMA " "top"
                         "name" asciiHost_keeps_white_space))).
Defined.

(** C2 as stated fails: with the term ["bob "] (a trailing space) the
    student Bob is displayed, although ["bob "] occurs neither in his name
    nor in his roll number. *)
Lemma search_term_untrimmed_counterexample :
  ~ keeps_exactly_untrimmed asciiHost [bob] "bob " "all" "rank".
Proof.
  unfold keeps_exactly_untrimmed. intros H.
  destruct (H (mkRanked bob (Fin 80.0) 1)) as [H1 _].
  assert (Hin : In (mkRanked bob (Fin 80.0) 1)
                  (renderTable_view asciiHost [bob] "bob " "all" "rank")).
  { vm_compute. left. reflexivity. }
  destruct (H1 Hin) as (_ & Hsearch & _).
  vm_compute in Hsearch. discriminate.
Qed.

Lemma num_gt_num (x y : Z) : num_gt (num x) (num y) = true <-> y < x.
Proof. unfold num. rewrite num_gt_Fin, <- Zlt_Qlt. reflexivity. Qed.

(** With a collation that is a total preorder, sorting by name leaves the
    rows in ascending order of name. *)
Lemma renderTable_view_sorted_by_name (host : Host)
    (roster : list Student) (searchValue filter : string) :
  consistent_collation host ->
  StronglySorted
    (fun a b => localeCompare host (name (student a)) (name (student b)) <= 0)
    (renderTable_view host roster searchValue filter "name").
Proof.
  intros [Hanti Htrans]. rewrite renderTable_view_filtered. cbn [String.eqb Ascii.eqb].
  change (("name" =? "name")%string) with true. cbv iota.
  apply Array_sort_sorted with (P := fun _ => True).
  - intros a b c. apply Htrans.
  - intros a b _ _ H. unfold sorts_after, byName in H. apply num_gt_num in H.
    now apply Hanti.
  - intros a b _ _ H. unfold sorts_after, byName in H.
    apply not_true_iff_false in H. rewrite num_gt_num in H. lia.
  - apply Forall_forall. intros; exact I.
Qed.

(** ** Roster lookups *)

Lemma find_student_Some l i s : find_student l i = Some s -> In s l /\ id s = i.
Proof.
  unfold find_student. intros H. apply find_some in H. destruct H as [H1 H2].
  split; [exact H1|]. now apply Z.eqb_eq.
Qed.

Lemma find_student_None l i : find_student l i = None -> ~ In i (ids l).
Proof.
  unfold find_student, ids. intros H Hin.
  apply in_map_iff in Hin. destruct Hin as (s & Hs & Hin).
  apply (find_none _ _ H) in Hin. cbn beta in Hin.
  rewrite Hs, Z.eqb_refl in Hin. discriminate.
Qed.

Lemma find_student_present l i :
  In i (ids l) -> exists s, find_student l i = Some s.
Proof.
  intros Hin. destruct (find_student l i) as [s|] eqn:E; [now exists s|].
  exfalso. exact (find_student_None _ _ E Hin).
Qed.

Lemma Array_includes_In l x : Array_includes l x = true <-> In x l.
Proof.
  unfold Array_includes. rewrite existsb_exists. split.
  - intros (y & Hy & E). apply Z.eqb_eq in E. now subst.
  - intros H. exists x. split; [exact H|apply Z.eqb_refl].
Qed.

Lemma Array_includes_not_In l x : Array_includes l x = false <-> ~ In x l.
Proof. rewrite <- Array_includes_In. symmetry. apply not_true_iff_false. Qed.

Lemma calculateRanks_perm (roster : list Student) :
  Permutation (map student (calculateRanks roster)) roster.
Proof.
  unfold calculateRanks.
  set (entries := Array_sort byAverageDesc _).
  replace (map student (assignRanks 0 None 1 entries)) with (map fst entries).
  - eapply perm_trans; [apply Permutation_map, Array_sort_perm|].
    rewrite map_map. cbn [fst]. rewrite map_id. apply Permutation_refl.
  - rewrite <- (assignRanks_entries entries 0 None 1) at 1.
    rewrite map_map. reflexivity.
Qed.

Lemma NoDup_map_filter {A B : Type} (f : A -> B) (g : A -> bool) (l : list A) :
  NoDup (map f l) -> NoDup (map f (filter g l)).
Proof.
  induction l as [|a l IH]; cbn [map filter]; intros H; [constructor|].
  inversion H as [|? ? Hn Hd]; subst.
  destruct (g a); [|exact (IH Hd)].
  cbn [map]. constructor; [|exact (IH Hd)].
  intros Hin. apply Hn. apply in_map_iff in Hin. destruct Hin as (x & Hx & Hin).
  apply filter_In in Hin. apply in_map_iff. exists x. tauto.
Qed.

Section ViewFacts.
Variable host : Host.

Lemma renderTable_view_perm roster searchValue filter sort :
  Permutation (renderTable_view host roster searchValue filter sort)
    (List.filter
       (fun s => searched host searchValue s && category_keeps filter s)
       (calculateRanks roster)).
Proof.
  rewrite renderTable_view_filtered.
  destruct (sort =? "name")%string; [apply Array_sort_perm|].
  destruct (sort =? "roll")%string; [apply Array_sort_perm|].
  apply Permutation_refl.
Qed.

Lemma renderTable_view_ids roster searchValue filter sort :
  incl (map (fun s => id (student s))
          (renderTable_view host roster searchValue filter sort))
       (ids roster).
Proof.
  intros i Hi. apply in_map_iff in Hi. destruct Hi as (s & <- & Hs).
  apply (Permutation_in _ (renderTable_view_perm _ _ _ _)) in Hs.
  apply filter_In in Hs. destruct Hs as [Hs _].
  apply (in_map student) in Hs.
  apply (Permutation_in _ (calculateRanks_perm roster)) in Hs.
  unfold ids. now apply in_map.
Qed.

Lemma renderTable_view_nodup roster searchValue filter sort :
  NoDup (ids roster) ->
  NoDup (map (fun s => id (student s))
           (renderTable_view host roster searchValue filter sort)).
Proof.
  intros Hnd.
  eapply Permutation_NoDup.
  - apply Permutation_map, Permutation_sym, renderTable_view_perm.
  - apply NoDup_map_filter.
    eapply Permutation_NoDup.
    + rewrite <- (map_map student id).
      apply Permutation_map, Permutation_sym, calculateRanks_perm.
    + exact Hnd.
Qed.
End ViewFacts.

(** ** Handlers that only repaint *)

Lemma display_refl st : only_display_changed st st.
Proof. repeat split. Qed.

Lemma display_trans st1 st2 st3 :
  only_display_changed st1 st2 -> only_display_changed st2 st3 ->
  only_display_changed st1 st3.
Proof.
  intros (A1 & A2 & A3 & A4) (B1 & B2 & B3 & B4).
  repeat split; congruence.
Qed.

Lemma showInsight_display st i : only_display_changed st (showInsight st i).
Proof.
  unfold showInsight. destruct (find_student (students st) i); repeat split.
Qed.

Lemma restoreInsightState_display st :
  only_display_changed st (restoreInsightState st).
Proof.
  unfold restoreInsightState.
  destruct (1 <? List.length (selectedStudents st))%nat; [repeat split|].
  destruct (List.length (selectedStudents st) =? 1)%nat.
  - destruct (nth_error (selectedStudents st) 0);
      [apply showInsight_display | apply display_refl].
  - destruct (selectedStudentForRadar st) as [i|]; [|repeat split].
    destruct (truthy_id i); [apply showInsight_display | repeat split].
Qed.

Lemma drawComparisonChart_display st :
  only_display_changed st (drawComparisonChart st).
Proof.
  unfold drawComparisonChart.
  destruct (negb _); [apply display_refl|].
  destruct (nth_error (selectedStudents st) 0); [|apply display_refl].
  destruct (nth_error (selectedStudents st) 1); [|apply display_refl].
  destruct (find_student (students st) z); [|apply display_refl].
  destruct (find_student (students st) z0); [|apply display_refl].
  destruct (fold_left _ _ _). repeat split.
Qed.

Lemma openComparisonModal_display st :
  only_display_changed st (openComparisonModal st).
Proof.
  unfold openComparisonModal. destruct (negb _); [apply display_refl|].
  eapply display_trans; [|apply drawComparisonChart_display]. repeat split.
Qed.

Lemma handlePrint_display st : only_display_changed st (handlePrint st).
Proof.
  unfold handlePrint.
  destruct (List.length (selectedStudents st) =? 1)%nat; [|apply display_refl].
  destruct (nth_error (selectedStudents st) 0) as [i|]; [|apply display_refl].
  destruct (find_student (students st) i) as [s|]; [|apply display_refl].
  eapply display_trans; [|apply showInsight_display]. repeat split.
Qed.

Lemma roster_ok_frame st st' :
  ids (students st') = ids (students st) ->
  selectedStudents st' = selectedStudents st ->
  selectedStudentForRadar st' = selectedStudentForRadar st ->
  roster_ok st -> roster_ok st'.
Proof.
  intros E1 E2 E3 [H1 H2 H3 H4 H5].
  constructor; rewrite ?E1, ?E2, ?E3; assumption.
Qed.

Lemma roster_ok_display st st' :
  only_display_changed st st' -> roster_ok st -> roster_ok st'.
Proof.
  intros (E1 & E2 & E3 & _). apply roster_ok_frame; congruence.
Qed.

Lemma consistent_display st st' :
  only_display_changed st st' -> consistent st -> consistent st'.
Proof.
  intros (E1 & E2 & E3 & E4) [H1 H2 H3 H4 H5].
  constructor; unfold present in *; rewrite ?E1, ?E2, ?E3, ?E4; try assumption.
  eapply roster_ok_display; [|exact H1]. repeat split; assumption.
Qed.

(** ** Rendering re-establishes the table facts *)

Section Preservation.
Variable host : Host.

Lemma consistent_after_render st st' :
  roster_ok st ->
  students st' = students st ->
  selectedStudents st' = selectedStudents st ->
  tableBody st' = tableBody (renderTable host st) ->
  selectedStudentForRadar st' <> Some 0 ->
  (forall i, selectedStudentForRadar st' = Some i -> present st' i) ->
  consistent st'.
Proof.
  intros [H1 H2 H3 H4 H5] E1 E2 E4 Hz Hf.
  constructor; unfold present in *; rewrite ?E1, ?E2, ?E4; try assumption.
  - constructor; rewrite ?E1, ?E2; assumption.
  - rewrite <- E1. exact Hf.
  - unfold renderTable. cbn [tableBody set_tableBody]. rewrite map_map.
    apply renderTable_view_ids.
  - unfold renderTable. cbn [tableBody set_tableBody]. rewrite map_map.
    apply renderTable_view_nodup, H2.
  - unfold renderTable. cbn [tableBody set_tableBody].
    intros r Hr. apply in_map_iff in Hr. destruct Hr as (s & <- & _). reflexivity.
Qed.

Lemma renderTable_consistent st :
  roster_ok st ->
  (forall i, selectedStudentForRadar st = Some i -> present st i) ->
  consistent (renderTable host st).
Proof.
  intros Hok Hf. apply (consistent_after_render st); try reflexivity; try assumption.
  apply Hok.
Qed.

Lemma updateAllVisuals_consistent st :
  roster_ok st -> consistent (updateAllVisuals host st).
Proof.
  intros Hok. unfold updateAllVisuals.
  change (selectedStudentForRadar (renderTable host st))
    with (selectedStudentForRadar st).
  change (students (renderTable host st)) with (students st).
  destruct (selectedStudentForRadar st) as [i|] eqn:Ef.
  - assert (Hi : truthy_id i = true).
    { unfold truthy_id. apply negb_true_iff, Z.eqb_neq. intros ->.
      now apply (focus_truthy _ Hok). }
    rewrite Hi. destruct (find_student (students st) i) as [s|] eqn:Efind.
    + eapply consistent_display; [apply showInsight_display|].
      apply (consistent_after_render st); try reflexivity; try assumption.
      * cbn. apply Hok.
      * cbn. rewrite Ef. intros j [= <-].
        apply find_student_Some in Efind. destruct Efind as [Hin <-].
        unfold present, ids. cbn. now apply in_map.
    + apply (consistent_after_render st); try reflexivity; try assumption.
      * cbn. discriminate.
      * cbn. discriminate.
  - apply renderTable_consistent; [exact Hok|]. rewrite Ef. discriminate.
Qed.
End Preservation.

(** ** Changes of the roster *)

Lemma fold_left_max_ge (r : list Z) (a : Z) :
  a <= fold_left Z.max r a /\ Forall (fun x => x <= fold_left Z.max r a) r.
Proof.
  revert a. induction r as [|x r IH]; intros a; cbn [fold_left].
  - split; [lia|constructor].
  - destruct (IH (Z.max a x)) as [H1 H2]. split; [lia|].
    constructor; [lia|exact H2].
Qed.

Lemma Math_max_ge (l : list Z) : Forall (fun x => x <= Math_max l) l.
Proof.
  destruct l as [|x r]; [constructor|]. cbn [Math_max].
  destruct (fold_left_max_ge r x) as [H1 H2]. constructor; assumption.
Qed.

Lemma ids_app l l' : ids (l ++ l') = ids l ++ ids l'.
Proof. apply map_app. Qed.

Lemma ids_filter (i : Z) (l : list Student) :
  ids (filter (fun s => negb (id s =? i)) l)
  = filter (fun j => negb (j =? i)) (ids l).
Proof.
  induction l as [|s l IH]; cbn [filter ids map]; [reflexivity|].
  destruct (negb (id s =? i)); cbn [ids map]; unfold ids in IH; now rewrite IH.
Qed.

Lemma ids_assign_mark l i subject v : ids (assign_mark l i subject v) = ids l.
Proof.
  induction l as [|s l IH]; cbn [assign_mark]; [reflexivity|].
  destruct (id s =? i); cbn [ids map id]; [reflexivity|].
  unfold ids in IH. now rewrite IH.
Qed.

Lemma filter_length_le {A : Type} (f : A -> bool) (l : list A) :
  (List.length (filter f l) <= List.length l)%nat.
Proof.
  induction l as [|a l IH]; cbn [filter List.length]; [lia|].
  destruct (f a); cbn [List.length]; lia.
Qed.

Lemma roster_ok_add st newStudent :
  id newStudent
  = (if (0 <? List.length (students st))%nat
     then Math_max (map id (students st)) + 1 else 1) ->
  roster_ok st ->
  roster_ok (set_students st (students st ++ [newStudent])).
Proof.
  intros Hid [H1 H2 H3 H4 H5].
  assert (Hnew : 0 < id newStudent /\ ~ In (id newStudent) (ids (students st))).
  { rewrite Hid. destruct (students st) as [|s r] eqn:E; cbn [List.length Nat.ltb Nat.leb].
    - split; [lia|intros []].
    - pose proof (Math_max_ge (map id (s :: r))) as Hmax.
      rewrite Forall_forall in Hmax. split.
      + inversion H1 as [|? ? Hs _]; subst.
        assert (id s <= Math_max (map id (s :: r))) by (apply Hmax; left; reflexivity).
        lia.
      + intros Hin. apply Hmax in Hin. lia. }
  destruct Hnew as [Hpos Hfresh].
  constructor; cbn [students selectedStudents selectedStudentForRadar set_students];
    rewrite ?ids_app; try assumption.
  - apply Forall_app. split; [exact H1|]. constructor; [exact Hpos|constructor].
  - eapply Permutation_NoDup; [apply Permutation_cons_append|].
    constructor; assumption.
  - apply incl_appl, H4.
Qed.

Lemma roster_ok_delete st i :
  roster_ok st ->
  roster_ok
    (set_selectedStudents
       (set_students st (filter (fun s => negb (id s =? i)) (students st)))
       (filter (fun sId => negb (sId =? i)) (selectedStudents st))).
Proof.
  intros [H1 H2 H3 H4 H5].
  constructor;
    cbn [students selectedStudents selectedStudentForRadar set_students
         set_selectedStudents];
    rewrite ?ids_filter; try assumption.
  - eapply incl_Forall; [apply incl_filter|exact H1].
  - apply NoDup_filter, H2.
  - eapply Nat.le_trans; [apply filter_length_le|exact H3].
  - intros j Hj. apply filter_In in Hj. destruct Hj as [Hj Hne].
    apply filter_In. split; [apply H4, Hj|exact Hne].
Qed.

Lemma filter_absent (i : Z) (l : list Z) :
  ~ In i l -> filter (fun sId => negb (sId =? i)) l = l.
Proof.
  induction l as [|x l IH]; cbn [filter]; intros Hn; [reflexivity|].
  destruct (x =? i) eqn:E; cbn [negb].
  - apply Z.eqb_eq in E. subst. exfalso. apply Hn. left. reflexivity.
  - rewrite IH; [reflexivity|]. intros H. apply Hn. right. exact H.
Qed.

(** ** Checkboxes *)

Lemma set_checked_ids rows i b :
  map row_id (set_checked rows i b) = map row_id rows.
Proof.
  revert i. induction rows as [|r rows IH]; intros [|i]; cbn [set_checked map];
    try reflexivity.
  now rewrite IH.
Qed.

Lemma nth_error_set_checked rows i b r :
  nth_error rows i = Some r ->
  nth_error (set_checked rows i b) i = Some (mkRow (row_student r) b).
Proof.
  revert i. induction rows as [|r0 rows IH]; intros [|i]; cbn [nth_error set_checked];
    try discriminate.
  - now intros [= ->].
  - apply IH.
Qed.

Lemma set_checked_twice rows i b b' :
  set_checked (set_checked rows i b) i b' = set_checked rows i b'.
Proof.
  revert i. induction rows as [|r rows IH]; intros [|i]; cbn [set_checked row_student];
    try reflexivity.
  now rewrite IH.
Qed.

Lemma set_checked_same rows i r :
  nth_error rows i = Some r -> set_checked rows i (checked r) = rows.
Proof.
  revert i. induction rows as [|r0 rows IH]; intros [|i]; cbn [nth_error set_checked];
    try discriminate.
  - intros [= ->]. now destruct r.
  - intros H. now rewrite IH.
Qed.

Lemma In_set_checked rows i b r r' :
  NoDup (map row_id rows) ->
  nth_error rows i = Some r ->
  In r' (set_checked rows i b) ->
  r' = mkRow (row_student r) b \/ (In r' rows /\ row_id r' <> row_id r).
Proof.
  revert i. induction rows as [|r0 rows IH]; intros [|i] Hnd Hnth Hin;
    cbn [nth_error set_checked map] in *; try discriminate.
  - injection Hnth as ->. inversion Hnd as [|? ? Hn _]; subst.
    destruct Hin as [<- | Hin]; [left; reflexivity|].
    right. split; [right; exact Hin|].
    intros E. apply Hn. rewrite <- E. now apply in_map.
  - inversion Hnd as [|? ? Hn Hd]; subst.
    destruct Hin as [<- | Hin].
    + right. split; [left; reflexivity|].
      intros E. apply Hn. rewrite E. apply in_map. eapply nth_error_In; eauto.
    + destruct (IH i Hd Hnth Hin) as [-> | [H1 H2]]; [left; reflexivity|].
      right. split; [right; exact H1|exact H2].
Qed.

Lemma Array_includes_app_other l x y :
  y <> x -> Array_includes (l ++ [x]) y = Array_includes l y.
Proof.
  intros Hne. unfold Array_includes. rewrite existsb_app. cbn [existsb].
  apply Z.eqb_neq in Hne. rewrite Hne. now rewrite !orb_false_r.
Qed.

Lemma Array_includes_filter_other l x y :
  y <> x ->
  Array_includes (filter (fun i' => negb (i' =? x)) l) y = Array_includes l y.
Proof.
  intros Hne. apply eq_true_iff_eq. rewrite !Array_includes_In, filter_In.
  split; [tauto|]. intros H. split; [exact H|].
  apply negb_true_iff, Z.eqb_neq. exact Hne.
Qed.

Lemma Array_includes_filter_self l x :
  Array_includes (filter (fun i' => negb (i' =? x)) l) x = false.
Proof.
  apply Array_includes_not_In. rewrite filter_In. intros [_ H].
  rewrite Z.eqb_refl in H. discriminate.
Qed.

Lemma consistent_set_selection st sel' rows' :
  consistent st ->
  (List.length sel' <= 2)%nat ->
  incl sel' (ids (students st)) ->
  map row_id rows' = map row_id (tableBody st) ->
  (forall r, In r rows' -> checked r = Array_includes sel' (row_id r)) ->
  consistent (set_selectedStudents (set_tableBody st rows') sel').
Proof.
  intros [[H1 H2 H3 H4 H5] H6 H7 H8 H9] Hlen Hincl Hrows Hchecked.
  constructor; [constructor|..]; unfold present in *;
    cbn [students selectedStudents selectedStudentForRadar tableBody
         set_selectedStudents set_tableBody];
    rewrite ?Hrows; assumption.
Qed.

Lemma set_tableBody_same st rows :
  set_tableBody (set_tableBody st rows) (tableBody st) = st.
Proof. destruct st. reflexivity. Qed.

(** ** Every event preserves consistency *)

Section Events.
Variable host : Host.


Lemma checkbox_clicked_consistent st i :
  consistent st -> consistent (dispatch host st (CheckboxClicked i)).
Proof.
  intros Hc. unfold dispatch, on_row.
  destruct (nth_error (tableBody st) i) as [r|] eqn:E; [|exact Hc].
  unfold checkbox_change. cbn [tableBody set_tableBody selectedStudents].
  rewrite (nth_error_set_checked _ _ _ _ E). cbn [checked].
  change (row_id (mkRow (row_student r) (negb (checked r)))) with (row_id r).
  assert (Hr : In r (tableBody st)) by (eapply nth_error_In; eauto).
  assert (Hpres : In (row_id r) (ids (students st))).
  { apply (rows_present _ Hc). now apply in_map. }
  pose proof (rows_checked _ Hc r Hr) as Hsync.
  destruct (checked r) eqn:C; cbn [negb].
  - eapply consistent_display; [apply restoreInsightState_display|].
    apply consistent_set_selection; try assumption.
    + eapply Nat.le_trans; [apply filter_length_le|]. apply Hc.
    + intros j Hj. apply filter_In in Hj. destruct Hj as [Hj _].
      now apply (selection_present _ (roster_in_order _ Hc)).
    + apply set_checked_ids.
    + intros r' Hr'.
      destruct (In_set_checked _ _ _ _ _ (rows_nodup _ Hc) E Hr') as [-> | [Hin Hne]].
      * cbn [checked]. change (row_id (mkRow (row_student r) false)) with (row_id r).
        now rewrite Array_includes_filter_self.
      * rewrite Array_includes_filter_other by exact Hne.
        now apply (rows_checked _ Hc).
  - destruct (List.length (selectedStudents st) <? 2)%nat eqn:Hlt.
    + eapply consistent_display; [apply restoreInsightState_display|].
      apply consistent_set_selection; try assumption.
      * rewrite length_app. cbn [List.length]. apply Nat.ltb_lt in Hlt. lia.
      * intros j Hj. apply in_app_or in Hj. destruct Hj as [Hj | [<- | []]].
        -- now apply (selection_present _ (roster_in_order _ Hc)).
        -- exact Hpres.
      * apply set_checked_ids.
      * intros r' Hr'.
        destruct (In_set_checked _ _ _ _ _ (rows_nodup _ Hc) E Hr') as [-> | [Hin Hne]].
        -- cbn [checked]. change (row_id (mkRow (row_student r) true)) with (row_id r).
           symmetry. apply Array_includes_In. apply in_or_app. right. left. reflexivity.
        -- rewrite Array_includes_app_other by exact Hne.
           now apply (rows_checked _ Hc).
    + rewrite set_checked_twice. rewrite <- C at 1.
      rewrite (set_checked_same _ _ _ E), set_tableBody_same. exact Hc.
Qed.

Lemma row_clicked_consistent st i :
  consistent st -> consistent (dispatch host st (RowClicked i)).
Proof.
  intros Hc. unfold dispatch, on_row.
  destruct (nth_error (tableBody st) i) as [r|] eqn:E; [|exact Hc].
  assert (Hr : In r (tableBody st)) by (eapply nth_error_In; eauto).
  assert (Hpres : In (row_id r) (ids (students st))).
  { apply (rows_present _ Hc). now apply in_map. }
  eapply consistent_display; [apply showInsight_display|].
  assert (Hfocus : consistent (set_selectedStudentForRadar st (Some (row_id r)))).
  { destruct Hc as [[H1 H2 H3 H4 H5] H6 H7 H8 H9].
    constructor; [constructor|..]; unfold present in *;
      cbn [students selectedStudents selectedStudentForRadar tableBody
           set_selectedStudentForRadar]; try assumption.
    - intros [= E0]. rewrite Forall_forall in H1. apply H1 in Hpres. lia.
    - intros j [= <-]. exact Hpres. }
  unfold selectStudentForRadar.
  cbn [students set_selectedStudentForRadar].
  destruct (find_student (students st) (row_id r)); [|exact Hfocus].
  eapply consistent_display; [|exact Hfocus]. repeat split.
Qed.

Lemma add_submitted_consistent st form :
  consistent st -> consistent (addStudentForm_submit host st form).
Proof.
  intros Hc. unfold addStudentForm_submit.
  destruct (existsb _ (students st)).
  - eapply consistent_display; [|exact Hc]. repeat split.
  - unfold addStudent. apply updateAllVisuals_consistent.
    apply roster_ok_add; [reflexivity|apply Hc].
Qed.

Lemma deleteStudent_consistent st i :
  consistent st -> consistent (deleteStudent host st i).
Proof.
  intros Hc. unfold deleteStudent. apply updateAllVisuals_consistent.
  cbn [selectedStudents set_students].
  pose proof (roster_ok_delete st i (roster_in_order _ Hc)) as Hok.
  destruct (Array_includes (selectedStudents st) i) eqn:Einc.
  - cbn [comparisonModal set_selectedStudents set_students].
    destruct (comparisonModal st); [|exact Hok].
    set (st2 := set_selectedStudents _ _) in *.
    destruct (List.length (selectedStudents (drawComparisonChart st2)) <? 2)%nat.
    + eapply roster_ok_display; [|exact Hok].
      eapply display_trans; [apply drawComparisonChart_display|]. repeat split.
    + eapply roster_ok_display; [apply drawComparisonChart_display|exact Hok].
  - apply Array_includes_not_In in Einc.
    eapply roster_ok_frame; [| | |exact Hok]; cbn; try reflexivity.
    symmetry. now apply filter_absent.
Qed.

Lemma handleMarkEdit_consistent st i subject text st' :
  consistent st ->
  handleMarkEdit host st i subject text = Returned st' ->
  consistent st'.
Proof.
  intros Hc. unfold handleMarkEdit.
  destruct (find_student (students st) i); [|discriminate].
  destruct (isNaN _ || _ || _); [discriminate|].
  intros [= <-]. apply updateAllVisuals_consistent.
  eapply roster_ok_frame; [| | |apply Hc]; cbn; try reflexivity.
  apply ids_assign_mark.
Qed.

Lemma handleMarkEdit_reverted st i subject text st' v :
  handleMarkEdit host st i subject text = Reverted st' v -> st' = st.
Proof.
  unfold handleMarkEdit.
  destruct (find_student (students st) i); [|discriminate].
  destruct (isNaN _ || _ || _); [|discriminate]. now intros [= <- _].
Qed.

Lemma dispatch_consistent st ev :
  consistent st -> consistent (dispatch host st ev).
Proof.
  intros Hc. destruct ev.
  - eapply consistent_display; [|exact Hc]. repeat split.
  - apply renderTable_consistent; apply Hc.
  - cbn [dispatch]. apply renderTable_consistent.
    + eapply roster_ok_display; [|apply Hc]. repeat split.
    + apply Hc.
  - cbn [dispatch]. apply renderTable_consistent.
    + eapply roster_ok_display; [|apply Hc]. repeat split.
    + apply Hc.
  - now apply checkbox_clicked_consistent.
  - cbn [dispatch]. unfold on_row. destruct (nth_error _ _); [|exact Hc].
    eapply consistent_display; [apply showInsight_display|exact Hc].
  - cbn [dispatch]. unfold on_row. destruct (nth_error _ _); [|exact Hc].
    eapply consistent_display; [apply restoreInsightState_display|exact Hc].
  - now apply row_clicked_consistent.
  - cbn [dispatch]. unfold on_row. destruct (nth_error _ _) as [r|]; [|exact Hc].
    destruct (handleMarkEdit host st (row_id r) subject textContent)
      as [st'|st' v|e] eqn:E.
    + eapply handleMarkEdit_consistent; eauto.
    + apply handleMarkEdit_reverted in E. now subst.
    + exact Hc.
  - cbn [dispatch]. unfold on_row. destruct (nth_error _ _) as [r|]; [|exact Hc].
    destruct confirmed; [now apply deleteStudent_consistent|exact Hc].
  - eapply consistent_display; [apply openComparisonModal_display|exact Hc].
  - eapply consistent_display; [|exact Hc]. repeat split.
  - now apply add_submitted_consistent.
  - eapply consistent_display; [apply handlePrint_display|exact Hc].
Qed.

Lemma init_consistent page : consistent (init host page).
Proof.
  unfold init. eapply consistent_display; [|apply renderTable_consistent].
  - repeat split.
  - constructor; cbn.
    + repeat constructor.
    + repeat constructor; cbn; intuition discriminate.
    + lia.
    + intros i [].
    + discriminate.
  - cbn. discriminate.
Qed.

Lemma reachable_consistent st : reachable host st -> consistent st.
Proof.
  induction 1 as [page|st ev _ IH].
  - apply init_consistent.
  - now apply dispatch_consistent.
Qed.
End Events.

(** ** Selection state machine *)

Section Selection.
Variable host : Host.


Lemma updateAllVisuals_roster st :
  students (updateAllVisuals host st) = students st
  /\ selectedStudents (updateAllVisuals host st) = selectedStudents st.
Proof.
  unfold updateAllVisuals.
  change (selectedStudentForRadar (renderTable host st))
    with (selectedStudentForRadar st).
  change (students (renderTable host st)) with (students st).
  destruct (selectedStudentForRadar st) as [i|]; [|split; reflexivity].
  destruct (truthy_id i); [|split; reflexivity].
  destruct (find_student (students st) i) as [s|]; [|split; reflexivity].
  destruct (showInsight_display (drawRadarChart (renderTable host st) s) i)
    as (E1 & E2 & _).
  rewrite E1, E2. split; reflexivity.
Qed.

Lemma deleteStudent_students st i :
  students (deleteStudent host st i)
  = filter (fun s => negb (id s =? i)) (students st).
Proof.
  unfold deleteStudent. rewrite (proj1 (updateAllVisuals_roster _)).
  cbn [selectedStudents set_students].
  destruct (Array_includes (selectedStudents st) i); [|reflexivity].
  cbn [comparisonModal set_selectedStudents set_students].
  destruct (comparisonModal st); [|reflexivity].
  set (st2 := set_selectedStudents _ _).
  destruct (drawComparisonChart_display st2) as (E1 & _).
  destruct (List.length (selectedStudents (drawComparisonChart st2)) <? 2)%nat;
    cbn [students closeComparisonModal set_comparisonModal]; rewrite E1; reflexivity.
Qed.


End Selection.




(** ** Adding a student *)

Lemma fold_left_max_In (r : list Z) (a : Z) :
  fold_left Z.max r a = a \/ In (fold_left Z.max r a) r.
Proof.
  revert a. induction r as [|x r IH]; intros a; cbn [fold_left]; [left; reflexivity|].
  destruct (IH (Z.max a x)) as [E | Hin].
  - rewrite E. destruct (Z.max_spec a x) as [[_ ->] | [_ ->]].
    + right. left. reflexivity.
    + left. reflexivity.
  - right. right. exact Hin.
Qed.

Lemma Math_max_is_max (l : list Z) : l <> [] -> is_max (Math_max l) l.
Proof.
  intros Hne. split; [|apply Math_max_ge].
  destruct l as [|x r]; [contradiction|]. cbn [Math_max].
  destruct (fold_left_max_In r x) as [-> | Hin]; [left; reflexivity|right; exact Hin].
Qed.

Lemma existsb_duplicate st r :
  existsb (fun s => (rollNo s =? r)%string) (students st) = true
  <-> duplicate_rollNo st r.
Proof.
  unfold duplicate_rollNo. rewrite existsb_exists. split.
  - intros (s & Hs & E). apply String.eqb_eq in E. now exists s.
  - intros (s & Hs & E). exists s. split; [exact Hs|]. now apply String.eqb_eq.
Qed.

Section Adding.
Variable host : Host.

Lemma updateAllVisuals_alerts st :
  alerts (updateAllVisuals host st) = alerts st.
Proof.
  unfold updateAllVisuals.
  change (selectedStudentForRadar (renderTable host st))
    with (selectedStudentForRadar st).
  change (students (renderTable host st)) with (students st).
  destruct (selectedStudentForRadar st) as [i|]; [|reflexivity].
  destruct (truthy_id i); [|reflexivity].
  destruct (find_student (students st) i) as [s|] eqn:E; [|reflexivity].
  unfold showInsight. cbn [students drawRadarChart set_radarChart].
  change (students (renderTable host st)) with (students st).
  rewrite E. reflexivity.
Qed.

Lemma addStudent_students st studentData :
  students (addStudent host st studentData)
  = students st
    ++ [mkStudent (next_id (students st)) (data_rollNo studentData)
          (data_name studentData) (data_marks studentData)].
Proof.
  unfold addStudent. rewrite (proj1 (updateAllVisuals_roster _ _)).
  cbn [students set_students]. unfold next_id, ids.
  destruct (students st); reflexivity.
Qed.

Lemma addStudent_alerts st studentData :
  alerts (addStudent host st studentData) = alerts st.
Proof. unfold addStudent. now rewrite updateAllVisuals_alerts. Qed.
End Adding.

(** C5.  The submit handler of the add-student form reads the requested
    roll number from its field, trimmed.  It aborts, leaving everything but
    the alert shown to the user as it was, exactly when that roll number is
    equal as a string to the roll number of a student of the roster;
    otherwise it appends one student, with that roll number and with id 1
    on an empty roster and the greatest id plus 1 on any other, so that the
    roster grows by exactly one. *)
Theorem addStudent_duplicate_rollNo (host : Host)
    (st : State) (form : AddForm) :
  let requested := trim (rollNoField form) in
  let st' := addStudentForm_submit host st form in
  (duplicate_rollNo st requested
   <-> students st' = students st /\ alerts st' = alerts st ++ [duplicateMessage])
  /\ (duplicate_rollNo st requested -> st' = alert st duplicateMessage)
  /\ (~ duplicate_rollNo st requested ->
      exists newStudent,
        students st' = students st ++ [newStudent]
        /\ rollNo newStudent = requested
        /\ (students st = [] -> id newStudent = 1)
        /\ (students st <> [] ->
            exists m, is_max m (ids (students st)) /\ id newStudent = m + 1)
        /\ List.length (students st') = S (List.length (students st))
        /\ alerts st' = alerts st).
Proof.
  intros requested st'.
  assert (Hdup : duplicate_rollNo st requested -> st' = alert st duplicateMessage).
  { intros H. apply existsb_duplicate in H. subst st' requested.
    unfold addStudentForm_submit. now rewrite H. }
  assert (Hnew : ~ duplicate_rollNo st requested ->
            students st'
            = students st
              ++ [mkStudent (next_id (students st)) requested
                    (trim (studentName form))
                    (mkMarks (parseInt (markMath form)) (parseInt (markScience form))
                       (parseInt (markEnglish form)) (parseInt (markHistory form))
                       (parseInt (markComputer form)))]
            /\ alerts st' = alerts st).
  { intros H. rewrite <- existsb_duplicate in H. apply not_true_iff_false in H.
    subst st' requested. unfold addStudentForm_submit. rewrite H.
    rewrite addStudent_students, addStudent_alerts. split; reflexivity. }
  split; [|split; [exact Hdup|]].
  - split.
    + intros H. rewrite (Hdup H). split; reflexivity.
    + intros [Hsame _].
      destruct (existsb (fun s => (rollNo s =? requested)%string) (students st)) eqn:E.
      * now apply existsb_duplicate.
      * exfalso. assert (Hn : ~ duplicate_rollNo st requested).
        { rewrite <- existsb_duplicate, E. discriminate. }
        destruct (Hnew Hn) as [Hst _]. rewrite Hst in Hsame.
        apply (f_equal (@List.length _)) in Hsame. rewrite length_app in Hsame.
        cbn [List.length] in Hsame. lia.
  - intros Hn. destruct (Hnew Hn) as [Hst Hal].
    eexists. split; [exact Hst|]. cbn [rollNo id].
    split; [reflexivity|]. split; [|split; [|split]].
    + intros ->. reflexivity.
    + intros Hne. exists (Math_max (ids (students st))). split.
      * apply Math_max_is_max. unfold ids. destruct (students st); [contradiction|discriminate].
      * unfold next_id. destruct (students st); [contradiction|reflexivity].
    + rewrite Hst, length_app. cbn [List.length]. lia.
    + exact Hal.
Qed.

Lemma addStudent_duplicate_rollNo_witness :
  (duplicate_rollNo loaded "104"
   /\ addStudentForm_submit asciiHost loaded
        (mkAddForm "Twin" " 104 " "50" "50" "50" "50" "50")
      = alert loaded duplicateMessage)
  /\ (~ duplicate_rollNo loaded "900"
      /\ List.length (students (addStudentForm_submit asciiHost loaded oddForm))
         = 6%nat).
Proof.
  assert (Hdup : duplicate_rollNo loaded "104").
  { exists (nth 0 studentsData bob). split; [left; reflexivity|reflexivity]. }
  assert (Hfresh : ~ duplicate_rollNo loaded "900").
  { rewrite <- existsb_duplicate. vm_compute. discriminate. }
  split.
  - split; [exact Hdup|].
    exact (proj1 (proj2 (addStudent_duplicate_rollNo asciiHost loaded
                           (mkAddForm "Twin" " 104 " "50" "50" "50" "50" "50")))
             Hdup).
  - split; [exact Hfresh|].
    destruct (proj2 (proj2 (addStudent_duplicate_rollNo asciiHost loaded oddForm))
                Hfresh) as (newStudent & _ & _ & _ & _ & Hlen & _).
    exact Hlen.
Defined.

(** C10.  [addStudent] appends the student with the marks it is given,
    whatever they are, and the submit handler hands it the results of
    [parseInt] on the five mark fields without looking at them: a form with
    the marks 150, -7, abc, the empty text and 50 adds a student with the
    marks 150, -7, NaN, NaN and 50, while the same 150 typed into a mark
    cell is refused by [handleMarkEdit]. *)
Theorem addStudent_marks_unvalidated (host : Host) :
  (forall st studentData,
     students (addStudent host st studentData)
     = students st
       ++ [mkStudent (next_id (students st)) (data_rollNo studentData)
             (data_name studentData) (data_marks studentData)])
  /\ (forall st form,
        students (addStudentForm_submit host st form)
        = if existsb (fun s => (rollNo s =? trim (rollNoField form))%string)
               (students st)
          then students st
          else students st
               ++ [mkStudent (next_id (students st)) (trim (rollNoField form))
                     (trim (studentName form))
                     (mkMarks (parseInt (markMath form)) (parseInt (markScience form))
                        (parseInt (markEnglish form)) (parseInt (markHistory form))
                        (parseInt (markComputer form)))])
  /\ students (addStudentForm_submit host loaded oddForm)
     = studentsData
       ++ [mkStudent 106 "900" "Zed" (mkMarks (num 150) (num (-7)) NaN NaN (num 50))]
  /\ handleMarkEdit host loaded 104 math "150" = Reverted loaded (num 95).
Proof.
  assert (Hsubmit : forall st form,
        students (addStudentForm_submit host st form)
        = if existsb (fun s => (rollNo s =? trim (rollNoField form))%string)
               (students st)
          then students st
          else students st
               ++ [mkStudent (next_id (students st)) (trim (rollNoField form))
                     (trim (studentName form))
                     (mkMarks (parseInt (markMath form)) (parseInt (markScience form))
                        (parseInt (markEnglish form)) (parseInt (markHistory form))
                        (parseInt (markComputer form)))]).
  { intros st form. unfold addStudentForm_submit.
    destruct (existsb _ (students st)); [reflexivity|].
    now rewrite addStudent_students. }
  split; [intros; apply addStudent_students|]. split; [exact Hsubmit|]. split.
  - rewrite Hsubmit. reflexivity.
  - reflexivity.
Qed.


(** ** Comparison chart *)

Lemma num_gt_asym a b : num_gt a b = true -> num_gt b a = false.
Proof.
  destruct a as [|x], b as [|y]; try (intros; reflexivity); try discriminate.
  rewrite num_gt_Fin. intros H. apply not_true_iff_false. rewrite num_gt_Fin.
  intros H'. apply (Qlt_irrefl x). eapply Qlt_trans; eauto.
Qed.

Lemma num_eq_not_gt a b : num_eq a b -> num_gt a b = false /\ num_gt b a = false.
Proof.
  destruct a as [|x], b as [|y]; cbn [num_eq]; try contradiction;
    [split; reflexivity|].
  intros E. split; apply not_true_iff_false; rewrite num_gt_Fin; rewrite E;
    apply Qlt_irrefl.
Qed.

Lemma winnerIndex_cases m0 m1 :
  (winnerIndex m0 m1 = 0 /\ num_gt m0 m1 = true)
  \/ (winnerIndex m0 m1 = 1 /\ num_gt m0 m1 = false /\ num_gt m1 m0 = true)
  \/ (winnerIndex m0 m1 = -1 /\ num_gt m0 m1 = false /\ num_gt m1 m0 = false).
Proof.
  unfold winnerIndex.
  destruct (num_gt m0 m1) eqn:E0; [left; split; reflexivity|].
  destruct (num_gt m1 m0) eqn:E1; [right; left|right; right]; repeat split.
Qed.

Lemma fold_compareSubject student1 student2 l acc :
  fold_left (compareSubject student1 student2) l acc
  = (fst acc ++ flat_map (subject_markers student1 student2) l,
     snd acc ++ flat_map (subject_legend student1 student2) l).
Proof.
  revert acc. induction l as [|subject l IH]; intros [markers legend];
    cbn [fold_left flat_map fst snd].
  - now rewrite !app_nil_r.
  - rewrite IH. unfold subject_markers, subject_legend, compareSubject.
    cbn [fst snd app]. now rewrite <- !app_assoc.
Qed.

Lemma subject_in_SUBJECTS (subject : Subject) : In subject SUBJECTS.
Proof. destruct subject; cbn; tauto. Qed.

Lemma SUBJECT_LABELS_inj a b : SUBJECT_LABELS a = SUBJECT_LABELS b -> a = b.
Proof. destruct a, b; cbn; intros H; try reflexivity; discriminate. Qed.

Lemma subject_markers_In student1 student2 subject subject' b :
  In (subject, b) (subject_markers student1 student2 subject')
  <-> subject' = subject
      /\ ((b = 0 /\ num_gt (get_mark (marks student1) subject)
                           (get_mark (marks student2) subject) = true)
          \/ (b = 1 /\ num_gt (get_mark (marks student2) subject)
                              (get_mark (marks student1) subject) = true)).
Proof.
  unfold subject_markers, compareSubject. cbn [fst snd app].
  destruct (winnerIndex_cases (get_mark (marks student1) subject')
              (get_mark (marks student2) subject')) as [(W & G) | [(W & G0 & G1) | (W & G0 & G1)]];
    rewrite W; cbn [filter Z.eqb map In]; split.
  - intros [[= <- <-] | []]. split; [reflexivity|]. left. now split.
  - intros [-> [[-> _] | [-> H]]]; [left; reflexivity|].
    apply num_gt_asym in G. congruence.
  - intros [[= <- <-] | []]. split; [reflexivity|]. right. now split.
  - intros [-> [[-> H] | [-> _]]]; [congruence|left; reflexivity].
  - intros [].
  - intros [-> [[_ H] | [_ H]]]; congruence.
Qed.

Lemma subject_legend_winner student1 student2 subject :
  subject_legend student1 student2 subject
  = match subject_winner student1 student2 subject with
    | Some w => [(SUBJECT_LABELS subject, name w)]
    | None => []
    end.
Proof.
  unfold subject_legend, subject_winner, compareSubject. cbn [fst snd app].
  destruct (winnerIndex_cases (get_mark (marks student1) subject)
              (get_mark (marks student2) subject)) as [(W & G) | [(W & G0 & G1) | (W & G0 & G1)]];
    rewrite W; [rewrite G | rewrite G0, G1 | rewrite G0, G1]; reflexivity.
Qed.

(** C7.  With exactly two students selected, [drawComparisonChart] marks,
    for every subject, the bar of the student with the strictly higher mark
    and no other bar; a subject on which the two marks are equal gets no
    marker and no legend entry; and the legend lists, in subject order,
    exactly the subjects that have a winner, each with the winner's name. *)
Theorem drawComparisonChart_winners (st : State) (id1 id2 : Z)
    (student1 student2 : Student) :
  selectedStudents st = [id1; id2] ->
  find_student (students st) id1 = Some student1 ->
  find_student (students st) id2 = Some student2 ->
  exists c,
    comparisonChart (drawComparisonChart st) = Some c
    /\ comparisonNames c = (name student1, name student2)
    /\ (forall subject,
          let mark1 := get_mark (marks student1) subject in
          let mark2 := get_mark (marks student2) subject in
          (In (subject, 0) (winnerMarkers c) <-> num_gt mark1 mark2 = true)
          /\ (In (subject, 1) (winnerMarkers c) <-> num_gt mark2 mark1 = true)
          /\ (forall b, In (subject, b) (winnerMarkers c) -> b = 0 \/ b = 1)
          /\ (num_eq mark1 mark2 ->
              (forall b, ~ In (subject, b) (winnerMarkers c))
              /\ (forall w, ~ In (SUBJECT_LABELS subject, w) (comparisonLegend c))))
    /\ comparisonLegend c
       = flat_map
           (fun subject =>
              match subject_winner student1 student2 subject with
              | Some w => [(SUBJECT_LABELS subject, name w)]
              | None => []
              end)
           SUBJECTS.
Proof.
  intros Hsel H1 H2. unfold drawComparisonChart.
  rewrite Hsel. cbn [List.length Nat.eqb negb nth_error]. rewrite H1, H2.
  rewrite fold_compareSubject. cbn [fst snd app].
  eexists. split; [reflexivity|]. cbn [comparisonNames winnerMarkers comparisonLegend].
  split; [reflexivity|].
  assert (Hmark : forall subject b,
            In (subject, b) (flat_map (subject_markers student1 student2) SUBJECTS)
            <-> (b = 0 /\ num_gt (get_mark (marks student1) subject)
                                 (get_mark (marks student2) subject) = true)
                \/ (b = 1 /\ num_gt (get_mark (marks student2) subject)
                                    (get_mark (marks student1) subject) = true)).
  { intros subject b. rewrite in_flat_map. split.
    - intros (subject' & _ & Hin). apply subject_markers_In in Hin. tauto.
    - intros H. exists subject. split; [apply subject_in_SUBJECTS|].
      apply subject_markers_In. tauto. }
  assert (Hlegend : flat_map (subject_legend student1 student2) SUBJECTS
                    = flat_map
                        (fun subject =>
                           match subject_winner student1 student2 subject with
                           | Some w => [(SUBJECT_LABELS subject, name w)]
                           | None => []
                           end) SUBJECTS).
  { apply flat_map_ext. intros subject. apply subject_legend_winner. }
  split; [|exact Hlegend].
  intros subject. split; [|split; [|split]].
  - rewrite Hmark. split; [intros [[_ H] | [H _]]; [exact H|discriminate]|].
    intros H. left. now split.
  - rewrite Hmark. split; [intros [[H _] | [_ H]]; [discriminate|exact H]|].
    intros H. right. now split.
  - intros b Hb. apply Hmark in Hb. tauto.
  - intros Heq. apply num_eq_not_gt in Heq. destruct Heq as [G1 G2]. split.
    + intros b Hb. apply Hmark in Hb.
      destruct Hb as [[_ H] | [_ H]]; congruence.
    + intros w Hw. rewrite Hlegend in Hw. apply in_flat_map in Hw.
      destruct Hw as (subject' & _ & Hin). unfold subject_winner in Hin.
      destruct (num_gt (get_mark (marks student1) subject')
                  (get_mark (marks student2) subject')) eqn:E1.
      * destruct Hin as [[= E _] | []]. apply SUBJECT_LABELS_inj in E. subst subject'.
        congruence.
      * destruct (num_gt (get_mark (marks student2) subject')
                    (get_mark (marks student1) subject')) eqn:E2; [|destruct Hin].
        destruct Hin as [[= E _] | []]. apply SUBJECT_LABELS_inj in E. subst subject'.
        congruence.
Qed.

Lemma drawComparisonChart_winners_witness :
  selectedStudents tied_on_computer = [104; 101]
  /\ get_mark (marks (nth 0 (students tied_on_computer) bob)) computer = num 98
  /\ get_mark (marks (nth 1 (students tied_on_computer) bob)) computer = num 98
  /\ exists c,
       comparisonChart (drawComparisonChart tied_on_computer) = Some c
       /\ comparisonLegend c
          = [("Math", "Ananya Singh"); ("Science", "Ananya Singh");
             ("English", "Ananya Singh"); ("History", "Ananya Singh")].
Proof.
  split; [vm_compute; reflexivity|]. split; [vm_compute; reflexivity|].
  split; [vm_compute; reflexivity|].
  destruct (drawComparisonChart_winners tied_on_computer 104 101
              (nth 0 (students tied_on_computer) bob)
              (nth 1 (students tied_on_computer) bob)
              eq_refl eq_refl eq_refl) as (c & Hc & _ & _ & Hlegend).
  exists c. split; [exact Hc|]. rewrite Hlegend. vm_compute. reflexivity.
Defined.

(** ** Editing a mark *)

Lemma get_set_mark_same m subject v : get_mark (set_mark m subject v) subject = v.
Proof. destruct subject; reflexivity. Qed.

Lemma get_set_mark_other m subject other v :
  other <> subject -> get_mark (set_mark m subject v) other = get_mark m other.
Proof. destruct subject, other; intros H; try reflexivity; contradiction. Qed.

Lemma assign_mark_split l i subject v s :
  find_student l i = Some s ->
  exists l1 l2,
    l = l1 ++ s :: l2
    /\ assign_mark l i subject v
       = l1 ++ mkStudent (id s) (rollNo s) (name s) (set_mark (marks s) subject v) :: l2
    /\ Forall (fun t => id t <> i) l1.
Proof.
  unfold find_student. induction l as [|t l IH]; cbn [find assign_mark]; [discriminate|].
  destruct (id t =? i) eqn:E.
  - intros [= ->]. exists [], l. repeat split. constructor.
  - intros H. destruct (IH H) as (l1 & l2 & -> & Hassign & Hl1).
    exists (t :: l1), l2. cbn [app]. rewrite Hassign. repeat split.
    constructor; [now apply Z.eqb_neq|exact Hl1].
Qed.

Lemma is_digit_not_lead c : is_digit c = true -> whiteLead c = false.
Proof. destruct c as [[] [] [] [] [] [] [] []]; cbn; intros H; try reflexivity; discriminate. Qed.

Lemma trimStart_head_fixed (c : ascii) (r : string) :
  whiteLead c = false -> trimStart (String c r) = String c r.
Proof.
  intros H. apply trimStart_fixed.
  destruct (startsWhite (String c r)) eqn:E; [|reflexivity].
  apply startsWhite_lead in E. congruence.
Qed.

Lemma is_digit_value c :
  is_digit c = true -> digit_value 10 c = Some (Z.of_nat (nat_of_ascii c) - 48).
Proof. destruct c as [[] [] [] [] [] [] [] []]; cbn; intros H; try reflexivity; discriminate. Qed.

Lemma is_digit_not_sign c r :
  is_digit c = true ->
  strip_sign (String c r) = (1, String c r)
  /\ (c =? "+")%char = false /\ (c =? "-")%char = false.
Proof.
  destruct c as [[] [] [] [] [] [] [] []]; cbn; intros H;
    try (repeat split; reflexivity); discriminate.
Qed.

Lemma digits_no_hex_prefix s :
  all_digits s = true -> strip_hex_prefix s = (10, s).
Proof.
  destruct s as [|c [|d r]]; [reflexivity| |].
  - intros _. destruct c as [[] [] [] [] [] [] [] []]; reflexivity.
  - cbn [all_digits]. intros H. apply andb_true_iff in H. destruct H as [_ H].
    apply andb_true_iff in H. destruct H as [Hd _].
    destruct c as [[] [] [] [] [] [] [] []]; try reflexivity;
      destruct d as [[] [] [] [] [] [] [] []]; try reflexivity; discriminate.
Qed.

Lemma parse_digits_decimal s a :
  all_digits s = true -> parse_digits 10 s (Some a) = Some (decimal_value s a).
Proof.
  revert a. induction s as [|c r IH]; intros a; cbn [all_digits parse_digits decimal_value];
    [reflexivity|].
  intros H. apply andb_true_iff in H. destruct H as [Hc Hr].
  rewrite (is_digit_value c Hc). now apply IH.
Qed.

Lemma parse_digits_decimal_start s :
  truthy_string s = true -> all_digits s = true ->
  parse_digits 10 s None = Some (decimal_value s 0).
Proof.
  destruct s as [|c r]; [discriminate|]. intros _.
  cbn [all_digits parse_digits decimal_value]. intros H.
  apply andb_true_iff in H. destruct H as [Hc Hr].
  rewrite (is_digit_value c Hc). cbn [Z.mul Z.add]. now apply parse_digits_decimal.
Qed.

Lemma parseInt_unfold s sign s1 radix s2 :
  strip_sign (trimStart s) = (sign, s1) ->
  strip_hex_prefix s1 = (radix, s2) ->
  parseInt s = match parse_digits radix s2 None with
               | None => NaN
               | Some v => num (sign * v)
               end.
Proof. intros H1 H2. unfold parseInt. rewrite H1, H2. reflexivity. Qed.

Lemma is_digit_head c r :
  is_digit c = true -> strip_sign (trimStart (String c r)) = (1, String c r).
Proof.
  intros Hc. rewrite (trimStart_head_fixed c r (is_digit_not_lead c Hc)).
  apply is_digit_not_sign, Hc.
Qed.

Lemma sign_head (r : string) :
  strip_sign (trimStart (String "-" r)) = (-1, r)
  /\ strip_sign (trimStart (String "+" r)) = (1, r).
Proof.
  rewrite (trimStart_head_fixed "-" r eq_refl), (trimStart_head_fixed "+" r eq_refl).
  split; reflexivity.
Qed.

(** [parseInt] reads a valid integer text as the integer it denotes. *)
Lemma parseInt_valid_integer raw :
  spec_valid_integer raw = true -> parseInt (trim raw) = num (spec_integer_value raw).
Proof.
  unfold spec_valid_integer, spec_integer_value.
  destruct (trim raw) as [|c r]; [discriminate|].
  destruct (c =? "-")%char eqn:Eminus.
  - apply Ascii.eqb_eq in Eminus. subst c. cbn [orb]. rewrite orb_true_r. intros H.
    apply andb_true_iff in H. destruct H as [Hne Hd].
    rewrite (parseInt_unfold (String "-" r) (-1) r 10 r (proj1 (sign_head r))
               (digits_no_hex_prefix r Hd)).
    rewrite (parse_digits_decimal_start r Hne Hd). f_equal; lia.
  - destruct (c =? "+")%char eqn:Eplus.
    + apply Ascii.eqb_eq in Eplus. subst c. cbn [orb]. intros H.
      apply andb_true_iff in H. destruct H as [Hne Hd].
      rewrite (parseInt_unfold (String "+" r) 1 r 10 r (proj2 (sign_head r))
                 (digits_no_hex_prefix r Hd)).
      rewrite (parse_digits_decimal_start r Hne Hd). f_equal; lia.
    + cbn [orb]. intros Hd.
      assert (Hc : is_digit c = true).
      { cbn [all_digits] in Hd. apply andb_true_iff in Hd. tauto. }
      rewrite (parseInt_unfold (String c r) 1 (String c r) 10 (String c r)
                 (is_digit_head c r Hc) (digits_no_hex_prefix _ Hd)).
      rewrite (parse_digits_decimal_start (String c r) eq_refl Hd). f_equal; lia.
Qed.

Section Editing.
Variable host : Host.



Lemma filter_all_students (i : Z) (l : list Student) :
  ~ In i (ids l) -> filter (fun s => negb (id s =? i)) l = l.
Proof.
  induction l as [|s l IH]; cbn [filter ids map]; intros Hn; [reflexivity|].
  destruct (id s =? i) eqn:E; cbn [negb].
  - apply Z.eqb_eq in E. exfalso. apply Hn. left. exact E.
  - rewrite IH; [reflexivity|]. intros H. apply Hn. right. exact H.
Qed.


End Editing.

Lemma parse_digits_run (radix : Z) (s : string) (a : Z) :
  parse_digits radix s (Some a)
  = Some (a * radix ^ Z.of_nat (List.length (digit_run radix s))
          + positional radix (digit_run radix s)).
Proof.
  revert a. induction s as [|c r IH]; intros a; cbn [parse_digits digit_run].
  - cbn [List.length positional Z.of_nat]. f_equal. rewrite Z.pow_0_r. lia.
  - destruct (digit_value radix c) as [d|].
    + rewrite IH. cbn [List.length positional]. f_equal.
      rewrite Nat2Z.inj_succ, Z.pow_succ_r by lia. ring.
    + cbn [List.length positional Z.of_nat]. f_equal. rewrite Z.pow_0_r. lia.
Qed.

Lemma parse_digits_run_start (radix : Z) (s : string) :
  parse_digits radix s None
  = match digit_run radix s with
    | [] => None
    | digits => Some (positional radix digits)
    end.
Proof.
  destruct s as [|c r]; [reflexivity|]. cbn [parse_digits digit_run].
  destruct (digit_value radix c) as [d|]; [|reflexivity].
  rewrite parse_digits_run. reflexivity.
Qed.

(** [parseInt] returns the reading of the text. *)
Lemma parseInt_leading_integer (s : string) :
  parseInt s = match leading_integer s with
               | Some z => num z
               | None => NaN
               end.
Proof.
  unfold parseInt, leading_integer.
  destruct (strip_sign (trimStart s)) as [sign s1].
  destruct (strip_hex_prefix s1) as [radix s2].
  rewrite parse_digits_run_start.
  now destruct (digit_run radix s2).
Qed.

Lemma num_inj (a b : Z) : num a = num b -> a = b.
Proof. unfold num, inject_Z. now intros [= ->]. Qed.

(** C6 at the failing input.  The text ["12abc"] is not a valid integer,
    yet the edit is not refused: [parseInt] reads the digits at its start
    and the mark of the student becomes 12. *)
Theorem edit_commits_invalid_text :
  spec_valid_integer "12abc" = false
  /\ ~ rejects_edit asciiHost loaded 104 math "12abc"
  /\ exists st' s',
       handleMarkEdit asciiHost loaded 104 math "12abc" = Returned st'
       /\ find_student (students loaded) 104 = Some (nth 0 studentsData bob)
       /\ get_mark (marks (nth 0 studentsData bob)) math = num 95
       /\ find_student (students st') 104 = Some s'
       /\ get_mark (marks s') math = num 12.
Proof.
  split; [reflexivity|]. split.
  - unfold rejects_edit. intros [v Hv]. vm_compute in Hv. discriminate Hv.
  - eexists _, _. split; [vm_compute; reflexivity|].
    repeat split; vm_compute; reflexivity.
Qed.





(** ** Agreement with binary64 arithmetic *)

(** For every sum of five marks between 0 and 100, the doubles computed by
    [calculateAverage] round to the same number of tenths as the exact
    model, twice the sum. *)
Lemma rounded_tenths_binary64_exact (sum : Z) :
  0 <= sum <= 500 -> rounded_tenths_binary64 sum = Some (2 * sum).
Proof.
  intros H.
  assert (Hall : forallb
                   (fun n => match rounded_tenths_binary64 (Z.of_nat n) with
                             | Some k => k =? 2 * Z.of_nat n
                             | None => false
                             end) (seq 0 501) = true).
  { vm_compute. reflexivity. }
  rewrite forallb_forall in Hall.
  specialize (Hall (Z.to_nat sum)). rewrite Z2Nat.id in Hall by lia.
  assert (Hin : In (Z.to_nat sum) (seq 0 501)) by (apply in_seq; lia).
  specialize (Hall Hin).
  destruct (rounded_tenths_binary64 sum) as [k|]; [|discriminate].
  apply Z.eqb_eq in Hall. now subst.
Qed.

(** The doubles [k / 10] for the possible numbers of tenths are strictly
    increasing, so comparing averages as doubles is comparing them as
    rationals. *)
Lemma tenths_binary64_increasing (k : Z) :
  0 <= k <= 1000 -> PrimFloat.ltb (tenths_binary64 k) (tenths_binary64 (k + 1)) = true.
Proof.
  intros H.
  assert (Hall : forallb
                   (fun n => PrimFloat.ltb (tenths_binary64 (Z.of_nat n))
                               (tenths_binary64 (Z.of_nat n + 1)))
                   (seq 0 1001) = true).
  { vm_compute. reflexivity. }
  rewrite forallb_forall in Hall.
  specialize (Hall (Z.to_nat k)). rewrite Z2Nat.id in Hall by lia.
  apply Hall. apply in_seq. lia.
Qed.

(** * Further properties of the derivation engine *)

(** ** Ranking of an arbitrary roster *)

Lemma assignRanks_length l i prev currentRank :
  List.length (assignRanks i prev currentRank l) = List.length l.
Proof.
  rewrite <- (assignRanks_entries l i prev currentRank) at 2.
  now rewrite length_map.
Qed.

Lemma assignRanks_bounds l i prev currentRank :
  1 <= currentRank <= Z.of_nat i + 1 ->
  let ranks := map rank (assignRanks i prev currentRank l) in
  Forall (fun r => currentRank <= r) ranks
  /\ StronglySorted Z.le ranks
  /\ (forall j r, nth_error ranks j = Some r -> 1 <= r <= Z.of_nat (i + j) + 1).
Proof.
  revert i prev currentRank.
  induction l as [|[s avg] rest IH]; intros i prev cur Hcur; cbn [assignRanks map].
  - split; [constructor|]. split; [constructor|]. intros [|j] r; discriminate.
  - set (cur' := if (Nat.ltb 0 i
                     && match prev with Some p => num_lt avg p | None => false end)%bool
                 then Z.of_nat i + 1 else cur).
    assert (Hcur' : cur <= cur' /\ 1 <= cur' <= Z.of_nat i + 1).
    { subst cur'. destruct (_ && _)%bool; lia. }
    assert (Hnext : 1 <= cur' <= Z.of_nat (S i) + 1) by lia.
    destruct (IH (S i) (Some avg) cur' Hnext) as (Hge & Hsorted & Hnth).
    cbn [rank]. split; [|split].
    + constructor; [lia|]. eapply Forall_impl; [|exact Hge]. cbn beta. lia.
    + constructor; [exact Hsorted|exact Hge].
    + intros [|j] r H; cbn [nth_error] in H.
      * injection H as <-. lia.
      * apply Hnth in H. lia.
Qed.

Lemma calculateRanks_length (roster : list Student) :
  List.length (calculateRanks roster) = List.length roster.
Proof.
  unfold calculateRanks. rewrite assignRanks_length.
  rewrite (Permutation_length (Array_sort_perm _ _)). apply length_map.
Qed.

Lemma calculateRanks_ranks_sorted (roster : list Student) :
  StronglySorted Z.le (map rank (calculateRanks roster)).
Proof.
  unfold calculateRanks.
  destruct (assignRanks_bounds
              (Array_sort byAverageDesc
                 (map (fun s => (s, calculateAverage (marks s))) roster))
              0 None 1) as (_ & Hsorted & _); [lia|exact Hsorted].
Qed.

(** X1.  Whatever the marks are, [NaN] included, [calculateRanks] returns
    as many entries as the roster has students, the first entry has rank 1,
    the ranks never decrease along the result, and the entry at position
    [j] (from 0) has a rank between 1 and [j + 1]. *)
Theorem calculateRanks_rank_bounds (roster : list Student) :
  let ranks := map rank (calculateRanks roster) in
  List.length (calculateRanks roster) = List.length roster
  /\ (roster <> [] -> nth_error ranks 0 = Some 1)
  /\ StronglySorted Z.le ranks
  /\ (forall j r, nth_error ranks j = Some r -> 1 <= r <= Z.of_nat j + 1).
Proof.
  intros ranks. subst ranks. unfold calculateRanks.
  set (entries := Array_sort byAverageDesc _).
  assert (Hlen : List.length entries = List.length roster).
  { subst entries. rewrite (Permutation_length (Array_sort_perm _ _)).
    apply length_map. }
  destruct (assignRanks_bounds entries 0 None 1) as (_ & Hsorted & Hnth); [lia|].
  split; [now rewrite assignRanks_length|]. split; [|split; [exact Hsorted|exact Hnth]].
  intros Hne. destruct entries as [|[s avg] rest].
  - destruct roster; [contradiction|discriminate].
  - reflexivity.
Qed.

(** ** Ties keep the order of the roster *)

Lemma same_average_not_after v a b :
  same_average v (snd a) = true -> same_average v (snd b) = true ->
  sorts_after byAverageDesc a b = false.
Proof.
  destruct a as [s [|x]], b as [t [|y]], v as [|z]; cbn [snd same_average];
    try discriminate; try reflexivity.
  intros Hx Hy. apply Qeq_bool_iff in Hx, Hy.
  apply not_true_iff_false. rewrite sorts_after_byAverageDesc.
  rewrite <- Hx, <- Hy. apply Qlt_irrefl.
Qed.

Lemma sort_insert_stable v a l :
  filter (fun p => same_average v (snd p)) (sort_insert byAverageDesc a l)
  = filter (fun p => same_average v (snd p)) (a :: l).
Proof.
  induction l as [|b r IH]; cbn [sort_insert]; [reflexivity|].
  destruct (sorts_after byAverageDesc a b) eqn:E; [|reflexivity].
  cbn [filter] in *. rewrite IH.
  destruct (same_average v (snd a)) eqn:Ea; [|reflexivity].
  destruct (same_average v (snd b)) eqn:Eb; [|reflexivity].
  rewrite (same_average_not_after v a b Ea Eb) in E. discriminate.
Qed.

Lemma Array_sort_stable v l :
  filter (fun p => same_average v (snd p)) (Array_sort byAverageDesc l)
  = filter (fun p => same_average v (snd p)) l.
Proof.
  induction l as [|a r IH]; cbn [Array_sort]; [reflexivity|].
  rewrite sort_insert_stable. cbn [filter]. now rewrite IH.
Qed.

Lemma filter_map_commute {A B : Type} (f : B -> bool) (g : A -> B) (l : list A) :
  filter f (map g l) = map g (filter (fun a => f (g a)) l).
Proof.
  induction l as [|a l IH]; cbn [map filter]; [reflexivity|].
  destruct (f (g a)); cbn [map]; now rewrite IH.
Qed.

Lemma marks_in_range_numeric (m : Marks) : marks_in_range m -> numeric_marks m.
Proof.
  intros H. destruct m as [a b c d e]. unfold numeric_marks, Object_values.
  cbn [on_math on_science on_english on_history on_computer].
  destruct (H math) as (z1 & E1 & _). destruct (H science) as (z2 & E2 & _).
  destruct (H english) as (z3 & E3 & _). destruct (H history) as (z4 & E4 & _).
  destruct (H computer) as (z5 & E5 & _).
  cbn [get_mark on_math on_science on_english on_history on_computer] in *.
  subst. repeat constructor.
Qed.

Lemma calculateRanks_ties (roster : list Student) (v : number) :
  map student (filter (fun x => same_average v (average x)) (calculateRanks roster))
  = filter (fun s => same_average v (calculateAverage (marks s))) roster.
Proof.
  unfold calculateRanks.
  set (entries := Array_sort byAverageDesc _).
  assert (H : map (fun x => (student x, average x))
                (filter (fun x => same_average v (average x))
                   (assignRanks 0 None 1 entries))
              = filter (fun p => same_average v (snd p)) entries).
  { rewrite <- (assignRanks_entries entries 0 None 1) at 2.
    now rewrite filter_map_commute. }
  transitivity (map fst (filter (fun p => same_average v (snd p)) entries)).
  { rewrite <- H, map_map. reflexivity. }
  subst entries. rewrite Array_sort_stable, filter_map_commute, map_map.
  cbn [fst snd]. apply map_id.
Qed.

(** X2.  On a roster whose marks are integers from 0 to 100, where the
    comparator of the ranking sort orders the averages consistently, the
    ranking is in descending order of average and stable: for every value
    of the average, the students with that average stand in the ranking in
    the order in which they stand in the roster. *)
Theorem calculateRanks_ties_keep_roster_order (roster : list Student) :
  Forall (fun s => marks_in_range (marks s)) roster ->
  StronglySorted (fun a b => num_ge (average a) (average b) = true)
    (calculateRanks roster)
  /\ forall v,
       map student
         (filter (fun x => same_average v (average x)) (calculateRanks roster))
       = filter (fun s => same_average v (calculateAverage (marks s))) roster.
Proof.
  intros Hrange. split; [|intros v; apply calculateRanks_ties].
  unfold calculateRanks.
  set (entries := Array_sort byAverageDesc _).
  assert (Hsorted : StronglySorted desc entries).
  { subst entries. apply sorted_byAverageDesc. rewrite Forall_map.
    eapply Forall_impl; [|exact Hrange]. intros s Hs.
    apply calculateAverage_finite, marks_in_range_numeric, Hs. }
  rewrite <- (assignRanks_entries entries 0 None 1) in Hsorted.
  apply sorted_map in Hsorted. exact Hsorted.
Qed.

Lemma calculateRanks_ties_keep_roster_order_witness :
  Forall (fun s => marks_in_range (marks s)) sample_tie
  /\ map (fun x => (name (student x), average x, rank x)) (calculateRanks sample_tie)
     = [("First", Fin 70.0, 1); ("Second", Fin 70.0, 1); ("Low", Fin 60.0, 3)]
  /\ map student
       (filter (fun x => same_average (Fin 70.0) (average x)) (calculateRanks sample_tie))
     = filter (fun s => same_average (Fin 70.0) (calculateAverage (marks s))) sample_tie.
Proof.
  assert (H : Forall (fun s => marks_in_range (marks s)) sample_tie).
  { repeat constructor; intros []; eexists; (split; [reflexivity|]);
      unfold in_range; lia. }
  split; [exact H|]. split; [vm_compute; reflexivity|].
  exact (proj2 (calculateRanks_ties_keep_roster_order sample_tie H) (Fin 70.0)).
Defined.

(** ** Average, grade and insight *)

Lemma spec_mean_bounds (a b c d e : Z) :
  (inject_Z (min5 a b c d e) <= spec_mean a b c d e
   /\ spec_mean a b c d e <= inject_Z (max5 a b c d e))%Q.
Proof.
  unfold spec_mean. split.
  - apply Qle_shift_div_l; [reflexivity|].
    change 5%Q with (inject_Z 5). rewrite <- inject_Z_mult, <- Zle_Qle.
    unfold min5. lia.
  - apply Qle_shift_div_r; [reflexivity|].
    change 5%Q with (inject_Z 5). rewrite <- inject_Z_mult, <- Zle_Qle.
    unfold max5. lia.
Qed.

Lemma calculateAverage_bounds (a b c d e : Z) :
  exists q,
    calculateAverage (marks_of a b c d e) = Fin q
    /\ (q == inject_Z (2 * (a + b + c + d + e)) / 10)%Q
    /\ (inject_Z (min5 a b c d e) <= q <= inject_Z (max5 a b c d e))%Q.
Proof.
  pose proof (calculateAverage_exact_mean a b c d e) as H.
  destruct (calculateAverage (marks_of a b c d e)) as [|q]; [contradiction|].
  exists q. split; [reflexivity|]. cbn [num_eq] in H. rewrite H. split.
  - unfold spec_mean. rewrite inject_Z_mult. field.
  - apply spec_mean_bounds.
Qed.

(** On doubles: a mark [m] and a number of tenths [k] with [m <= k / 10]
    compare the same way once [k / 10] is rounded to a double, and
    likewise for [k / 10 <= m]. *)
Lemma tenths_binary64_bounds (m k : Z) :
  0 <= m <= 100 -> 0 <= k <= 1000 ->
  (10 * m <= k -> PrimFloat.leb (float_of_Z m) (tenths_binary64 k) = true)
  /\ (k <= 10 * m -> PrimFloat.leb (tenths_binary64 k) (float_of_Z m) = true).
Proof.
  intros Hm Hk.
  assert (Hall :
    forallb
      (fun i =>
         forallb
           (fun j =>
              let m := Z.of_nat i in
              let k := Z.of_nat j in
              (if 10 * m <=? k
               then PrimFloat.leb (float_of_Z m) (tenths_binary64 k) else true)
              && (if k <=? 10 * m
                  then PrimFloat.leb (tenths_binary64 k) (float_of_Z m) else true))
           (seq 0 1001))
      (seq 0 101) = true).
  { vm_compute. reflexivity. }
  rewrite forallb_forall in Hall.
  specialize (Hall (Z.to_nat m)).
  assert (Hin : In (Z.to_nat m) (seq 0 101)) by (apply in_seq; lia).
  specialize (Hall Hin). rewrite forallb_forall in Hall.
  specialize (Hall (Z.to_nat k)).
  assert (Hin' : In (Z.to_nat k) (seq 0 1001)) by (apply in_seq; lia).
  specialize (Hall Hin'). cbv zeta in Hall. rewrite !Z2Nat.id in Hall by lia.
  apply andb_true_iff in Hall. destruct Hall as [H1 H2]. split; intros H.
  - apply Z.leb_le in H. now rewrite H in H1.
  - apply Z.leb_le in H. now rewrite H in H2.
Qed.

(** X3.  The average of five marks that are integers from 0 to 100 lies
    between the smallest and the greatest of them.  This holds of the
    exact average, and of the double the program computes: the number of
    tenths [k] that [Math.round] returns on doubles is that of the exact
    average, and the double [k / 10] compares with the smallest and the
    greatest mark as the exact average does. *)
Theorem calculateAverage_between_min_max (a b c d e : Z) :
  in_range a -> in_range b -> in_range c -> in_range d -> in_range e ->
  exists q k,
    calculateAverage (marks_of a b c d e) = Fin q
    /\ (inject_Z (min5 a b c d e) <= q <= inject_Z (max5 a b c d e))%Q
    /\ rounded_tenths_binary64 (a + b + c + d + e) = Some k
    /\ (q == inject_Z k / 10)%Q
    /\ PrimFloat.leb (float_of_Z (min5 a b c d e)) (tenths_binary64 k) = true
    /\ PrimFloat.leb (tenths_binary64 k) (float_of_Z (max5 a b c d e)) = true.
Proof.
  unfold in_range. intros Ha Hb Hc Hd He.
  destruct (calculateAverage_bounds a b c d e) as (q & Hq & Hk & Hmin & Hmax).
  exists q, (2 * (a + b + c + d + e)).
  split; [exact Hq|]. split; [exact (conj Hmin Hmax)|].
  split; [apply rounded_tenths_binary64_exact; lia|]. split; [exact Hk|].
  assert (Hlo : 0 <= min5 a b c d e <= 100) by (unfold min5; lia).
  assert (Hhi : 0 <= max5 a b c d e <= 100) by (unfold max5; lia).
  assert (Hsum : 0 <= 2 * (a + b + c + d + e) <= 1000) by lia.
  split.
  - apply (tenths_binary64_bounds _ _ Hlo Hsum). unfold min5. lia.
  - apply (tenths_binary64_bounds _ _ Hhi Hsum). unfold max5. lia.
Qed.

Lemma calculateAverage_between_min_max_witness :
  (in_range 95 /\ in_range 92 /\ in_range 88 /\ in_range 90 /\ in_range 98)
  /\ exists q,
       calculateAverage (marks_of 95 92 88 90 98) = Fin q
       /\ (88 <= q <= 98)%Q.
Proof.
  assert (H95 : in_range 95) by (unfold in_range; lia).
  assert (H92 : in_range 92) by (unfold in_range; lia).
  assert (H88 : in_range 88) by (unfold in_range; lia).
  assert (H90 : in_range 90) by (unfold in_range; lia).
  assert (H98 : in_range 98) by (unfold in_range; lia).
  split; [exact (conj H95 (conj H92 (conj H88 (conj H90 H98))))|].
  destruct (calculateAverage_between_min_max 95 92 88 90 98 H95 H92 H88 H90 H98)
    as (q & k & Hq & Hbounds & _).
  exists q. split; [exact Hq|exact Hbounds].
Defined.

Lemma calculateAverage_NaN (m : Marks) (subject : Subject) :
  get_mark m subject = NaN -> calculateAverage m = NaN.
Proof.
  destruct m as [a b c d e], subject; cbn [get_mark on_math on_science on_english
    on_history on_computer]; intros ->;
    repeat match goal with
      | x : number |- _ => destruct x
      end; reflexivity.
Qed.

Lemma calculateRanks_entry (roster : list Student) (x : RankedStudent) :
  In x (calculateRanks roster) ->
  In (student x) roster /\ average x = calculateAverage (marks (student x)).
Proof.
  intros Hx. unfold calculateRanks in Hx.
  set (entries := Array_sort byAverageDesc _) in Hx.
  assert (Hin : In (student x, average x) entries).
  { rewrite <- (assignRanks_entries entries 0 None 1).
    apply (in_map (fun x => (student x, average x))), Hx. }
  apply (Permutation_in _ (Array_sort_perm _ _)) in Hin.
  apply in_map_iff in Hin. destruct Hin as (s & Hs & Hroster).
  injection Hs as <- <-. split; [exact Hroster|reflexivity].
Qed.

Lemma getInsight_status (s : Student) :
  let a := calculateAverage (marks s) in
  status (getInsight s)
  = (if num_ge a (num 75) then "Excellent"
     else if num_ge a (num 50) then "Average" else "Needs Improvement")
  /\ statusClass (getInsight s)
     = (if num_ge a (num 75) then "insight-excellent"
        else if num_ge a (num 50) then "insight-average"
        else "insight-needs-improvement")
  /\ insight_average (getInsight s) = a.
Proof.
  intros a. unfold getInsight. fold a.
  destruct (fold_left _ (Object_entries (marks s)) ([], [])) as [st wk].
  destruct (num_ge a (num 75)); [repeat split|].
  destruct (num_ge a (num 50)); repeat split.
Qed.

(** X4.  A mark that is not a number makes the average [NaN]; the student
    is then graded [Fail] and reported as [Needs Improvement], and is shown
    neither by the ['top'] nor by the ['below'] filter. *)
Theorem NaN_mark_consequences (host : Host)
    (roster : list Student) (x : RankedStudent) (subject : Subject) :
  In x (calculateRanks roster) ->
  get_mark (marks (student x)) subject = NaN ->
  average x = NaN
  /\ getGrade (average x) = "Fail"
  /\ getPerformanceClass (average x) = "mark-needs-improvement"
  /\ status (getInsight (student x)) = "Needs Improvement"
  /\ (forall searchValue sort,
        ~ In x (renderTable_view host roster searchValue "top" sort)
        /\ ~ In x (renderTable_view host roster searchValue "below" sort)).
Proof.
  intros Hx Hnan.
  destruct (calculateRanks_entry roster x Hx) as [_ Havg].
  pose proof (calculateAverage_NaN _ _ Hnan) as Hcalc.
  assert (Ha : average x = NaN) by congruence.
  split; [exact Ha|]. rewrite Ha. split; [reflexivity|]. split; [reflexivity|].
  split.
  - rewrite (proj1 (getInsight_status (student x))), Hcalc. reflexivity.
  - intros searchValue sort. split; intros Hin;
      apply (Permutation_in _ (renderTable_view_perm _ _ _ _ _)) in Hin;
      apply filter_In in Hin; destruct Hin as [_ Hk];
      apply andb_true_iff in Hk; destruct Hk as [_ Hk];
      unfold category_keeps in Hk; cbn [String.eqb Ascii.eqb Bool.eqb] in Hk;
      rewrite Ha in Hk; discriminate.
Qed.

Lemma NaN_mark_consequences_witness :
  In (mkRanked absentee NaN 1) (calculateRanks (absentee :: studentsData))
  /\ get_mark (marks absentee) english = NaN
  /\ getGrade (average (mkRanked absentee NaN 1)) = "Fail"
  /\ ~ In (mkRanked absentee NaN 1)
         (renderTable_view asciiHost (absentee :: studentsData) "" "below" "rank").
Proof.
  assert (Hin : In (mkRanked absentee NaN 1) (calculateRanks (absentee :: studentsData))).
  { vm_compute. left. reflexivity. }
  split; [exact Hin|]. split; [reflexivity|].
  destruct (NaN_mark_consequences asciiHost (absentee :: studentsData)
              (mkRanked absentee NaN 1) english Hin eq_refl)
    as (_ & Hgrade & _ & _ & Hview).
  split; [exact Hgrade|]. exact (proj2 (Hview "" "rank")).
Defined.

Lemma num_ge_mono (a : number) (x y : Z) :
  y <= x -> num_ge a (num x) = true -> num_ge a (num y) = true.
Proof.
  destruct a as [|q]; [discriminate|]. unfold num. rewrite !num_ge_Fin.
  intros Hyx H. eapply Qle_trans; [|exact H]. now rewrite <- Zle_Qle.
Qed.

(** X5.  The status of the insight panel, the class of the average cell
    and the grade agree on every average: [Excellent] and [mark-excellent]
    go with the grades A+ and A, [Average] and [mark-average] with B and C,
    [Needs Improvement] and [mark-needs-improvement] with Fail. *)
Theorem status_agrees_with_grade (s : Student) :
  let a := calculateAverage (marks s) in
  (status (getInsight s) = "Excellent"
   <-> getGrade a = "A+" \/ getGrade a = "A")
  /\ (status (getInsight s) = "Average"
      <-> getGrade a = "B" \/ getGrade a = "C")
  /\ (status (getInsight s) = "Needs Improvement" <-> getGrade a = "Fail")
  /\ (getPerformanceClass a = "mark-excellent" <-> status (getInsight s) = "Excellent")
  /\ (getPerformanceClass a = "mark-average" <-> status (getInsight s) = "Average")
  /\ (getPerformanceClass a = "mark-needs-improvement"
      <-> status (getInsight s) = "Needs Improvement").
Proof.
  intros a. rewrite (proj1 (getInsight_status s)). fold a.
  unfold getGrade, getPerformanceClass.
  pose proof (num_ge_mono a 90 75 ltac:(lia)) as H1.
  pose proof (num_ge_mono a 75 60 ltac:(lia)) as H2.
  pose proof (num_ge_mono a 60 50 ltac:(lia)) as H3.
  destruct (num_ge a (num 90)) eqn:E90;
    [assert (E75 : num_ge a (num 75) = true) by (apply H1; reflexivity)
    |destruct (num_ge a (num 75)) eqn:E75];
    try rewrite E75;
    (destruct (num_ge a (num 60)) eqn:E60;
     [assert (E50 : num_ge a (num 50) = true) by (apply H3; reflexivity)
     |destruct (num_ge a (num 50)) eqn:E50]);
    try rewrite E50;
    try (rewrite (H2 E75) in E60; discriminate);
    repeat split; intros H; try discriminate; try reflexivity;
    try (destruct H; discriminate); auto.
Qed.

(** ** Strengths and weaknesses *)

Lemma num_lt_50_not_ge_75 (a : number) :
  num_lt a (num 50) = true -> num_ge a (num 75) = false.
Proof.
  destruct a as [|q]; [discriminate|]. unfold num. rewrite num_lt_Fin.
  intros H. apply not_true_iff_false. rewrite num_ge_Fin. intros H'.
  assert (H75 : (inject_Z 50 < inject_Z 75)%Q) by (rewrite <- Zlt_Qlt; lia).
  apply (Qlt_irrefl q). eapply Qlt_le_trans; [exact H|].
  eapply Qle_trans; [apply Qlt_le_weak, H75|exact H'].
Qed.

Lemma insight_loop (entries : list (Subject * number)) (acc : list string * list string) :
  fold_left
    (fun (acc : list string * list string) '(subject, mark) =>
       if num_ge mark (num 75)
       then (fst acc ++ [SUBJECT_LABELS subject], snd acc)
       else if num_lt mark (num 50)
       then (fst acc, snd acc ++ [SUBJECT_LABELS subject])
       else acc)
    entries acc
  = (fst acc
     ++ map (fun p => SUBJECT_LABELS (fst p))
          (filter (fun p => num_ge (snd p) (num 75)) entries),
     snd acc
     ++ map (fun p => SUBJECT_LABELS (fst p))
          (filter (fun p => num_lt (snd p) (num 50)) entries)).
Proof.
  revert acc. induction entries as [|[subject mark] rest IH]; intros [st wk];
    cbn [fold_left filter map fst snd].
  - now rewrite !app_nil_r.
  - rewrite IH. destruct (num_ge mark (num 75)) eqn:E75.
    + destruct (num_lt mark (num 50)) eqn:E50.
      * rewrite (num_lt_50_not_ge_75 _ E50) in E75. discriminate.
      * cbn [fst snd map]. now rewrite <- app_assoc.
    + destruct (num_lt mark (num 50)); cbn [fst snd map]; [|reflexivity].
      now rewrite <- app_assoc.
Qed.

Lemma getInsight_lists (s : Student) :
  strengths (getInsight s) = labels_where (fun v => num_ge v (num 75)) (marks s)
  /\ weaknesses (getInsight s) = labels_where (fun v => num_lt v (num 50)) (marks s).
Proof.
  unfold getInsight. rewrite insight_loop. cbn [fst snd app].
  destruct (if num_ge _ _ then _ else _) as [st cls].
  cbn [strengths weaknesses]. unfold labels_where, Object_entries.
  rewrite !filter_map_commute, !map_map. cbn [fst snd]. split; reflexivity.
Qed.

(** X6.  [getInsight] lists as strengths the labels of the subjects with a
    mark of 75 or more and as weaknesses those with a mark below 50, both in
    subject order; no subject is in both lists, and a subject whose mark is
    from 50 up to 75, or is not a number, is in neither. *)
Theorem getInsight_strengths_weaknesses (s : Student) :
  strengths (getInsight s) = labels_where (fun v => num_ge v (num 75)) (marks s)
  /\ weaknesses (getInsight s) = labels_where (fun v => num_lt v (num 50)) (marks s)
  /\ (forall subject,
        (In (SUBJECT_LABELS subject) (strengths (getInsight s))
         <-> num_ge (get_mark (marks s) subject) (num 75) = true)
        /\ (In (SUBJECT_LABELS subject) (weaknesses (getInsight s))
            <-> num_lt (get_mark (marks s) subject) (num 50) = true)
        /\ ~ (In (SUBJECT_LABELS subject) (strengths (getInsight s))
              /\ In (SUBJECT_LABELS subject) (weaknesses (getInsight s)))).
Proof.
  destruct (getInsight_lists s) as [Hs Hw]. rewrite Hs, Hw.
  split; [reflexivity|]. split; [reflexivity|].
  assert (Hin : forall test subject,
            In (SUBJECT_LABELS subject) (labels_where test (marks s))
            <-> test (get_mark (marks s) subject) = true).
  { intros test subject. unfold labels_where. rewrite in_map_iff. split.
    - intros (subject' & E & Hf). apply SUBJECT_LABELS_inj in E. subst subject'.
      apply filter_In in Hf. tauto.
    - intros H. exists subject. split; [reflexivity|].
      apply filter_In. split; [apply subject_in_SUBJECTS|exact H]. }
  intros subject. split; [apply Hin|]. split; [apply Hin|].
  rewrite !Hin. intros [H75 H50]. apply num_lt_50_not_ge_75 in H50. congruence.
Qed.

Lemma num_ge_num (x y : Z) : num_ge (num x) (num y) = (y <=? x).
Proof.
  apply eq_true_iff_eq. unfold num. rewrite num_ge_Fin, <- Zle_Qle.
  symmetry. apply Z.leb_le.
Qed.

Lemma num_lt_num (x y : Z) : num_lt (num x) (num y) = (x <? y).
Proof.
  apply eq_true_iff_eq. unfold num. rewrite num_lt_Fin, <- Zlt_Qlt.
  symmetry. apply Z.ltb_lt.
Qed.

Lemma labels_where_marks_of (test : number -> bool) (a b c d e : Z) :
  labels_where test (marks_of a b c d e)
  = map SUBJECT_LABELS
      (filter (fun subject =>
                 test (num (match subject with
                            | math => a | science => b | english => c
                            | history => d | computer => e
                            end)))
         SUBJECTS).
Proof.
  reflexivity.
Qed.

(** X7.  When all five marks are integers below 50, the insight is
    [Needs Improvement] with every subject a weakness and no strength; when
    all five are integers of 75 or more, it is [Excellent] with every
    subject a strength and no weakness. *)
Theorem getInsight_uniform_marks (i : Z) (roll nm : string) (a b c d e : Z) :
  let s := mkStudent i roll nm (marks_of a b c d e) in
  (a < 50 /\ b < 50 /\ c < 50 /\ d < 50 /\ e < 50 ->
   status (getInsight s) = "Needs Improvement"
   /\ strengths (getInsight s) = []
   /\ weaknesses (getInsight s) = all_labels)
  /\ (75 <= a /\ 75 <= b /\ 75 <= c /\ 75 <= d /\ 75 <= e ->
      status (getInsight s) = "Excellent"
      /\ strengths (getInsight s) = all_labels
      /\ weaknesses (getInsight s) = []).
Proof.
  intros s.
  destruct (calculateAverage_bounds a b c d e) as (q & Hq & _ & Hmin & Hmax).
  destruct (getInsight_lists s) as [Hs Hw].
  pose proof (proj1 (getInsight_status s)) as Hstatus.
  cbn zeta in Hstatus. cbn [marks s] in Hstatus, Hs, Hw.
  rewrite Hq in Hstatus. rewrite labels_where_marks_of in Hs, Hw.
  rewrite Hstatus, Hs, Hw. clear Hstatus Hs Hw. split.
  - intros (Ha & Hb & Hc & Hd & He).
    assert (H50 : num_ge (Fin q) (num 50) = false).
    { apply not_true_iff_false. unfold num. rewrite num_ge_Fin. intros H.
      assert (Hlt : (inject_Z (max5 a b c d e) < inject_Z 50)%Q).
      { rewrite <- Zlt_Qlt. unfold max5. lia. }
      apply (Qlt_irrefl q). eapply Qle_lt_trans; [exact Hmax|].
      eapply Qlt_le_trans; [exact Hlt|exact H]. }
    assert (H75 : num_ge (Fin q) (num 75) = false).
    { apply not_true_iff_false. intros H. apply (num_ge_mono _ 75 50) in H; [|lia].
      congruence. }
    rewrite H75, H50. split; [reflexivity|].
    cbn [filter SUBJECTS]. rewrite !num_ge_num, !num_lt_num.
    repeat match goal with
      | |- context [75 <=? ?x] => replace (75 <=? x) with false
             by (symmetry; apply Z.leb_gt; lia)
      | |- context [?x <? 50] => replace (x <? 50) with true
             by (symmetry; apply Z.ltb_lt; lia)
      end.
    split; reflexivity.
  - intros (Ha & Hb & Hc & Hd & He).
    assert (H75 : num_ge (Fin q) (num 75) = true).
    { unfold num. rewrite num_ge_Fin. eapply Qle_trans; [|exact Hmin].
      rewrite <- Zle_Qle. unfold min5. lia. }
    rewrite H75. split; [reflexivity|].
    cbn [filter SUBJECTS]. rewrite !num_ge_num, !num_lt_num.
    repeat match goal with
      | |- context [75 <=? ?x] => replace (75 <=? x) with true
             by (symmetry; apply Z.leb_le; lia)
      | |- context [?x <? 50] => replace (x <? 50) with false
             by (symmetry; apply Z.ltb_ge; lia)
      end.
    split; reflexivity.
Qed.

Lemma getInsight_uniform_marks_witness :
  (45 < 50 /\ 40 < 50 /\ 30 < 50 /\ 20 < 50 /\ 10 < 50)
  /\ status (getInsight (mkStudent 9 "109" "Low" (marks_of 45 40 30 20 10)))
     = "Needs Improvement"
  /\ weaknesses (getInsight (mkStudent 9 "109" "Low" (marks_of 45 40 30 20 10)))
     = ["Math"; "Science"; "English"; "History"; "Computer"].
Proof.
  assert (H : 45 < 50 /\ 40 < 50 /\ 30 < 50 /\ 20 < 50 /\ 10 < 50) by lia.
  split; [exact H|].
  destruct (proj1 (getInsight_uniform_marks 9 "109" "Low" 45 40 30 20 10) H)
    as (Hstatus & _ & Hweak).
  split; [exact Hstatus|exact Hweak].
Defined.

(** ** Category filter and display order *)

Lemma getGrade_top (a : number) :
  num_ge a (num 75) = true <-> getGrade a = "A+" \/ getGrade a = "A".
Proof.
  unfold getGrade. pose proof (num_ge_mono a 90 75 ltac:(lia)) as H.
  destruct (num_ge a (num 90)) eqn:E90.
  - rewrite (H eq_refl). split; auto.
  - destruct (num_ge a (num 75)); [split; auto|].
    destruct (num_ge a (num 60)), (num_ge a (num 50));
      split; intros H'; try discriminate; destruct H'; discriminate.
Qed.

Lemma getGrade_Fail (a : number) : num_ge a (num 50) = false <-> getGrade a = "Fail".
Proof.
  unfold getGrade.
  pose proof (num_ge_mono a 90 50 ltac:(lia)) as H90.
  pose proof (num_ge_mono a 75 50 ltac:(lia)) as H75.
  pose proof (num_ge_mono a 60 50 ltac:(lia)) as H60.
  destruct (num_ge a (num 50)) eqn:E50.
  - destruct (num_ge a (num 90)), (num_ge a (num 75)), (num_ge a (num 60));
      split; intros H; discriminate.
  - destruct (num_ge a (num 90)); [discriminate (H90 eq_refl)|].
    destruct (num_ge a (num 75)); [discriminate (H75 eq_refl)|].
    destruct (num_ge a (num 60)); [discriminate (H60 eq_refl)|].
    split; reflexivity.
Qed.

Lemma num_lt_not_ge (a : number) (x : Z) :
  num_lt a (num x) = true <-> num_ge a (num x) = false /\ a <> NaN.
Proof.
  destruct a as [|q].
  - split; [discriminate|]. intros [_ H]. now contradiction H.
  - unfold num. rewrite num_lt_Fin. split.
    + intros H. split; [|discriminate]. apply not_true_iff_false.
      rewrite num_ge_Fin. now apply Qlt_not_le.
    + intros [H _]. apply not_true_iff_false in H. rewrite num_ge_Fin in H.
      now apply Qnot_le_lt.
Qed.

Lemma renderTable_view_In (host : Host)
    (roster : list Student) (searchValue filter sort : string) (x : RankedStudent) :
  In x (renderTable_view host roster searchValue filter sort)
  <-> In x (calculateRanks roster)
      /\ searched host searchValue x = true
      /\ category_keeps filter x = true.
Proof.
  split.
  - intros H. apply (Permutation_in _ (renderTable_view_perm _ _ _ _ _)) in H.
    apply filter_In in H. destruct H as [H1 H2]. apply andb_true_iff in H2. tauto.
  - intros (H1 & H2 & H3).
    apply (Permutation_in _ (Permutation_sym (renderTable_view_perm _ _ _ _ _))).
    apply filter_In. split; [exact H1|]. now rewrite H2, H3.
Qed.

(** X8.  Under any search term and sort key, the ['top'] filter shows
    exactly the students shown under ['all'] whose grade is A+ or A, and the
    ['below'] filter exactly those whose grade is Fail and whose average is
    a number. *)
Theorem category_filter_by_grade (host : Host)
    (roster : list Student) (searchValue sort : string) (x : RankedStudent) :
  (In x (renderTable_view host roster searchValue "top" sort)
   <-> In x (renderTable_view host roster searchValue "all" sort)
       /\ (getGrade (average x) = "A+" \/ getGrade (average x) = "A"))
  /\ (In x (renderTable_view host roster searchValue "below" sort)
      <-> In x (renderTable_view host roster searchValue "all" sort)
          /\ getGrade (average x) = "Fail" /\ average x <> NaN).
Proof.
  rewrite !renderTable_view_In.
  change (category_keeps "top" x) with (num_ge (average x) (num 75)).
  change (category_keeps "below" x) with (num_lt (average x) (num 50)).
  change (category_keeps "all" x) with true.
  rewrite <- getGrade_top, <- getGrade_Fail, num_lt_not_ge. tauto.
Qed.

Lemma sorted_filter {A : Type} (R : A -> A -> Prop) (f : A -> bool) (l : list A) :
  StronglySorted R l -> StronglySorted R (filter f l).
Proof.
  induction 1 as [|a l Hl IH Ha]; cbn [filter]; [constructor|].
  destruct (f a); [|exact IH]. constructor; [exact IH|].
  eapply incl_Forall; [apply incl_filter|exact Ha].
Qed.

Lemma sorted_map_image {A B : Type} (g : A -> B) (R : B -> B -> Prop) (l : list A) :
  StronglySorted (fun a b => R (g a) (g b)) l -> StronglySorted R (map g l).
Proof.
  induction 1 as [|a l Hl IH Ha]; cbn [map]; constructor; [exact IH|].
  rewrite Forall_map. exact Ha.
Qed.

(** X9.  With a sort key other than [name] and [roll] the table keeps the
    order of the ranking: the displayed ranks never decrease from one row
    to the next. *)
Theorem renderTable_view_rank_order (host : Host)
    (roster : list Student) (searchValue filter sort : string) :
  sort <> "name" -> sort <> "roll" ->
  StronglySorted Z.le
    (map rank (renderTable_view host roster searchValue filter sort)).
Proof.
  intros Hname Hroll. rewrite renderTable_view_filtered.
  apply String.eqb_neq in Hname, Hroll. rewrite Hname, Hroll.
  apply sorted_map_image, sorted_filter.
  apply (sorted_map rank Z.le).
  apply calculateRanks_ranks_sorted.
Qed.

Lemma renderTable_view_rank_order_witness :
  "rank" <> "name" /\ "rank" <> "roll"
  /\ StronglySorted Z.le
       (map rank (renderTable_view asciiHost studentsData "a" "all" "rank")).
Proof.
  assert (H1 : "rank" <> "name") by discriminate.
  assert (H2 : "rank" <> "roll") by discriminate.
  split; [exact H1|]. split; [exact H2|].
  exact (renderTable_view_rank_order asciiHost studentsData "a" "all" "rank" H1 H2).
Defined.

(** ** CSV export *)

(** X10.  The export has one row for every student of the roster, whatever
    the table currently shows, each row with as many fields as the header
    has names (ten); the rows follow the ranking, so their first fields are
    the ranks in non-decreasing order, and their roll numbers are those of
    the roster in some order. *)
Theorem exportToCSV_shape (roster : list Student) :
  List.length (exportToCSV_rows roster) = List.length roster
  /\ List.length exportToCSV_headers = 10%nat
  /\ Forall (fun row => List.length row = List.length exportToCSV_headers)
       (exportToCSV_rows roster)
  /\ map (fun row => nth 0 row (TextField "")) (exportToCSV_rows roster)
     = map (fun x => NumberField (num (rank x))) (calculateRanks roster)
  /\ StronglySorted Z.le (map rank (calculateRanks roster))
  /\ Permutation
       (map (fun row => nth 1 row (TextField "")) (exportToCSV_rows roster))
       (map (fun s => TextField (rollNo s)) roster).
Proof.
  unfold exportToCSV_rows. split; [|split; [|split; [|split; [|split]]]].
  - rewrite length_map. apply calculateRanks_length.
  - reflexivity.
  - apply Forall_map, Forall_forall. intros x _. reflexivity.
  - rewrite map_map. reflexivity.
  - apply calculateRanks_ranks_sorted.
  - rewrite map_map. cbn [nth app].
    rewrite <- (map_map student (fun s => TextField (rollNo s))).
    apply Permutation_map, calculateRanks_perm.
Qed.

(** * Further properties of the state machine *)

Lemma rollNo_assign_mark l i subject v :
  map rollNo (assign_mark l i subject v) = map rollNo l.
Proof.
  induction l as [|s l IH]; cbn [assign_mark]; [reflexivity|].
  destruct (id s =? i); cbn [map rollNo]; [reflexivity|now rewrite IH].
Qed.

Lemma find_student_unique (l : list Student) (s : Student) :
  NoDup (ids l) -> In s l -> find_student l (id s) = Some s.
Proof.
  unfold find_student, ids. induction l as [|t l IH]; cbn [find map]; intros Hnd Hin;
    [contradiction|].
  inversion Hnd as [|? ? Hn Hd]; subst.
  destruct Hin as [-> | Hin]; [now rewrite Z.eqb_refl|].
  destruct (id t =? id s) eqn:E; [|now apply IH].
  apply Z.eqb_eq in E. exfalso. apply Hn. rewrite E. now apply in_map.
Qed.

Lemma set_checked_students rows i b :
  map row_student (set_checked rows i b) = map row_student rows.
Proof.
  revert i. induction rows as [|r rows IH]; intros [|i];
    cbn [set_checked map row_student]; try reflexivity.
  now rewrite IH.
Qed.

Section MoreEvents.
Variable host : Host.

Lemma updateAllVisuals_rows st :
  tableBody (updateAllVisuals host st)
  = tableBody (renderTable host st).
Proof.
  unfold updateAllVisuals.
  change (selectedStudentForRadar (renderTable host st))
    with (selectedStudentForRadar st).
  change (students (renderTable host st)) with (students st).
  destruct (selectedStudentForRadar st) as [i|]; [|reflexivity].
  destruct (truthy_id i); [|reflexivity].
  destruct (find_student (students st) i) as [s|]; [|reflexivity].
  destruct (showInsight_display (drawRadarChart (renderTable host st) s) i)
    as (_ & _ & _ & E).
  rewrite E. reflexivity.
Qed.


(** What a click on the checkbox of row [i] does to the selection and to
    the rows. *)
Lemma checkbox_clicked_effect st i r :
  nth_error (tableBody st) i = Some r ->
  let st' := dispatch host st (CheckboxClicked i) in
  students st' = students st
  /\ selectedStudentForRadar st' = selectedStudentForRadar st
  /\ (if checked r
      then selectedStudents st'
           = filter (fun i' => negb (i' =? row_id r)) (selectedStudents st)
           /\ tableBody st' = set_checked (tableBody st) i false
      else if (List.length (selectedStudents st) <? 2)%nat
           then selectedStudents st' = selectedStudents st ++ [row_id r]
                /\ tableBody st' = set_checked (tableBody st) i true
           else st' = st).
Proof.
  intros E st'. subst st'. unfold dispatch, on_row. rewrite E.
  unfold checkbox_change. cbn [tableBody set_tableBody selectedStudents].
  rewrite (nth_error_set_checked _ _ _ _ E). cbn [checked].
  change (row_id (mkRow (row_student r) (negb (checked r)))) with (row_id r).
  destruct (checked r) eqn:C; cbn [negb].
  - match goal with |- context [restoreInsightState ?s] =>
      destruct (restoreInsightState_display s) as (E1 & E2 & E3 & E4) end.
    rewrite E1, E2, E3, E4. repeat split.
  - destruct (List.length (selectedStudents st) <? 2)%nat eqn:Hlt.
    + match goal with |- context [restoreInsightState ?s] =>
        destruct (restoreInsightState_display s) as (E1 & E2 & E3 & E4) end.
      rewrite E1, E2, E3, E4. repeat split.
    + rewrite set_checked_twice. rewrite <- C at 1 2 3.
      rewrite (set_checked_same _ _ _ E), set_tableBody_same. repeat split.
Qed.


Lemma handleMarkEdit_students st i subject text st' :
  handleMarkEdit host st i subject text = Returned st' ->
  exists v,
    students st' = assign_mark (students st) i subject v
    /\ selectedStudents st' = selectedStudents st.
Proof.
  unfold handleMarkEdit.
  destruct (find_student (students st) i); [|discriminate].
  destruct (isNaN _ || _ || _); [discriminate|].
  intros [= <-]. eexists.
  rewrite (proj1 (updateAllVisuals_roster _ _)), (proj2 (updateAllVisuals_roster _ _)).
  split; reflexivity.
Qed.

(** How one event changes the roster. *)
Lemma dispatch_students st ev :
  students (dispatch host st ev) = students st
  \/ (exists i, students (dispatch host st ev)
                = filter (fun s => negb (id s =? i)) (students st))
  \/ (exists i subject v, students (dispatch host st ev)
                          = assign_mark (students st) i subject v)
  \/ (exists newStudent,
        ~ duplicate_rollNo st (rollNo newStudent)
        /\ students (dispatch host st ev) = students st ++ [newStudent]).
Proof.
  destruct ev; cbn [dispatch]; unfold on_row;
    try (left; reflexivity).
  - destruct (nth_error (tableBody st) row) as [r|] eqn:E; [|left; reflexivity].
    left. pose proof (proj1 (checkbox_clicked_effect st row r E)) as H.
    cbn [dispatch] in H. unfold on_row in H. rewrite E in H. exact H.
  - destruct (nth_error (tableBody st) row); [|left; reflexivity].
    left. apply showInsight_display.
  - destruct (nth_error (tableBody st) row); [|left; reflexivity].
    left. apply restoreInsightState_display.
  - destruct (nth_error (tableBody st) row) as [r|]; [|left; reflexivity].
    left. rewrite (proj1 (showInsight_display _ _)).
    unfold selectStudentForRadar. cbn [students set_selectedStudentForRadar].
    destruct (find_student (students st) (row_id r)); reflexivity.
  - destruct (nth_error (tableBody st) row) as [r|]; [|left; reflexivity].
    destruct (handleMarkEdit host st (row_id r) subject textContent)
      as [st'|st' v|e] eqn:E.
    + destruct (handleMarkEdit_students _ _ _ _ _ E) as (v & Hv & _).
      right. right. left. now exists (row_id r), subject, v.
    + apply handleMarkEdit_reverted in E. subst. left. reflexivity.
    + left. reflexivity.
  - destruct (nth_error (tableBody st) row) as [r|]; [|left; reflexivity].
    destruct confirmed; [|left; reflexivity].
    right. left. exists (row_id r). apply deleteStudent_students.
  - left. apply openComparisonModal_display.
  - unfold addStudentForm_submit.
    destruct (existsb _ (students st)) eqn:E; [left; reflexivity|].
    right. right. right. eexists. split; [|apply addStudent_students].
    cbn [rollNo data_rollNo]. rewrite <- existsb_duplicate, E. discriminate.
  - left. apply handlePrint_display.
Qed.

Lemma dispatch_rollNos st ev :
  NoDup (map rollNo (students st)) ->
  NoDup (map rollNo (students (dispatch host st ev))).
Proof.
  intros Hnd.
  destruct (dispatch_students st ev) as [E | [(i & E) | [(i & subject & v & E)
    | (newStudent & Hfresh & E)]]]; rewrite E.
  - exact Hnd.
  - now apply NoDup_map_filter.
  - now rewrite rollNo_assign_mark.
  - rewrite map_app. cbn [map].
    eapply Permutation_NoDup; [apply Permutation_cons_append|].
    constructor; [|exact Hnd].
    intros Hin. apply Hfresh. apply in_map_iff in Hin.
    destruct Hin as (s & Hs & Hin). now exists s.
Qed.

Lemma reachable_rollNos st :
  reachable host st -> NoDup (map rollNo (students st)).
Proof.
  induction 1 as [page|st ev _ IH].
  - cbn. repeat constructor; cbn; intuition discriminate.
  - now apply dispatch_rollNos.
Qed.


End MoreEvents.

(** X11.  In every state the dashboard reaches, the ids of the roster are
    positive and pairwise distinct, so that looking a student up by id
    returns that student, and the roll numbers are pairwise distinct. *)
Theorem roster_keys_unique (host : Host) (st : State) :
  reachable host st ->
  Forall (fun s => 0 < id s) (students st)
  /\ NoDup (ids (students st))
  /\ (forall s, In s (students st) -> find_student (students st) (id s) = Some s)
  /\ NoDup (map rollNo (students st)).
Proof.
  intros Hreach. pose proof (reachable_consistent _ _ Hreach) as Hc.
  pose proof (ids_nodup _ (roster_in_order _ Hc)) as Hnd.
  split; [|split; [exact Hnd|split]].
  - pose proof (ids_positive _ (roster_in_order _ Hc)) as Hpos.
    unfold ids in Hpos. now rewrite Forall_map in Hpos.
  - intros s Hs. now apply find_student_unique.
  - now apply (reachable_rollNos host).
Qed.

Lemma roster_keys_unique_witness :
  reachable asciiHost (addStudentForm_submit asciiHost two_checked oddForm)
  /\ ids (students (addStudentForm_submit asciiHost two_checked oddForm))
     = [104; 101; 103; 102; 105; 106]
  /\ NoDup (map rollNo
              (students (addStudentForm_submit asciiHost two_checked oddForm))).
Proof.
  assert (H : reachable asciiHost
                (addStudentForm_submit asciiHost two_checked oddForm)).
  { change (addStudentForm_submit asciiHost two_checked oddForm)
      with (dispatch asciiHost two_checked (AddFormSubmitted oddForm)).
    unfold two_checked, loaded. repeat apply reach_step. apply reach_init. }
  split; [exact H|]. split; [vm_compute; reflexivity|].
  exact (proj2 (proj2 (proj2 (roster_keys_unique asciiHost _ H)))).
Defined.



(** ** The table never shows stale data *)

Section Rows.
Variable host : Host.

Lemma rows_current_frame st st' :
  students st' = students st ->
  map row_student (tableBody st') = map row_student (tableBody st) ->
  rows_current st -> rows_current st'.
Proof. unfold rows_current. intros -> ->. exact (fun H => H). Qed.

Lemma rows_current_display st st' :
  only_display_changed st st' -> rows_current st -> rows_current st'.
Proof.
  intros (E1 & _ & _ & E4). apply rows_current_frame; [exact E1|now rewrite E4].
Qed.

Lemma rows_current_render st : rows_current (renderTable host st).
Proof.
  unfold rows_current, renderTable. cbn [tableBody students set_tableBody].
  rewrite map_map. cbn [row_student]. rewrite map_id.
  intros x Hx. apply renderTable_view_In in Hx. tauto.
Qed.

Lemma rows_current_update st : rows_current (updateAllVisuals host st).
Proof.
  unfold rows_current. rewrite updateAllVisuals_rows, (proj1 (updateAllVisuals_roster _ _)).
  apply rows_current_render.
Qed.

Lemma dispatch_rows_current st ev :
  rows_current st -> rows_current (dispatch host st ev).
Proof.
  intros Hr. destruct ev; cbn [dispatch]; unfold on_row.
  - exact Hr.
  - apply rows_current_render.
  - apply rows_current_render.
  - apply rows_current_render.
  - destruct (nth_error (tableBody st) row) as [r|] eqn:E; [|exact Hr].
    destruct (checkbox_clicked_effect host st row r E) as (E1 & _ & H).
    cbn [dispatch] in E1, H. unfold on_row in E1, H. rewrite E in E1, H.
    apply (rows_current_frame st); [exact E1| |exact Hr].
    destruct (checked r).
    + rewrite (proj2 H). apply set_checked_students.
    + destruct (List.length (selectedStudents st) <? 2)%nat.
      * rewrite (proj2 H). apply set_checked_students.
      * now rewrite H.
  - destruct (nth_error (tableBody st) row); [|exact Hr].
    eapply rows_current_display; [apply showInsight_display|exact Hr].
  - destruct (nth_error (tableBody st) row); [|exact Hr].
    eapply rows_current_display; [apply restoreInsightState_display|exact Hr].
  - destruct (nth_error (tableBody st) row) as [r|]; [|exact Hr].
    eapply rows_current_display; [apply showInsight_display|].
    unfold selectStudentForRadar. cbn [students set_selectedStudentForRadar].
    destruct (find_student (students st) (row_id r)); exact Hr.
  - destruct (nth_error (tableBody st) row) as [r|]; [|exact Hr].
    unfold handleMarkEdit.
    destruct (find_student (students st) (row_id r)); [|exact Hr].
    destruct (isNaN _ || _ || _); [exact Hr|]. apply rows_current_update.
  - destruct (nth_error (tableBody st) row) as [r|]; [|exact Hr].
    destruct confirmed; [|exact Hr]. apply rows_current_update.
  - eapply rows_current_display; [apply openComparisonModal_display|exact Hr].
  - exact Hr.
  - unfold addStudentForm_submit.
    destruct (existsb _ (students st)); [exact Hr|]. apply rows_current_update.
  - eapply rows_current_display; [apply handlePrint_display|exact Hr].
Qed.

Lemma reachable_rows_current st : reachable host st -> rows_current st.
Proof.
  induction 1 as [page|st ev _ IH].
  - unfold init. eapply rows_current_display; [|apply rows_current_render].
    repeat split.
  - now apply dispatch_rows_current.
Qed.
End Rows.

Lemma table_rows_are_current_aux (host : Host)
    (st : State) (r : Row) :
  reachable host st ->
  In r (tableBody st) ->
  find_student (students st) (row_id r) = Some (student (row_student r)).
Proof.
  intros Hreach Hr.
  assert (Hin : In (row_student r) (calculateRanks (students st))).
  { apply (reachable_rows_current host st Hreach). now apply in_map. }
  destruct (calculateRanks_entry _ _ Hin) as [Hs _].
  apply find_student_unique; [|exact Hs].
  apply (ids_nodup _ (roster_in_order _ (reachable_consistent _ _ Hreach))).
Qed.

(** X13.  In every state the dashboard reaches, every row of the table is
    an entry of the ranking of the roster as it is now: the student in the
    row is the student the roster holds under that id, with the current
    marks, and the average and the rank shown are the current ones. *)
Theorem table_rows_are_current (host : Host)
    (st : State) (r : Row) :
  reachable host st ->
  In r (tableBody st) ->
  In (row_student r) (calculateRanks (students st))
  /\ find_student (students st) (row_id r) = Some (student (row_student r))
  /\ average (row_student r) = calculateAverage (marks (student (row_student r))).
Proof.
  intros Hreach Hr.
  assert (Hin : In (row_student r) (calculateRanks (students st))).
  { apply (reachable_rows_current host st Hreach). now apply in_map. }
  destruct (calculateRanks_entry _ _ Hin) as [Hs Havg].
  split; [exact Hin|]. split; [|exact Havg].
  apply find_student_unique; [|exact Hs].
  apply (ids_nodup _ (roster_in_order _ (reachable_consistent _ _ Hreach))).
Qed.

Lemma table_rows_are_current_witness :
  reachable asciiHost tied_on_computer
  /\ In (nth 1 (tableBody tied_on_computer) (mkRow (mkRanked bob NaN 0) false))
        (tableBody tied_on_computer)
  /\ average (row_student
                (nth 1 (tableBody tied_on_computer) (mkRow (mkRanked bob NaN 0) false)))
     = calculateAverage (marks_of 92 88 76 85 98).
Proof.
  assert (H : reachable asciiHost tied_on_computer).
  { unfold tied_on_computer, two_checked, loaded. repeat apply reach_step.
    apply reach_init. }
  assert (Hin : In (nth 1 (tableBody tied_on_computer) (mkRow (mkRanked bob NaN 0) false))
                  (tableBody tied_on_computer)).
  { vm_compute. right. left. reflexivity. }
  split; [exact H|]. split; [exact Hin|].
  rewrite (proj2 (proj2 (table_rows_are_current asciiHost tied_on_computer _ H Hin))).
  vm_compute. reflexivity.
Defined.

(** ** Checking and unchecking *)



(** ** What a change of the roster repaints *)

Section Cascade.
Variable host : Host.

Lemma updateAllVisuals_effect st :
  let st' := updateAllVisuals host st in
  match selectedStudentForRadar st with
  | None =>
      selectedStudentForRadar st' = None
      /\ radarChart st' = radarChart st /\ insightPanel st' = insightPanel st
  | Some f =>
      if truthy_id f then
        match find_student (students st) f with
        | Some s =>
            selectedStudentForRadar st' = Some f
            /\ radarChart st' = RadarOf s
            /\ insightPanel st' = InsightContent (name s) (getInsight s)
        | None =>
            selectedStudentForRadar st' = None
            /\ radarChart st' = EmptyRadar
            /\ insightPanel st' = defaultPlaceholder
        end
      else
        selectedStudentForRadar st' = Some f
        /\ radarChart st' = radarChart st /\ insightPanel st' = insightPanel st
  end.
Proof.
  intros st'. subst st'. unfold updateAllVisuals.
  change (selectedStudentForRadar (renderTable host st))
    with (selectedStudentForRadar st).
  change (students (renderTable host st)) with (students st).
  destruct (selectedStudentForRadar st) as [f|] eqn:Ef; [|now repeat split].
  destruct (truthy_id f); [|now repeat split].
  destruct (find_student (students st) f) as [s|] eqn:Efind; [|repeat split].
  unfold showInsight. cbn [students drawRadarChart set_radarChart].
  change (students (renderTable host st)) with (students st).
  rewrite Efind. repeat split. exact Ef.
Qed.

Lemma drawComparisonChart_others st :
  comparisonModal (drawComparisonChart st) = comparisonModal st
  /\ radarChart (drawComparisonChart st) = radarChart st
  /\ insightPanel (drawComparisonChart st) = insightPanel st.
Proof.
  unfold drawComparisonChart. destruct (negb _); [now repeat split|].
  destruct (nth_error (selectedStudents st) 0); [|now repeat split].
  destruct (nth_error (selectedStudents st) 1); [|now repeat split].
  destruct (find_student (students st) z); [|now repeat split].
  destruct (find_student (students st) z0); [|now repeat split].
  destruct (fold_left _ _ _). now repeat split.
Qed.

(** The state in which [deleteStudent] calls [updateAllVisuals]. *)
Lemma deleteStudent_unfold st i :
  exists st2,
    deleteStudent host st i = updateAllVisuals host st2
    /\ students st2 = filter (fun s => negb (id s =? i)) (students st)
    /\ selectedStudentForRadar st2 = selectedStudentForRadar st
    /\ radarChart st2 = radarChart st
    /\ insightPanel st2 = insightPanel st
    /\ comparisonModal st2
       = (if Array_includes (selectedStudents st) i
          then comparisonModal st
               && negb (List.length
                          (filter (fun sId => negb (sId =? i)%Z) (selectedStudents st))
                        <? 2)%nat
          else comparisonModal st).
Proof.
  unfold deleteStudent. eexists. split; [reflexivity|].
  cbn [selectedStudents set_students].
  destruct (Array_includes (selectedStudents st) i).
  2: { cbn. repeat split. }
  cbn [comparisonModal set_selectedStudents set_students].
  destruct (comparisonModal st) eqn:Em.
  2: { cbn. rewrite ?Em. repeat split. }
  set (st2 := set_selectedStudents _ _).
  destruct (drawComparisonChart_display st2) as (E1 & E2 & E3 & _).
  destruct (drawComparisonChart_others st2) as (F1 & F2 & F3).
  rewrite E2. subst st2. cbn [selectedStudents set_selectedStudents].
  destruct (List.length _ <? 2)%nat;
    cbn [students selectedStudentForRadar radarChart insightPanel comparisonModal
         closeComparisonModal set_comparisonModal negb andb];
    rewrite ?E1, ?E3, ?F1, ?F2, ?F3; cbn; rewrite ?Em; repeat split.
Qed.

Lemma find_student_filter_other (l : list Student) (i f : Z) :
  f <> i ->
  find_student (filter (fun s => negb (id s =? i)) l) f = find_student l f.
Proof.
  intros Hne. unfold find_student.
  induction l as [|s l IH]; cbn [filter find]; [reflexivity|].
  destruct (id s =? i) eqn:Ei; cbn [negb find].
  - apply Z.eqb_eq in Ei. rewrite IH.
    destruct (id s =? f) eqn:Ef; [|reflexivity].
    apply Z.eqb_eq in Ef. congruence.
  - destruct (id s =? f); [reflexivity|exact IH].
Qed.

Lemma find_student_filter_self (l : list Student) (i : Z) :
  find_student (filter (fun s => negb (id s =? i)) l) i = None.
Proof.
  destruct (find_student _ i) as [s|] eqn:E; [|reflexivity].
  apply find_student_Some in E. destruct E as [Hin Hid].
  apply filter_In in Hin. destruct Hin as [_ H]. rewrite Hid, Z.eqb_refl in H.
  discriminate.
Qed.

Lemma find_student_assign_mark (l : list Student) (i f : Z) subject v :
  In f (ids l) ->
  exists s', find_student (assign_mark l i subject v) f = Some s'.
Proof.
  intros Hin. apply find_student_present. now rewrite ids_assign_mark.
Qed.
End Cascade.

(** X15.  A click on a row of a reachable state focuses the student of the
    row: the radar chart and the insight panel show that student, as the
    roster holds it, whatever is selected for comparison; the roster, the
    selection and the rows stay as they were. *)
Theorem row_click_focuses (host : Host)
    (st : State) (i : nat) (r : Row) :
  reachable host st ->
  nth_error (tableBody st) i = Some r ->
  let st' := dispatch host st (RowClicked i) in
  let s := student (row_student r) in
  find_student (students st) (row_id r) = Some s
  /\ selectedStudentForRadar st' = Some (row_id r)
  /\ radarChart st' = RadarOf s
  /\ insightPanel st' = InsightContent (name s) (getInsight s)
  /\ students st' = students st
  /\ selectedStudents st' = selectedStudents st
  /\ tableBody st' = tableBody st.
Proof.
  intros Hreach E st' s. subst st'. cbn [dispatch]. unfold on_row. rewrite E.
  assert (Hfind : find_student (students st) (row_id r) = Some s).
  { apply (table_rows_are_current_aux host st r Hreach).
    eapply nth_error_In; eauto. }
  split; [exact Hfind|].
  unfold selectStudentForRadar. cbn [students set_selectedStudentForRadar].
  rewrite Hfind. unfold showInsight.
  cbn [students drawRadarChart set_radarChart set_selectedStudentForRadar].
  rewrite Hfind. repeat split.
Qed.

Lemma row_click_focuses_witness :
  reachable asciiHost two_checked
  /\ nth_error (tableBody two_checked) 4
     = Some (nth 4 (tableBody two_checked) (mkRow (mkRanked bob NaN 0) false))
  /\ selectedStudentForRadar (dispatch asciiHost two_checked (RowClicked 4%nat))
     = Some 105
  /\ exists insight,
       insightPanel (dispatch asciiHost two_checked (RowClicked 4%nat))
       = InsightContent "Vikram Reddy" insight.
Proof.
  assert (H : reachable asciiHost two_checked).
  { unfold two_checked, loaded. repeat apply reach_step. apply reach_init. }
  split; [exact H|]. split; [reflexivity|].
  destruct (row_click_focuses asciiHost two_checked 4 _ H eq_refl)
    as (_ & Hfocus & _ & Hpanel & _).
  split; [exact Hfocus|]. eexists. exact Hpanel.
Defined.

(** X16.  Deleting while a student is focused, in a reachable state:
    deleting the focused student clears the focus, empties the radar chart
    and puts the default placeholder in the insight panel; deleting another
    student keeps the focus and repaints the radar chart and the panel with
    the focused student.  Either way the panel does not look at the
    comparison selection. *)
Theorem deleteStudent_repaints_focus (host : Host)
    (st : State) (f i : Z) :
  reachable host st ->
  selectedStudentForRadar st = Some f ->
  let st' := deleteStudent host st i in
  (i = f ->
   selectedStudentForRadar st' = None
   /\ radarChart st' = EmptyRadar
   /\ insightPanel st' = defaultPlaceholder)
  /\ (i <> f ->
      exists s,
        find_student (students st) f = Some s
        /\ selectedStudentForRadar st' = Some f
        /\ radarChart st' = RadarOf s
        /\ insightPanel st' = InsightContent (name s) (getInsight s)).
Proof.
  intros Hreach Hf st'. pose proof (reachable_consistent _ _ Hreach) as Hc.
  destruct (deleteStudent_unfold host st i)
    as (st2 & Hdel & Hst & Hfocus & _).
  pose proof (updateAllVisuals_effect host st2) as Heff.
  cbn zeta in Heff. rewrite <- Hdel in Heff. fold st' in Heff.
  rewrite Hfocus, Hf, Hst in Heff.
  assert (Ht : truthy_id f = true).
  { unfold truthy_id. apply negb_true_iff, Z.eqb_neq. intros ->.
    now apply (focus_truthy _ (roster_in_order _ Hc)). }
  rewrite Ht in Heff. split.
  - intros ->. rewrite find_student_filter_self in Heff. exact Heff.
  - intros Hne. rewrite find_student_filter_other in Heff by congruence.
    destruct (find_student_present (students st) f) as [s Hs].
    { now apply (focus_present _ Hc). }
    rewrite Hs in Heff. exists s. split; [exact Hs|exact Heff].
Qed.

Lemma deleteStudent_repaints_focus_witness :
  reachable asciiHost one_checked_one_focused
  /\ selectedStudentForRadar one_checked_one_focused = Some 103
  /\ selectedStudents (deleteStudent asciiHost one_checked_one_focused 103)
     = [104]
  /\ insightPanel (deleteStudent asciiHost one_checked_one_focused 103)
     = defaultPlaceholder.
Proof.
  assert (H : reachable asciiHost one_checked_one_focused).
  { unfold one_checked_one_focused, loaded. repeat apply reach_step. apply reach_init. }
  split; [exact H|]. split; [reflexivity|]. split; [vm_compute; reflexivity|].
  exact (proj2 (proj2 (proj1 (deleteStudent_repaints_focus asciiHost
                                one_checked_one_focused 103 103 H eq_refl)
                         eq_refl))).
Defined.

(** X17.  A committed mark edit in a reachable state repaints the radar
    chart and the insight panel with the focused student as the roster now
    holds it, whichever student was edited and whatever is selected for
    comparison; when no student is focused, the radar chart and the panel
    are left as they were. *)
Theorem handleMarkEdit_repaints_focus (host : Host)
    (st st' : State) (i : Z) (subject : Subject) (raw : string) :
  reachable host st ->
  handleMarkEdit host st i subject raw = Returned st' ->
  (selectedStudentForRadar st = None ->
   selectedStudentForRadar st' = None
   /\ radarChart st' = radarChart st /\ insightPanel st' = insightPanel st)
  /\ (forall f, selectedStudentForRadar st = Some f ->
        exists s',
          find_student (students st') f = Some s'
          /\ selectedStudentForRadar st' = Some f
          /\ radarChart st' = RadarOf s'
          /\ insightPanel st' = InsightContent (name s') (getInsight s')).
Proof.
  intros Hreach Hedit. pose proof (reachable_consistent _ _ Hreach) as Hc.
  unfold handleMarkEdit in Hedit.
  destruct (find_student (students st) i) as [s|]; [|discriminate].
  destruct (isNaN _ || _ || _); [discriminate|].
  injection Hedit as <-.
  match goal with |- context [updateAllVisuals host ?s2] =>
    pose proof (updateAllVisuals_effect host s2) as Heff;
    pose proof (proj1 (updateAllVisuals_roster host s2)) as Hroster
  end.
  cbn zeta in Heff. cbn [selectedStudentForRadar students set_students] in Heff, Hroster.
  split.
  - intros Hnone. rewrite Hnone in Heff. exact Heff.
  - intros f Hf. rewrite Hf in Heff.
    assert (Ht : truthy_id f = true).
    { unfold truthy_id. apply negb_true_iff, Z.eqb_neq. intros ->.
      now apply (focus_truthy _ (roster_in_order _ Hc)). }
    rewrite Ht in Heff.
    destruct (find_student_assign_mark (students st) i f subject
                (parseInt (trim raw)) (focus_present _ Hc f Hf)) as [s' Hs'].
    rewrite Hs' in Heff. exists s'. rewrite Hroster. split; [exact Hs'|exact Heff].
Qed.

Lemma handleMarkEdit_repaints_focus_witness :
  reachable asciiHost one_checked_one_focused
  /\ exists st',
       handleMarkEdit asciiHost one_checked_one_focused 103 math "100"
       = Returned st'
       /\ exists s',
            radarChart st' = RadarOf s'
            /\ get_mark (marks s') math = num 100
            /\ insightPanel st' = InsightContent (name s') (getInsight s').
Proof.
  assert (H : reachable asciiHost one_checked_one_focused).
  { unfold one_checked_one_focused, loaded. repeat apply reach_step. apply reach_init. }
  split; [exact H|]. eexists. split; [vm_compute; reflexivity|].
  match goal with |- exists s', radarChart ?st' = _ /\ _ =>
    assert (Hedit : handleMarkEdit asciiHost one_checked_one_focused 103 math "100"
                    = Returned st') by (vm_compute; reflexivity);
    destruct (proj2 (handleMarkEdit_repaints_focus asciiHost
                       one_checked_one_focused st' 103 math "100" H Hedit)
                103 eq_refl) as (s' & Hfind & _ & Hradar & Hpanel)
  end.
  exists s'. split; [exact Hradar|]. split; [|exact Hpanel].
  vm_compute in Hfind. injection Hfind as <-. reflexivity.
Defined.

(** ** Comparison selection and its dialog *)




Lemma drawComparisonChart_result st i1 i2 student1 student2 :
  selectedStudents st = [i1; i2] ->
  find_student (students st) i1 = Some student1 ->
  find_student (students st) i2 = Some student2 ->
  comparisonChart (drawComparisonChart st)
  = Some (mkComparison (name student1, name student2)
            (flat_map (subject_markers student1 student2) SUBJECTS)
            (flat_map (subject_legend student1 student2) SUBJECTS)).
Proof.
  intros Hsel H1 H2. unfold drawComparisonChart.
  rewrite Hsel. cbn [List.length Nat.eqb negb nth_error]. rewrite H1, H2.
  rewrite fold_compareSubject. reflexivity.
Qed.



Lemma subject_winner_sym student1 student2 subject :
  subject_winner student1 student2 subject = subject_winner student2 student1 subject.
Proof.
  unfold subject_winner.
  destruct (num_gt (get_mark (marks student1) subject)
              (get_mark (marks student2) subject)) eqn:E.
  - now rewrite (num_gt_asym _ _ E).
  - reflexivity.
Qed.

(** X20.  The legend of the comparison chart does not depend on the order
    in which the two students were selected: two states with the same
    roster and the same two students selected in opposite orders get the
    same legend (the names above the chart are swapped). *)
Theorem comparison_legend_symmetric (st st' : State) (i1 i2 : Z)
    (student1 student2 : Student) :
  selectedStudents st = [i1; i2] ->
  selectedStudents st' = [i2; i1] ->
  students st' = students st ->
  find_student (students st) i1 = Some student1 ->
  find_student (students st) i2 = Some student2 ->
  exists c c',
    comparisonChart (drawComparisonChart st) = Some c
    /\ comparisonChart (drawComparisonChart st') = Some c'
    /\ comparisonLegend c' = comparisonLegend c
    /\ comparisonNames c = (name student1, name student2)
    /\ comparisonNames c' = (name student2, name student1).
Proof.
  intros Hsel Hsel' Hst H1 H2.
  rewrite (drawComparisonChart_result st i1 i2 student1 student2 Hsel H1 H2).
  rewrite (drawComparisonChart_result st' i2 i1 student2 student1 Hsel');
    [|rewrite Hst; assumption..].
  eexists _, _. split; [reflexivity|]. split; [reflexivity|].
  cbn [comparisonLegend comparisonNames]. split; [|split; reflexivity].
  apply flat_map_ext. intros subject.
  rewrite !subject_legend_winner. now rewrite subject_winner_sym.
Qed.

Lemma comparison_legend_symmetric_witness :
  selectedStudents two_checked = [104; 101]
  /\ option_map comparisonLegend
       (comparisonChart
          (drawComparisonChart (set_selectedStudents two_checked [101; 104])))
     = option_map comparisonLegend (comparisonChart (drawComparisonChart two_checked)).
Proof.
  split; [reflexivity|].
  destruct (comparison_legend_symmetric two_checked
              (set_selectedStudents two_checked [101; 104]) 104 101
              (nth 0 studentsData bob) (nth 1 studentsData bob)
              eq_refl eq_refl eq_refl eq_refl eq_refl)
    as (c & c' & Hc & Hc' & Hleg & _).
  rewrite Hc, Hc'. cbn [option_map]. now rewrite Hleg.
Defined.

(** ** Hovering and printing *)






(** ** Adding, deleting and editing compose *)

Lemma next_id_fresh (l : list Student) : ~ In (next_id l) (ids l).
Proof.
  destruct l as [|s r]; [intros []|]. unfold next_id. intros Hin.
  pose proof (Math_max_ge (ids (s :: r))) as Hmax.
  rewrite Forall_forall in Hmax. apply Hmax in Hin. lia.
Qed.

(** X23.  Deleting the student that [addStudent] has just added gives back
    the roster as it was, and frees the id: the next student added gets the
    same id again. *)
Theorem add_then_delete (host : Host)
    (st : State) (studentData : StudentData) :
  let added := addStudent host st studentData in
  let newId := next_id (students st) in
  In newId (ids (students added))
  /\ students (deleteStudent host added newId) = students st
  /\ next_id (students (deleteStudent host added newId)) = newId.
Proof.
  intros added newId. subst added.
  assert (Hback : students (deleteStudent host
                              (addStudent host st studentData) newId)
                  = students st).
  { rewrite deleteStudent_students, addStudent_students, filter_app.
    cbn [filter id]. fold newId. rewrite Z.eqb_refl. cbn [negb].
    rewrite app_nil_r. apply filter_all_students. apply next_id_fresh. }
  split; [|split; [exact Hback|now rewrite Hback]].
  rewrite addStudent_students, ids_app. apply in_or_app. right. left. reflexivity.
Qed.

Lemma assign_mark_twice l i subject v w :
  assign_mark (assign_mark l i subject v) i subject w = assign_mark l i subject w.
Proof.
  induction l as [|s l IH]; cbn [assign_mark]; [reflexivity|].
  destruct (id s =? i) eqn:E; cbn [assign_mark id].
  - rewrite E. cbn [rollNo name marks]. f_equal. f_equal.
    destruct (marks s), subject; reflexivity.
  - rewrite E. now rewrite IH.
Qed.

Lemma assign_mark_same l i subject s :
  find_student l i = Some s ->
  assign_mark l i subject (get_mark (marks s) subject) = l.
Proof.
  unfold find_student. induction l as [|t l IH]; cbn [find assign_mark]; [reflexivity|].
  destruct (id t =? i).
  - intros [= ->]. f_equal. destruct s as [i' r n [a b c d e]].
    destruct subject; reflexivity.
  - intros H. now rewrite IH.
Qed.

(** X24.  Two committed edits of the same cell leave the roster as the
    second alone would: the last value wins.  In particular, editing a
    mark and then editing it back to its former value restores the
    roster. *)
Theorem handleMarkEdit_twice (host : Host)
    (st st1 st2 : State) (i : Z) (subject : Subject) (raw1 raw2 : string) :
  handleMarkEdit host st i subject raw1 = Returned st1 ->
  handleMarkEdit host st1 i subject raw2 = Returned st2 ->
  students st2 = assign_mark (students st) i subject (parseInt (trim raw2))
  /\ (forall s, find_student (students st) i = Some s ->
        parseInt (trim raw2) = get_mark (marks s) subject ->
        students st2 = students st).
Proof.
  intros H1 H2.
  assert (E1 : students st1
               = assign_mark (students st) i subject (parseInt (trim raw1))).
  { unfold handleMarkEdit in H1.
    destruct (find_student (students st) i); [|discriminate].
    destruct (isNaN _ || _ || _); [discriminate|]. injection H1 as <-.
    now rewrite (proj1 (updateAllVisuals_roster _ _)). }
  assert (E2 : students st2
               = assign_mark (students st1) i subject (parseInt (trim raw2))).
  { unfold handleMarkEdit in H2.
    destruct (find_student (students st1) i); [|discriminate].
    destruct (isNaN _ || _ || _); [discriminate|]. injection H2 as <-.
    now rewrite (proj1 (updateAllVisuals_roster _ _)). }
  rewrite E2, E1, assign_mark_twice. split; [reflexivity|].
  intros s Hs ->. now apply assign_mark_same.
Qed.

Lemma handleMarkEdit_twice_witness :
  exists st1 st2,
    handleMarkEdit asciiHost loaded 104 math "12" = Returned st1
    /\ handleMarkEdit asciiHost st1 104 math "95" = Returned st2
    /\ students st1 <> students loaded
    /\ students st2 = students loaded.
Proof.
  eexists _, _. split; [vm_compute; reflexivity|]. split; [vm_compute; reflexivity|].
  split; [vm_compute; discriminate|].
  match goal with |- students ?s2 = _ =>
    match type of s2 with _ => idtac end;
    refine (proj2 (handleMarkEdit_twice asciiHost loaded _ s2 104 math "12" "95"
                     ltac:(vm_compute; reflexivity) ltac:(vm_compute; reflexivity))
              (nth 0 studentsData bob) eq_refl eq_refl)
  end.
Defined.

(** ** Searching *)

(** X25.  A search text that the host lower-cases to the same text as the
    whole name or the whole roll number of a student, that is, the name or
    the roll number typed in any letter case, finds that student: under the
    ['all'] filter the student is in the table, whatever the sort key. *)
Theorem search_finds_by_name_or_roll (host : Host)
    (roster : list Student) (x : RankedStudent) (term sort : string) :
  In x (calculateRanks roster) ->
  toLowerCase host term = toLowerCase host (name (student x))
  \/ toLowerCase host term = toLowerCase host (rollNo (student x)) ->
  In x (renderTable_view host roster term "all" sort).
Proof.
  intros Hx Hterm. apply renderTable_view_In. split; [exact Hx|].
  split; [|reflexivity]. unfold searched. cbv zeta.
  destruct (truthy_string (trim (toLowerCase host term))); [|reflexivity].
  apply orb_true_iff.
  destruct Hterm as [-> | ->]; [left|right]; apply includes_trim.
Qed.

Lemma search_finds_by_name_or_roll_witness :
  In (mkRanked (nth 1 studentsData bob) (Fin 87.2) 2) (calculateRanks studentsData)
  /\ toLowerCase asciiHost "AARAV Sharma" = toLowerCase asciiHost "Aarav Sharma"
  /\ In (mkRanked (nth 1 studentsData bob) (Fin 87.2) 2)
        (renderTable_view asciiHost studentsData "AARAV Sharma" "all" "roll").
Proof.
  assert (H : In (mkRanked (nth 1 studentsData bob) (Fin 87.2) 2)
                (calculateRanks studentsData)).
  { vm_compute. right. left. reflexivity. }
  split; [exact H|]. split; [reflexivity|].
  exact (search_finds_by_name_or_roll asciiHost studentsData _
           "AARAV Sharma" "roll" H (or_introl eq_refl)).
Defined.

(** ** [parseInt] and trimming *)

(** X29.  [handleMarkEdit] reads the text of the cell with [parseInt]
    after trimming it, which is the reading of the text as it stands:
    white space at the start skipped, an optional sign, then the longest
    run of digits (hexadecimal after a [0x] prefix), with the text after
    the digits ignored.  When the text has no reading, or its reading is
    outside 0..100, the edit is refused: the state is unchanged and the
    cell shows the committed mark.  When the reading is an integer in
    0..100, the mark of that subject of the student found is overwritten
    with it and nothing else in the roster changes.  A valid integer text
    is read as the integer it denotes. *)
Theorem handleMarkEdit_validation (host : Host)
    (st : State) (i : Z) (subject : Subject) (raw : string) (s : Student) :
  find_student (students st) i = Some s ->
  (leading_integer raw = None ->
   handleMarkEdit host st i subject raw = Reverted st (get_mark (marks s) subject))
  /\ (forall z, leading_integer raw = Some z -> z < 0 \/ 100 < z ->
       handleMarkEdit host st i subject raw
       = Reverted st (get_mark (marks s) subject))
  /\ (forall z, leading_integer raw = Some z -> 0 <= z <= 100 ->
      exists st' l1 l2 s',
        handleMarkEdit host st i subject raw = Returned st'
        /\ students st = l1 ++ s :: l2
        /\ students st' = l1 ++ s' :: l2
        /\ id s' = id s /\ rollNo s' = rollNo s /\ name s' = name s
        /\ get_mark (marks s') subject = num z
        /\ (forall other, other <> subject ->
              get_mark (marks s') other = get_mark (marks s) other))
  /\ (spec_valid_integer raw = true ->
      leading_integer raw = Some (spec_integer_value raw)).
Proof.
  intros Hfind.
  assert (Hread : parseInt (trim raw)
                  = match leading_integer raw with
                    | Some z => num z
                    | None => NaN
                    end).
  { rewrite parseInt_trim. apply parseInt_leading_integer. }
  split; [|split; [|split]].
  - intros Hnone. unfold handleMarkEdit. rewrite Hfind, Hread, Hnone. reflexivity.
  - intros z Hz Hout. unfold handleMarkEdit. rewrite Hfind, Hread, Hz.
    replace (isNaN (num z) || num_lt (num z) (num 0) || num_gt (num z) (num 100))
      with true; [reflexivity|].
    symmetry. apply orb_true_iff. destruct Hout as [Hneg | Hbig].
    + left. apply orb_true_iff. right. unfold num. rewrite num_lt_Fin, <- Zlt_Qlt. lia.
    + right. now apply num_gt_num.
  - intros z Hz Hrange. unfold handleMarkEdit. rewrite Hfind, Hread, Hz.
    assert (Hok : isNaN (num z) || num_lt (num z) (num 0) || num_gt (num z) (num 100)
                  = false).
    { unfold num. cbn [isNaN orb]. apply orb_false_iff.
      split; apply not_true_iff_false.
      - rewrite num_lt_Fin, <- Zlt_Qlt. lia.
      - rewrite num_gt_Fin, <- Zlt_Qlt. lia. }
    rewrite Hok.
    destruct (assign_mark_split (students st) i subject (num z) s Hfind)
      as (l1 & l2 & Hsplit & Hassign & _).
    eexists _, l1, l2, _. split; [reflexivity|]. split; [exact Hsplit|].
    rewrite (proj1 (updateAllVisuals_roster _ _)). cbn [students set_students].
    split; [exact Hassign|]. cbn [id rollNo name marks].
    repeat split; [apply get_set_mark_same|].
    intros other Hother. now apply get_set_mark_other.
  - intros Hvalid. pose proof (parseInt_valid_integer raw Hvalid) as Hv.
    rewrite Hread in Hv. destruct (leading_integer raw) as [z|]; [|discriminate].
    f_equal. now apply num_inj.
Qed.

Lemma handleMarkEdit_validation_witness :
  find_student (students loaded) 104 = Some (nth 0 studentsData bob)
  /\ leading_integer (no_break_space ++ " 12abc") = Some 12
  /\ exists st',
       handleMarkEdit asciiHost loaded 104 math (no_break_space ++ " 12abc")
       = Returned st'
       /\ get_mark (marks (nth 0 (students st') bob)) math = num 12.
Proof.
  split; [reflexivity|]. split; [reflexivity|].
  assert (Hrange : 0 <= 12 <= 100) by lia.
  destruct (proj1 (proj2 (proj2 (handleMarkEdit_validation asciiHost loaded 104 math
                            (no_break_space ++ " 12abc")
                            (nth 0 studentsData bob) eq_refl)))
              12 eq_refl Hrange)
    as (st' & l1 & l2 & s' & Hret & _).
  exists st'. split; [exact Hret|].
  vm_compute in Hret. injection Hret as <-. vm_compute. reflexivity.
Defined.

Lemma parseInt_integer (s : string) :
  parseInt s = NaN \/ exists z, parseInt s = num z.
Proof.
  unfold parseInt.
  destruct (strip_sign (trimStart s)) as [sign s1].
  destruct (strip_hex_prefix s1) as [radix s2].
  destruct (parse_digits radix s2 None) as [v|]; [right; eauto|now left].
Qed.

Lemma find_student_assign_mark_same (l : list Student) (i : Z)
    (subject : Subject) (v : number) (s : Student) :
  find_student l i = Some s ->
  find_student (assign_mark l i subject v) i
  = Some (mkStudent (id s) (rollNo s) (name s) (set_mark (marks s) subject v)).
Proof.
  unfold find_student.
  induction l as [|t l IH]; cbn [find assign_mark]; [discriminate|].
  destruct (id t =? i) eqn:E.
  - intros [= <-]. cbn [find id]. now rewrite E.
  - intros H. cbn [find]. rewrite E. now apply IH.
Qed.

(** X26.  A committed edit stores in the student's mark what [parseInt]
    reads from the text of the cell as it was typed: the [trim] before
    [parseInt] changes nothing, since [parseInt] skips the white space at the
    start and ignores whatever follows the digits.  The text of a mark cell
    is therefore read as the same text in a field of the add form is, which
    is not trimmed.  The stored number is an integer from 0 to 100. *)
Theorem handleMarkEdit_stores_parseInt (host : Host)
    (st st' : State) (i : Z) (subject : Subject) (textContent : string) :
  handleMarkEdit host st i subject textContent = Returned st' ->
  parseInt (trim textContent) = parseInt textContent
  /\ exists s' z,
       find_student (students st') i = Some s'
       /\ get_mark (marks s') subject = parseInt textContent
       /\ parseInt textContent = num z /\ in_range z.
Proof.
  intros H. split; [apply parseInt_trim|].
  unfold handleMarkEdit in H. rewrite parseInt_trim in H.
  destruct (find_student (students st) i) as [s|] eqn:Hfind; [|discriminate].
  destruct (isNaN _ || _ || _) eqn:Hbad; [discriminate|].
  injection H as <-.
  apply orb_false_iff in Hbad. destruct Hbad as [Hbad Hgt].
  apply orb_false_iff in Hbad. destruct Hbad as [Hnan Hlt].
  destruct (parseInt_integer textContent) as [Hp|(z & Hp)].
  { rewrite Hp in Hnan. discriminate. }
  eexists _, z. rewrite (proj1 (updateAllVisuals_roster host _)).
  cbn [students set_students].
  split; [apply find_student_assign_mark_same; exact Hfind|].
  cbn [marks]. split; [apply get_set_mark_same|]. split; [exact Hp|].
  rewrite Hp in Hlt, Hgt. rewrite num_lt_num in Hlt. unfold in_range.
  assert (Hle : ~ 100 < z) by (rewrite <- num_gt_num, Hgt; discriminate).
  lia.
Qed.

Lemma handleMarkEdit_stores_parseInt_witness :
  exists st' s',
    handleMarkEdit asciiHost loaded 104 math (no_break_space ++ "85 marks ") = Returned st'
    /\ find_student (students st') 104 = Some s'
    /\ get_mark (marks s') math = parseInt (no_break_space ++ "85 marks ")
    /\ parseInt (no_break_space ++ "85 marks ") = num 85.
Proof.
  eexists _.
  match goal with
  | |- exists s', handleMarkEdit _ _ _ _ _ = Returned ?st /\ _ =>
      destruct (handleMarkEdit_stores_parseInt asciiHost loaded st 104 math
                  (no_break_space ++ "85 marks ") ltac:(vm_compute; reflexivity))
        as (_ & s' & z & Hfind & Hmark & _)
  end.
  exists s'. split; [vm_compute; reflexivity|].
  split; [exact Hfind|]. split; [exact Hmark|]. vm_compute. reflexivity.
Defined.

(** ** Bars of the comparison chart *)

Lemma num_div_Fin (x y : Q) :
  Qeq_bool y 0 = false -> num_div (Fin x) (Fin y) = Fin (x / y).
Proof. intros H. unfold num_div. now rewrite H. Qed.

Lemma bar_height_bounds (z : Z) (h : Q) :
  in_range z -> (0 <= h)%Q ->
  (0 <= inject_Z z / 100 * h /\ inject_Z z / 100 * h <= h)%Q.
Proof.
  intros [Hlo Hhi] Hh.
  assert (H0 : (0 <= inject_Z z / 100)%Q).
  { apply Qle_shift_div_l; [reflexivity|].
    rewrite Qmult_0_l. change 0%Q with (inject_Z 0). now rewrite <- Zle_Qle. }
  assert (H1 : (inject_Z z / 100 <= 1)%Q).
  { apply Qle_shift_div_r; [reflexivity|].
    rewrite Qmult_1_l. change 100%Q with (inject_Z 100). now rewrite <- Zle_Qle. }
  split.
  - now apply Qmult_le_0_compat.
  - setoid_replace h with (1 * h)%Q at 2 by ring.
    now apply Qmult_le_compat_r.
Qed.

Ltac bar_slot z Hz :=
  unfold bar_in_slot;
  cbn [fst snd rectX rectY rectWidth rectHeight Z.eqb subject_index];
  unfold padding_left, padding_right, padding_top, padding_bottom, num;
  cbn [num_add num_sub num_mul num_neg];
  rewrite !num_div_Fin by reflexivity;
  cbn [num_add num_sub num_mul num_neg];
  rewrite !num_div_Fin by reflexivity;
  cbn [num_add num_sub num_mul num_neg];
  change (inject_Z 0) with 0%Q; change (inject_Z 1) with 1%Q;
  change (inject_Z 2) with 2%Q; change (inject_Z 3) with 3%Q;
  change (inject_Z 4) with 4%Q; change (inject_Z 5) with 5%Q;
  change (inject_Z 30) with 30%Q; change (inject_Z 50) with 50%Q;
  change (inject_Z 100) with 100%Q;
  match goal with
  | Hh : (80 < inject_Z ?height)%Q |- context [(inject_Z z / 100 * ?h)%Q] =>
      let Hb := fresh "Hb" in
      assert (Hb : (0 <= inject_Z z / 100 * h /\ inject_Z z / 100 * h <= h)%Q)
        by (apply bar_height_bounds; [exact Hz | lra]);
      destruct Hb;
      generalize dependent (inject_Z z / 100 * h)%Q; intros
  end;
  unfold Qdiv;
  change (/ 5)%Q with (1 # 5)%Q; change (/ 2)%Q with (1 # 2)%Q;
  repeat split; try lra; intros; try discriminate; lra.

(** X27 ([drawComparisonChart], bar layout).  On a canvas wider and taller
    than the paddings (80 px each way) and with every mark of both students
    an integer from 0 to 100, the chart draws ten bars: for every subject, in
    the order of [SUBJECTS], first the bar of the first student and then the
    bar of the second.  Every bar has a positive width and a height that is
    not negative, lies inside the horizontal slot of its subject (the two
    bars of a subject on either side of the slot's centre, so they never
    overlap), stays inside the plot area bounded by the paddings, and stands
    on the base line [height - 50]. *)
Theorem comparisonBars_layout (width height : Z) (student1 student2 : Student) :
  80 < width -> 80 < height ->
  marks_in_range (marks student1) -> marks_in_range (marks student2) ->
  map fst (comparisonBars width height student1 student2)
    = flat_map (fun subject => [(subject, 0); (subject, 1)]) SUBJECTS
  /\ Forall (fun bar =>
               bar_in_slot width height (subject_index (fst (fst bar)))
                 (snd (fst bar)) (snd bar))
       (comparisonBars width height student1 student2).
Proof.
  intros Hw Hh H1 H2.
  split; [reflexivity|].
  assert (Hw' : (80 < inject_Z width)%Q)
    by (change 80%Q with (inject_Z 80); now rewrite <- Zlt_Qlt).
  assert (Hh' : (80 < inject_Z height)%Q)
    by (change 80%Q with (inject_Z 80); now rewrite <- Zlt_Qlt).
  unfold comparisonBars.
  change (combine SUBJECTS (map Z.of_nat (seq 0 (List.length SUBJECTS))))
    with [(math, 0); (science, 1); (english, 2); (history, 3); (computer, 4)].
  change (num (Z.of_nat (List.length SUBJECTS))) with (num 5).
  cbn [flat_map map combine app].
  destruct (H1 math) as (a1 & -> & Ha1).
  destruct (H2 math) as (a2 & -> & Ha2).
  destruct (H1 science) as (b1 & -> & Hb1).
  destruct (H2 science) as (b2 & -> & Hb2).
  destruct (H1 english) as (c1 & -> & Hc1).
  destruct (H2 english) as (c2 & -> & Hc2).
  destruct (H1 history) as (d1 & -> & Hd1).
  destruct (H2 history) as (d2 & -> & Hd2).
  destruct (H1 computer) as (e1 & -> & He1).
  destruct (H2 computer) as (e2 & -> & He2).
  clear H1 H2 Hw Hh.
  repeat apply Forall_cons; [| | | | | | | | | |apply Forall_nil].
  - bar_slot a1 Ha1.
  - bar_slot a2 Ha2.
  - bar_slot b1 Hb1.
  - bar_slot b2 Hb2.
  - bar_slot c1 Hc1.
  - bar_slot c2 Hc2.
  - bar_slot d1 Hd1.
  - bar_slot d2 Hd2.
  - bar_slot e1 He1.
  - bar_slot e2 He2.
Qed.

Lemma comparisonBars_layout_witness :
  (80 < 600 /\ 80 < 400
   /\ marks_in_range (marks_of 85 92 78 88 95)
   /\ marks_in_range (marks_of 72 68 85 79 90))
  /\ Forall (fun bar =>
               bar_in_slot 600 400 (subject_index (fst (fst bar)))
                 (snd (fst bar)) (snd bar))
       (comparisonBars 600 400
          (mkStudent 1 "101" "Alice Johnson" (marks_of 85 92 78 88 95))
          (mkStudent 2 "102" "Bob Smith" (marks_of 72 68 85 79 90))).
Proof.
  assert (Hw : 80 < 600) by lia.
  assert (Hh : 80 < 400) by lia.
  assert (H1 : marks_in_range (marks_of 85 92 78 88 95)).
  { intros []; eexists; (split; [reflexivity|]); unfold in_range; lia. }
  assert (H2 : marks_in_range (marks_of 72 68 85 79 90)).
  { intros []; eexists; (split; [reflexivity|]); unfold in_range; lia. }
  split; [exact (conj Hw (conj Hh (conj H1 H2)))|].
  exact (proj2 (comparisonBars_layout 600 400
                  (mkStudent 1 "101" "Alice Johnson" (marks_of 85 92 78 88 95))
                  (mkStudent 2 "102" "Bob Smith" (marks_of 72 68 85 79 90))
                  Hw Hh H1 H2)).
Defined.

(** ** Debounced search input *)

Section DebounceFacts.

Variables Args Store : Type.
Variable func : Args -> Store -> Store.
Variable wait : nat.

Lemma run_app (ticks1 ticks2 : list (Tick Args)) (d : Debounced Args Store) :
  run func wait (ticks1 ++ ticks2) d
  = run func wait ticks2 (run func wait ticks1 d).
Proof. unfold run. apply fold_left_app. Qed.

Lemma burst_keeps_store (burst : list (Args * nat)) (d : Debounced Args Store) :
  Forall (fun call => (snd call < wait)%nat) burst ->
  snd (run func wait (burst_ticks burst) d) = snd d.
Proof.
  intros H. revert d. induction H as [|[args ms] burst Hms _ IH]; intros d.
  - reflexivity.
  - cbn [burst_ticks flat_map app fst snd] in *.
    change (run func wait (Call args :: Wait ms :: ?l) d)
      with (run func wait l (elapse func ms (executedFunction wait args d))).
    fold (burst_ticks burst). rewrite IH.
    unfold elapse, executedFunction. cbn [fst snd delay later].
    destruct (Nat.leb_spec wait ms) as [Hle|Hlt]; [lia|reflexivity].
Qed.

End DebounceFacts.

(** X28 ([debounce]).  When the debounced function is called several times
    with less than [wait] ms between one call and the next, and then at least
    [wait] ms pass after the last call, [func] has run exactly once, with the
    arguments of the last call, and no timer is left pending.  This holds
    whatever timer was pending before the first call. *)
Theorem debounce_runs_once_after_burst (Args Store : Type)
    (func : Args -> Store -> Store) (wait : nat)
    (burst : list (Args * nat)) (last : Args) (ms : nat)
    (d : Debounced Args Store) :
  Forall (fun call => (snd call < wait)%nat) burst ->
  (wait <= ms)%nat ->
  run func wait (burst_ticks burst ++ [Call last; Wait ms]) d
  = (None, func last (snd d)).
Proof.
  intros Hburst Hms.
  rewrite run_app.
  pose proof (burst_keeps_store _ _ func wait burst d Hburst) as Hstore.
  destruct (run func wait (burst_ticks burst) d) as [timeout store].
  cbn [snd] in Hstore. subst store.
  unfold run. cbn [fold_left tick].
  unfold elapse, executedFunction. cbn [fst snd delay later].
  destruct (Nat.leb_spec wait ms) as [_|Hlt]; [reflexivity|lia].
Qed.

Lemma debounce_runs_once_after_burst_witness :
  (Forall (fun call : string * nat => (snd call < 150)%nat)
     [("a", 40%nat); ("an", 149%nat)]
   /\ (150 <= 150)%nat)
  /\ run (fun (args : string) (log : list string) => args :: log) 150
       (burst_ticks [("a", 40%nat); ("an", 149%nat)]
          ++ [Call "ana"; Wait 150])
       (None, [])
     = (None, ["ana"]).
Proof.
  assert (H1 : Forall (fun call : string * nat => (snd call < 150)%nat)
                 [("a", 40%nat); ("an", 149%nat)]).
  { repeat constructor; cbn [snd]; lia. }
  assert (H2 : (150 <= 150)%nat) by lia.
  split; [exact (conj H1 H2)|].
  exact (debounce_runs_once_after_burst string (list string)
           (fun (args : string) (log : list string) => args :: log) 150
           [("a", 40%nat); ("an", 149%nat)] "ana" 150 (None, []) H1 H2).
Defined.
